(** * Count-based cluster balancer of kafka-utils: model and properties

    A shallow embedding of
      - kafka_utils/kafka_cluster_manager/cluster_info/partition_count_balancer.py
        (class PartitionCountBalancer) and
      - yelp_kafka_tool/kafka_cluster_manager/cluster_info/rg.py
        (class ReplicationGroup).

    Python objects refer to each other (a broker to its partitions, a
    partition to its replica brokers, a group to its brokers).  Here every
    entity is stored once in the [ClusterTopology] and named by its key;
    cross references are keys.  A Python [dict] or [set] is a list in
    ITERATION ORDER: the code iterates over [rgs.values()], [rg.brokers]
    and the like without sorting them, so that order is visible in its
    results. *)

From Stdlib Require Import List ZArith String Bool Lia Arith Permutation Sorted.
Import ListNotations.
Local Open Scope Z_scope.

Set Implicit Arguments.

(** ** Keys *)

Definition broker_id := Z.
Definition rg_id := string.
(** A partition's name is [(topic_id, partition_id)]. *)
Definition pname := (string * Z)%type.

Definition pname_eqb (a b : pname) : bool :=
  String.eqb (fst a) (fst b) && Z.eqb (snd a) (snd b).

Definition pname_eq_dec (a b : pname) : {a = b} + {a <> b}.
Proof. decide equality; [apply Z.eq_dec | apply string_dec]. Defined.

(** ** Entities *)

Record Broker := mkBroker {
  b_id : broker_id;
  b_replication_group : rg_id;
  b_inactive : bool;
  b_decommissioned : bool;
  b_partitions : list pname          (* the set [broker.partitions] *)
}.

Record Partition := mkPartition {
  p_name : pname;
  p_replicas : list broker_id        (* first = preferred leader *)
}.

Record ReplicationGroup := mkRG {
  rg_ident : rg_id;
  rg_brokers : list broker_id        (* the set [rg._brokers] *)
}.

Record ClusterTopology := mkCT {
  brokers : list Broker;             (* dict id -> Broker, iteration order *)
  rgs : list ReplicationGroup;       (* dict id -> ReplicationGroup *)
  partitions : list Partition        (* dict (topic, index) -> Partition *)
}.

(** ** Python built-ins used by the code *)

Module Py.

Section Builtins.
Variable A : Type.
Variable key : A -> Z.

(** [min(l, key=key)]: the FIRST element with the least key; [None]
    stands for the [ValueError] raised on an empty sequence. *)
Fixpoint min_from (best : A) (l : list A) : A :=
  match l with
  | [] => best
  | x :: l' => if key x <? key best then min_from x l' else min_from best l'
  end.

Definition min (l : list A) : option A :=
  match l with
  | [] => None
  | x :: l' => Some (min_from x l')
  end.

(** [max(l, key=key)]: the FIRST element with the greatest key. *)
Fixpoint max_from (best : A) (l : list A) : A :=
  match l with
  | [] => best
  | x :: l' => if key best <? key x then max_from x l' else max_from best l'
  end.

Definition max (l : list A) : option A :=
  match l with
  | [] => None
  | x :: l' => Some (max_from x l')
  end.

(** [sorted(l, key=key)]: stable, ascending. *)
Fixpoint insert_asc (x : A) (l : list A) : list A :=
  match l with
  | [] => [x]
  | y :: l' => if key x <=? key y then x :: l else y :: insert_asc x l'
  end.

Definition sorted (l : list A) : list A := fold_right insert_asc [] l.

(** [sorted(l, key=key, reverse=True)]: stable, descending. *)
Fixpoint insert_desc (x : A) (l : list A) : list A :=
  match l with
  | [] => [x]
  | y :: l' => if key y <=? key x then x :: l else y :: insert_desc x l'
  end.

Definition sorted_reverse (l : list A) : list A := fold_right insert_desc [] l.
End Builtins.

(** [len(l)] *)
Definition len {A} (l : list A) : Z := Z.of_nat (List.length l).

(** [sum(l)] *)
Definition sum (l : list Z) : Z := fold_right Z.add 0 l.

(** truth value of a list: empty is false *)
Definition truthy {A} (l : list A) : bool :=
  match l with [] => false | _ => true end.

(** [a or b] on lists *)
Definition or_else {A} (a b : list A) : list A :=
  if truthy a then a else b.

End Py.

(** ** Errors and the planner's monad

    Python mutates the topology in place and an exception does not roll the
    mutation back: the state reached is returned with every outcome.
    [sys.exit(1)] is an outcome of its own.  The trace records the events a
    caller can observe while an operation runs. *)

Inductive error :=
| InvalidBrokerIdError
| InvalidPartitionError
| InvalidReplicationFactorError
| RebalanceError
| BrokerDecommissionError
| EmptyReplicationGroupError
| NotEligibleGroupError
| ValueError
| ZeroDivisionError.

Inductive outcome (A : Type) :=
| Return (a : A)
| Raise (e : error)
| SystemExit (code : Z).

Arguments Return {A} a.
Arguments Raise {A} e.
Arguments SystemExit {A} code.

Inductive event :=
(** [source.move_partition(p, dest)] called by group [from_rg] towards group
    [to_rg]; [before] is the topology at the call. *)
| Moved (from_rg to_rg : ReplicationGroup) (p : pname)
        (source dest : broker_id) (before : ClusterTopology)
(** [broker.request_leadership(opt, ...)] *)
| RequestLeadership (b : broker_id) (opt : Z)
(** [broker.donate_leadership(opt, ...)] *)
| DonateLeadership (b : broker_id) (opt : Z).

Record result (A : Type) := mkResult {
  trace : list event;
  final : ClusterTopology;
  out : outcome A
}.

Definition M (A : Type) := ClusterTopology -> result A.

Definition ret {A} (a : A) : M A := fun t => mkResult [] t (Return a).
Definition raise {A} (e : error) : M A := fun t => mkResult [] t (Raise e).
Definition sys_exit {A} (code : Z) : M A := fun t => mkResult [] t (SystemExit code).
Definition get : M ClusterTopology := fun t => mkResult [] t (Return t).
Definition put (t' : ClusterTopology) : M unit := fun _ => mkResult [] t' (Return tt).
Definition emit (e : event) : M unit := fun t => mkResult [e] t (Return tt).

Definition bind {A B} (m : M A) (f : A -> M B) : M B :=
  fun t =>
    let r := m t in
    match out r with
    | Return a =>
        let r' := f a (final r) in
        mkResult (trace r ++ trace r') (final r') (out r')
    | Raise e => mkResult (trace r) (final r) (Raise e)
    | SystemExit c => mkResult (trace r) (final r) (SystemExit c)
    end.

Notation "x <- c1 ;; c2" := (bind c1 (fun x => c2))
  (at level 61, c1 at next level, right associativity).
Notation "c1 ;; c2" := (bind c1 (fun _ => c2))
  (at level 61, right associativity).

Definition error_eq_dec (a b : error) : {a = b} + {a <> b}.
Proof. decide equality. Defined.

(** [try: m except e: pass], telling whether [m] returned ([true]) or
    raised [e] ([false]); any other outcome of [m] passes through. *)
Definition attempt (m : M unit) (e : error) : M bool :=
  fun t =>
    let r := m t in
    match out r with
    | Return _ => mkResult (trace r) (final r) (Return true)
    | Raise e' =>
        if error_eq_dec e e'
        then mkResult (trace r) (final r) (Return false)
        else mkResult (trace r) (final r) (Raise e')
    | SystemExit c => mkResult (trace r) (final r) (SystemExit c)
    end.

(** [for x in l: body x] *)
Fixpoint for_each {A} (l : list A) (body : A -> M unit) : M unit :=
  match l with
  | [] => ret tt
  | x :: l' => body x ;; for_each l' body
  end.

(** ** Lookups in the topology *)

Definition find_broker (t : ClusterTopology) (id : broker_id) : option Broker :=
  find (fun b => b_id b =? id) (brokers t).

Definition find_partition (t : ClusterTopology) (n : pname) : option Partition :=
  find (fun p => pname_eqb (p_name p) n) (partitions t).

Definition find_rg (t : ClusterTopology) (id : rg_id) : option ReplicationGroup :=
  find (fun g => String.eqb (rg_ident g) id) (rgs t).

(** [broker.partitions] of the broker named [id] *)
Definition partitions_of (t : ClusterTopology) (id : broker_id) : list pname :=
  match find_broker t id with
  | Some b => b_partitions b
  | None => []
  end.

(** [partition.replicas] and [partition.replication_factor] *)
Definition replicas_of (t : ClusterTopology) (n : pname) : list broker_id :=
  match find_partition t n with
  | Some p => p_replicas p
  | None => []
  end.

Definition replication_factor (t : ClusterTopology) (n : pname) : Z :=
  Py.len (replicas_of t n).

(** [x in l] *)
Definition pname_in (n : pname) (l : list pname) : bool :=
  existsb (pname_eqb n) l.

Definition id_in (b : broker_id) (l : list broker_id) : bool :=
  existsb (Z.eqb b) l.

Definition rg_in (g : ReplicationGroup) (l : list ReplicationGroup) : bool :=
  existsb (fun g' => String.eqb (rg_ident g') (rg_ident g)) l.

(** [l.remove(x)]: removes the first occurrence *)
Fixpoint rg_remove (g : ReplicationGroup) (l : list ReplicationGroup)
  : list ReplicationGroup :=
  match l with
  | [] => []
  | g' :: l' =>
      if String.eqb (rg_ident g') (rg_ident g) then l' else g' :: rg_remove g l'
  end.

(** ** ReplicationGroup (rg.py) *)

(** [ReplicationGroup.add_broker]: a broker that is already a member is not
    added again (a warning is logged). *)
Definition add_broker (g : ReplicationGroup) (b : broker_id) : ReplicationGroup :=
  if negb (id_in b (rg_brokers g))
  then mkRG (rg_ident g) (rg_brokers g ++ [b])
  else g.

(** [ReplicationGroup.partitions]: the partitions of the group's brokers,
    with multiplicity. *)
Definition rg_partitions (t : ClusterTopology) (g : ReplicationGroup) : list pname :=
  flat_map (partitions_of t) (rg_brokers g).

(** [ReplicationGroup.count_replica] = [self.partitions.count(partition)] *)
Definition count_replica (t : ClusterTopology) (g : ReplicationGroup) (n : pname) : Z :=
  Z.of_nat (count_occ pname_eq_dec (rg_partitions t g) n).

(** ** Parts of the repository outside the given sources

    The classes Broker, Partition and the module util are used by the two
    files above, but are not among them.  What the planner needs of them
    is written here after the specification. *)

Definition update_broker (id : broker_id) (f : Broker -> Broker)
  (t : ClusterTopology) : ClusterTopology :=
  mkCT (map (fun b => if b_id b =? id then f b else b) (brokers t))
       (rgs t) (partitions t).

Definition update_partition (n : pname) (f : Partition -> Partition)
  (t : ClusterTopology) : ClusterTopology :=
  mkCT (brokers t) (rgs t)
       (map (fun p => if pname_eqb (p_name p) n then f p else p) (partitions t)).

Definition set_partitions (ps : list pname) (b : Broker) : Broker :=
  mkBroker (b_id b) (b_replication_group b) (b_inactive b) (b_decommissioned b) ps.

Definition set_replicas (rs : list broker_id) (p : Partition) : Partition :=
  mkPartition (p_name p) rs.

(** Modelled from the spec: Broker.mark_decommissioned (section 4.3.2, step 2:
    mark each named broker decommissioned). *)
Definition mark_decommissioned (id : broker_id) (t : ClusterTopology) : ClusterTopology :=
  update_broker id
    (fun b => mkBroker (b_id b) (b_replication_group b) (b_inactive b) true
                       (b_partitions b)) t.

(** Modelled from the spec: Broker.empty (a broker holding zero partitions). *)
Definition broker_empty (t : ClusterTopology) (id : broker_id) : bool :=
  negb (Py.truthy (partitions_of t id)).

(** Modelled from the spec: the removal of one replica, keeping
    [broker in partition.replicas <-> partition in broker.partitions]
    (section 3). *)
Definition drop_replica (id : broker_id) (n : pname) (t : ClusterTopology)
  : ClusterTopology :=
  update_partition n (fun p => set_replicas (remove Z.eq_dec id (p_replicas p)) p)
    (update_broker id
       (fun b => set_partitions (remove pname_eq_dec n (b_partitions b)) b) t).

(** Modelled from the spec: the addition of one replica; the broker is
    appended to the replica list (section 4.3.4, step 4). *)
Definition append_replica (id : broker_id) (n : pname) (t : ClusterTopology)
  : ClusterTopology :=
  update_partition n (fun p => set_replicas (p_replicas p ++ [id]) p)
    (update_broker id
       (fun b => set_partitions
                   (if pname_in n (b_partitions b) then b_partitions b
                    else b_partitions b ++ [n]) b) t).

(** Modelled from the spec: Broker.move_partition, one replica of the
    partition leaves the source broker and lands on the destination broker
    (section 4.2). *)
Definition broker_move_partition (source : broker_id) (n : pname)
  (dest : broker_id) (t : ClusterTopology) : ClusterTopology :=
  append_replica dest n (drop_replica source n t).

(** Modelled from the spec: Broker.count_partitions(topic), the count of
    partitions of the topic on the broker (section 4.2.2). *)
Definition count_partitions (t : ClusterTopology) (id : broker_id) (topic : string) : Z :=
  Py.len (filter (fun n => String.eqb (fst n) topic) (partitions_of t id)).

(** Modelled from the spec: the preferred leader of a partition is the first
    element of its replica list (section 3). *)
Definition is_leader (t : ClusterTopology) (id : broker_id) (n : pname) : bool :=
  match replicas_of t n with
  | l :: _ => l =? id
  | [] => false
  end.

(** Modelled from the spec: Broker.count_preferred_replica, the count of the
    broker's partitions for which it is the preferred leader (section 3). *)
Definition count_preferred_replica (t : ClusterTopology) (id : broker_id) : Z :=
  Py.len (filter (is_leader t id) (partitions_of t id)).

(** Modelled from the spec: Partition.swap_leader, the chosen broker becomes
    first and the order of the other replicas is kept (section 4.3.3). *)
Definition swap_leader (n : pname) (id : broker_id) (t : ClusterTopology)
  : ClusterTopology :=
  update_partition n
    (fun p => set_replicas (id :: remove Z.eq_dec id (p_replicas p)) p) t.

(** Modelled from the spec: util.compute_optimum (section 4.1); [None] is the
    error on zero buckets. *)
Definition compute_optimum (bucket_count total : Z) : option (Z * Z) :=
  if bucket_count =? 0 then None
  else Some (total / bucket_count, total mod bucket_count).

(** Modelled from the spec: util.separate_groups (section 4.1).  [over] holds
    the items above quotient+1 and, of the items at quotient+1 taken by load
    descending, those after the first [remainder]; [under] holds the items
    below quotient. *)
Definition separate_groups {A} (items : list A) (load : A -> Z) (total : Z)
  : option (list A * list A) :=
  match compute_optimum (Py.len items) total with
  | None => None
  | Some (q, r) =>
      let by_load := Py.sorted_reverse load items in
      let above := filter (fun x => q + 1 <? load x) by_load in
      let at_next := filter (fun x => load x =? q + 1) by_load in
      Some (above ++ skipn (Z.to_nat r) at_next,
            Py.sorted load (filter (fun x => load x <? q) items))
  end.

(** The brokers of a group that hold, or do not hold, a partition. *)
Definition holders (t : ClusterTopology) (g : ReplicationGroup) (n : pname)
  : list broker_id :=
  filter (fun b => pname_in n (partitions_of t b)) (rg_brokers g).

Definition non_holders (t : ClusterTopology) (g : ReplicationGroup) (n : pname)
  : list broker_id :=
  filter (fun b => negb (pname_in n (partitions_of t b))) (rg_brokers g).

(** Modelled from the spec: ReplicationGroup.add_replica (section 4.3.4, step
    4): a broker of the group that does not hold the partition and has the
    fewest partitions, ties by broker id, receives the replica.  The step
    puts no condition on the decommissioned flag of the broker, and the
    model puts none.  The spec does not say what happens when no broker
    qualifies; the model raises. *)
Definition rg_add_replica (g : ReplicationGroup) (n : pname) : M unit :=
  t <- get ;;
  match Py.min (fun b => Py.len (partitions_of t b))
               (Py.sorted (fun b => b) (non_holders t g n)) with
  | None => raise NotEligibleGroupError
  | Some b => put (append_replica b n t)
  end.

(** Modelled from the spec: ReplicationGroup.remove_replica (section 4.3.5,
    step 4): one broker of the group leaves the replica list, an
    out-of-sync one if any, else the one with the highest partition count.
    The spec does not say what happens when the group holds no replica; the
    model raises. *)
Definition rg_remove_replica (g : ReplicationGroup) (n : pname)
  (osr_in_rg : list broker_id) : M unit :=
  t <- get ;;
  let held := Py.sorted (fun b => b) (holders t g n) in
  let out_of_sync := filter (fun b => id_in b osr_in_rg) held in
  match Py.max (fun b => Py.len (partitions_of t b))
               (Py.or_else out_of_sync held) with
  | None => raise NotEligibleGroupError
  | Some b => put (drop_replica b n t)
  end.

(** ** ReplicationGroup: moves across groups (rg.py) *)

(** [_get_eligible_broker_pair]: [filter] gives lists, [max] and [min] raise
    [ValueError] on an empty one. *)
Definition _get_eligible_broker_pair (over_rg under_loaded_rg : ReplicationGroup)
  (eligible_partition : pname) : M (broker_id * broker_id) :=
  t <- get ;;
  let under_brokers := non_holders t under_loaded_rg eligible_partition in
  let over_brokers := holders t over_rg eligible_partition in
  match Py.max (fun b => Py.len (partitions_of t b)) over_brokers with
  | None => raise ValueError
  | Some source_broker =>
      match Py.min (fun b => Py.len (partitions_of t b)) under_brokers with
      | None => raise ValueError
      | Some dest_broker => ret (source_broker, dest_broker)
      end
  end.

(** [move_partition_replica]: the test [if source_broker and dest_broker]
    is on two Broker objects, which are true. *)
Definition move_partition_replica (over_rg under_loaded_rg : ReplicationGroup)
  (eligible_partition : pname) : M unit :=
  pair <- _get_eligible_broker_pair over_rg under_loaded_rg eligible_partition ;;
  let '(source_broker, dest_broker) := pair in
  t <- get ;;
  emit (Moved over_rg under_loaded_rg eligible_partition
              source_broker dest_broker t) ;;
  put (broker_move_partition source_broker eligible_partition dest_broker t).

(** [_select_over_loaded_brokers] and [select_under_loaded_brokers] *)
Definition _select_over_loaded_brokers (t : ClusterTopology)
  (g : ReplicationGroup) (victim_partition : pname) : list broker_id :=
  Py.sorted_reverse (fun b => Py.len (partitions_of t b))
                    (holders t g victim_partition).

Definition select_under_loaded_brokers (t : ClusterTopology)
  (g : ReplicationGroup) (victim_partition : pname) : list broker_id :=
  Py.sorted (fun b => Py.len (partitions_of t b))
            (non_holders t g victim_partition).

(** [_elect_source_broker] and [_elect_dest_broker]: [max] and [min] over the
    pairs (broker, count of partitions of the victim's topic). *)
Definition _elect_source_broker (t : ClusterTopology)
  (over_loaded_brokers : list broker_id) (victim_partition : pname)
  : option broker_id :=
  let broker_topic_partition_cnt :=
    map (fun b => (b, count_partitions t b (fst victim_partition)))
        over_loaded_brokers in
  option_map fst (Py.max snd broker_topic_partition_cnt).

Definition _elect_dest_broker (t : ClusterTopology)
  (under_loaded_brokers : list broker_id) (victim_partition : pname)
  : option broker_id :=
  let broker_topic_partition_cnt :=
    map (fun b => (b, count_partitions t b (fst victim_partition)))
        under_loaded_brokers in
  option_map fst (Py.min snd broker_topic_partition_cnt).

Definition _select_broker_pair (g rg_destination : ReplicationGroup)
  (victim_partition : pname) : M (broker_id * broker_id) :=
  t <- get ;;
  let over_loaded_brokers := _select_over_loaded_brokers t g victim_partition in
  let under_loaded_brokers :=
    select_under_loaded_brokers t rg_destination victim_partition in
  match _elect_source_broker t over_loaded_brokers victim_partition with
  | None => raise ValueError
  | Some broker_source =>
      match _elect_dest_broker t under_loaded_brokers victim_partition with
      | None => raise ValueError
      | Some broker_destination => ret (broker_source, broker_destination)
      end
  end.

(** [move_partition] *)
Definition move_partition (g rg_destination : ReplicationGroup)
  (victim_partition : pname) : M unit :=
  pair <- _select_broker_pair g rg_destination victim_partition ;;
  let '(broker_source, broker_destination) := pair in
  t <- get ;;
  emit (Moved g rg_destination victim_partition
              broker_source broker_destination t) ;;
  put (broker_move_partition broker_source victim_partition broker_destination t).

(** ** PartitionCountBalancer (partition_count_balancer.py) *)

(** [self.args], with the defaults of [parse_args]. *)
Record Args := mkArgs {
  replication_groups : bool;
  arg_brokers : bool;
  leaders : bool;
  max_partition_movements : option Z;
  max_movement_size : option Z;
  max_leader_changes : option Z
}.

(** truth value of an optional integer: [None] and [0] are false *)
Definition truthy_opt (o : option Z) : bool :=
  match o with
  | None => false
  | Some n => negb (n =? 0)
  end.

(** [len(rg.partitions)] *)
Definition rg_load (t : ClusterTopology) (g : ReplicationGroup) : Z :=
  Py.len (rg_partitions t g).

(** The partitions the second pass may move from [over_loaded_rg] to
    [under_loaded_rg]: [set(filter(..., over_loaded_rg.partitions))].
    Python visits a set in an order of its own; [eligible_partitions]
    lists the set in the order in which the partitions first occur in
    [over_loaded_rg.partitions].  The lemmas on the moves of the second
    pass are proved of [move_eligible] for every list of partitions to
    visit, so they do not rest on this order. *)
Definition eligible (t : ClusterTopology) (over_loaded_rg under_loaded_rg : ReplicationGroup)
  (partition : pname) : bool :=
  (replication_factor t partition / Py.len (rgs t)
     <? count_replica t over_loaded_rg partition)
  && (count_replica t under_loaded_rg partition
        <=? replication_factor t partition / Py.len (rgs t)).

Definition eligible_partitions (t : ClusterTopology)
  (over_loaded_rg under_loaded_rg : ReplicationGroup) : list pname :=
  nodup pname_eq_dec
    (filter (eligible t over_loaded_rg under_loaded_rg)
            (rg_partitions t over_loaded_rg)).

(** [for eligible_partition in eligible_partitions: ...] (lines 314-328) *)
Fixpoint move_eligible (over_loaded_rg under_loaded_rg : ReplicationGroup)
  (opt_partition_cnt : Z) (todo : list pname) : M unit :=
  match todo with
  | [] => ret tt
  | eligible_partition :: rest =>
      t <- get ;;
      if 1 <? rg_load t over_loaded_rg - rg_load t under_loaded_rg then
        move_partition_replica over_loaded_rg under_loaded_rg eligible_partition ;;
        t' <- get ;;
        if (rg_load t' under_loaded_rg =? opt_partition_cnt)
           || (rg_load t' over_loaded_rg =? opt_partition_cnt)
        then ret tt
        else move_eligible over_loaded_rg under_loaded_rg opt_partition_cnt rest
      else ret tt
  end.

(** [for under_loaded_rg in under_loaded_rgs: ...] (lines 302-331) *)
Fixpoint balance_against (over_loaded_rg : ReplicationGroup)
  (opt_partition_cnt : Z) (under_loaded_rgs : list ReplicationGroup) : M unit :=
  match under_loaded_rgs with
  | [] => ret tt
  | under_loaded_rg :: rest =>
      t <- get ;;
      move_eligible over_loaded_rg under_loaded_rg opt_partition_cnt
        (eligible_partitions t over_loaded_rg under_loaded_rg) ;;
      t' <- get ;;
      if rg_load t' over_loaded_rg =? opt_partition_cnt then ret tt
      else balance_against over_loaded_rg opt_partition_cnt rest
  end.

Definition _rebalance_groups_partition_cnt : M unit :=
  t <- get ;;
  let total_elements := Py.sum (map (rg_load t) (rgs t)) in
  match separate_groups (rgs t) (rg_load t) total_elements with
  | None => raise ZeroDivisionError
  | Some (over_loaded_rgs, under_loaded_rgs) =>
      if Py.truthy over_loaded_rgs && Py.truthy under_loaded_rgs then
        match compute_optimum (Py.len (rgs t)) total_elements with
        | None => raise ZeroDivisionError
        | Some (opt_partition_cnt, _) =>
            for_each over_loaded_rgs
              (fun over_loaded_rg =>
                 balance_against over_loaded_rg opt_partition_cnt under_loaded_rgs)
        end
      else ret tt
  end.

(** *** add_replica *)

(** The groups a round of add_replica chooses among (lines 371-384): the
    under-replicated ones if any, else all that are not full.  [None] is
    the division by zero of compute_optimum. *)
Definition add_candidates (t : ClusterTopology) (partition : pname)
  (non_full_rgs : list ReplicationGroup) : option (list ReplicationGroup) :=
  let total_replicas :=
    Py.sum (map (fun rg => count_replica t rg partition) non_full_rgs) in
  match compute_optimum (Py.len non_full_rgs) total_replicas with
  | None => None
  | Some (opt_replicas, _) =>
      let under_replicated_rgs :=
        filter (fun rg => count_replica t rg partition <? opt_replicas)
               non_full_rgs in
      Some (Py.or_else under_replicated_rgs non_full_rgs)
  end.

(** The group a round adds to (line 385). *)
Definition add_choice (t : ClusterTopology) (partition : pname)
  (non_full_rgs : list ReplicationGroup) : outcome ReplicationGroup :=
  match add_candidates t partition non_full_rgs with
  | None => Raise ZeroDivisionError
  | Some candidate_rgs =>
      match Py.min (rg_load t) candidate_rgs with
      | None => Raise ValueError
      | Some rg => Return rg
      end
  end.

(** One round of [for _ in xrange(count)] (lines 371-390). *)
Definition add_replica_round (partition : pname)
  (non_full_rgs : list ReplicationGroup) : M (list ReplicationGroup) :=
  t <- get ;;
  match add_choice t partition non_full_rgs with
  | Raise e => raise e
  | SystemExit c => sys_exit c
  | Return rg =>
      rg_add_replica rg partition ;;
      t' <- get ;;
      if Py.len (rg_brokers rg) <=? count_replica t' rg partition
      then ret (rg_remove rg non_full_rgs)
      else ret non_full_rgs
  end.

Fixpoint add_replica_rounds (partition : pname) (count : nat)
  (non_full_rgs : list ReplicationGroup) : M unit :=
  match count with
  | O => ret tt
  | S count' =>
      non_full_rgs' <- add_replica_round partition non_full_rgs ;;
      add_replica_rounds partition count' non_full_rgs'
  end.

(** [count] is the number of rounds of [xrange(count)]: a natural number. *)
Definition add_replica (partition_name : pname) (count : nat) : M unit :=
  t <- get ;;
  match find_partition t partition_name with
  | None => raise InvalidPartitionError
  | Some partition =>
      if Py.len (brokers t) <? Py.len (p_replicas partition) + Z.of_nat count
      then raise InvalidReplicationFactorError
      else
        let non_full_rgs :=
          filter (fun rg => count_replica t rg partition_name
                            <? Py.len (rg_brokers rg)) (rgs t) in
        add_replica_rounds partition_name count non_full_rgs
  end.

(** *** remove_replica *)

(** The three local lists of [remove_replica] that a round reads and
    updates. *)
Record removal_state := mkRemoval {
  osr : list broker_id;
  rgs_with_osr : list ReplicationGroup;
  non_empty_rgs : list ReplicationGroup
}.

(** [osr = []; for broker_id in osr_broker_ids: ...] (lines 428-435) *)
Fixpoint collect_osr (t : ClusterTopology) (osr_broker_ids : list broker_id)
  : option (list broker_id) :=
  match osr_broker_ids with
  | [] => Some []
  | broker_id :: rest =>
      match find_broker t broker_id with
      | None => None
      | Some b =>
          match collect_osr t rest with
          | None => None
          | Some l => Some (b_id b :: l)
          end
      end
  end.

(** The lists before the first round (lines 437-446). *)
Definition removal_init (t : ClusterTopology) (partition : pname)
  (osr0 : list broker_id) : removal_state :=
  let non_empty :=
    filter (fun rg => 0 <? count_replica t rg partition) (rgs t) in
  mkRemoval osr0
    (filter (fun rg => existsb (fun b => id_in b osr0) (rg_brokers rg)) non_empty)
    non_empty.

(** The groups a round of remove_replica chooses among (lines 449-463). *)
Definition removal_candidates (t : ClusterTopology) (partition : pname)
  (st : removal_state) : option (list ReplicationGroup) :=
  let candidate_rgs := Py.or_else (rgs_with_osr st) (non_empty_rgs st) in
  let total_replicas :=
    Py.sum (map (fun rg => count_replica t rg partition) candidate_rgs) in
  match compute_optimum (Py.len candidate_rgs) total_replicas with
  | None => None
  | Some (opt_replica_cnt, _) =>
      let over_replicated_rgs :=
        filter (fun rg => opt_replica_cnt <? count_replica t rg partition)
               candidate_rgs in
      Some (Py.or_else over_replicated_rgs candidate_rgs)
  end.

(** The group a round removes from (line 464). *)
Definition removal_choice (t : ClusterTopology) (partition : pname)
  (st : removal_state) : outcome ReplicationGroup :=
  match removal_candidates t partition st with
  | None => Raise ZeroDivisionError
  | Some candidate_rgs =>
      match Py.max (rg_load t) candidate_rgs with
      | None => Raise ValueError
      | Some rg => Return rg
      end
  end.

(** One round of [for _ in xrange(count)] (lines 449-473). *)
Definition remove_replica_round (partition : pname) (st : removal_state)
  : M removal_state :=
  t <- get ;;
  match removal_choice t partition st with
  | Raise e => raise e
  | SystemExit c => sys_exit c
  | Return rg =>
      let osr_in_rg := filter (fun b => id_in b (osr st)) (rg_brokers rg) in
      rg_remove_replica rg partition osr_in_rg ;;
      t' <- get ;;
      let osr' := filter (fun b => id_in b (replicas_of t' partition)) (osr st) in
      let rgs_with_osr' :=
        if rg_in rg (rgs_with_osr st) && (Py.len osr_in_rg =? 1)
        then rg_remove rg (rgs_with_osr st) else rgs_with_osr st in
      let non_empty_rgs' :=
        if count_replica t' rg partition =? 0
        then rg_remove rg (non_empty_rgs st) else non_empty_rgs st in
      ret (mkRemoval osr' rgs_with_osr' non_empty_rgs')
  end.

Fixpoint remove_replica_rounds (partition : pname) (count : nat)
  (st : removal_state) : M removal_state :=
  match count with
  | O => ret st
  | S count' =>
      st' <- remove_replica_round partition st ;;
      remove_replica_rounds partition count' st'
  end.

Definition remove_replica (partition_name : pname)
  (osr_broker_ids : list broker_id) (count : nat) : M unit :=
  t <- get ;;
  match find_partition t partition_name with
  | None => raise InvalidPartitionError
  | Some partition =>
      if Py.len (p_replicas partition) <=? Z.of_nat count
      then raise InvalidReplicationFactorError
      else
        match collect_osr t osr_broker_ids with
        | None => raise InvalidBrokerIdError
        | Some osr0 =>
            remove_replica_rounds partition_name count
              (removal_init t partition_name osr0) ;;
            t' <- get ;;
            match Py.min (count_preferred_replica t')
                         (replicas_of t' partition_name) with
            | None => raise ValueError
            | Some new_leader => put (swap_leader partition_name new_leader t')
            end
        end
  end.

(** *** Operations that call into code outside the given sources

    [ReplicationGroup.rebalance_brokers] rests on methods of Broker and of
    util (get_preferred_partition, count_siblings) and
    [ReplicationGroup.acquire_partition], [ClusterBalancer.rebalance_replicas],
    [Broker.request_leadership] and [Broker.donate_leadership] are not in
    the given sources; the operations below take them as parameters.  The
    two leadership searches change the topology and the two lists they are
    handed, which the caller shares between the calls. *)

Section Collaborators.
Variable rg_rebalance_brokers : ReplicationGroup -> M unit.
Variable acquire_partition : ReplicationGroup -> pname -> broker_id -> M unit.
Variable rebalance_replicas : M unit.
Variable edge : Type.
Variable request_leadership :
  broker_id -> Z -> list broker_id -> list pname -> ClusterTopology ->
  list broker_id * list pname * ClusterTopology.
Variable donate_leadership :
  broker_id -> Z -> list broker_id -> list edge -> ClusterTopology ->
  list broker_id * list edge * ClusterTopology.

(** [for group in groups: try: group.acquire_partition(...); break
     except NotEligibleGroupError: pass] (lines 127-139) *)
Fixpoint try_groups (groups : list ReplicationGroup) (partition : pname)
  (broker : broker_id) : M unit :=
  match groups with
  | [] => ret tt
  | group :: rest =>
      acquired <- attempt (acquire_partition group partition broker)
                          NotEligibleGroupError ;;
      if acquired then ret tt else try_groups rest partition broker
  end.

Definition _force_broker_decommission (broker : Broker) : M unit :=
  t <- get ;;
  let available_groups :=
    filter (fun rg => negb (String.eqb (rg_ident rg) (b_replication_group broker)))
           (rgs t) in
  for_each (partitions_of t (b_id broker))
    (fun partition =>
       t' <- get ;;
       let groups :=
         Py.sorted (fun x => count_replica t' x partition) available_groups in
       try_groups groups partition (b_id broker)).

Definition _decommission_brokers_in_group (group : ReplicationGroup) : M unit :=
  attempt (rg_rebalance_brokers group) EmptyReplicationGroupError ;;
  for_each (rg_brokers group)
    (fun id =>
       t <- get ;;
       match find_broker t id with
       | None => ret tt
       | Some broker =>
           if b_decommissioned broker && negb (broker_empty t id) then
             _force_broker_decommission broker ;;
             t' <- get ;;
             if negb (broker_empty t' id) then raise BrokerDecommissionError
             else ret tt
           else ret tt
       end).

(** [groups.add(broker.replication_group)] *)
Definition groups_add (t : ClusterTopology) (id : rg_id)
  (groups : list ReplicationGroup) : list ReplicationGroup :=
  match find_rg t id with
  | None => groups
  | Some g => if rg_in g groups then groups else groups ++ [g]
  end.

(** [for b_id in broker_ids: ...] (lines 70-81) *)
Fixpoint mark_brokers (broker_ids : list broker_id)
  (groups : list ReplicationGroup) : M (list ReplicationGroup) :=
  match broker_ids with
  | [] => ret groups
  | id :: rest =>
      t <- get ;;
      match find_broker t id with
      | None => raise InvalidBrokerIdError
      | Some broker =>
          put (mark_decommissioned id t) ;;
          mark_brokers rest (groups_add t (b_replication_group broker) groups)
      end
  end.

Definition decommission_brokers (broker_ids : list broker_id) : M unit :=
  groups <- mark_brokers broker_ids [] ;;
  for_each groups _decommission_brokers_in_group.

(** *** rebalance *)

Definition rebalance_replication_groups : M unit :=
  t <- get ;;
  if existsb b_inactive (brokers t) then raise RebalanceError
  else rebalance_replicas ;; _rebalance_groups_partition_cnt.

Definition rebalance_brokers : M unit :=
  t <- get ;;
  for_each (rgs t) rg_rebalance_brokers.

(** [under_brokers] and [over_brokers] of [rebalancing_non_followers] *)
Definition under_brokers (t : ClusterTopology) (opt_cnt : Z) : list broker_id :=
  map b_id (filter (fun b => count_preferred_replica t (b_id b) <? opt_cnt)
                   (brokers t)).

Definition over_brokers (t : ClusterTopology) (opt_cnt : Z) : list broker_id :=
  map b_id (filter (fun b => opt_cnt + 1 <? count_preferred_replica t (b_id b))
                   (brokers t)).

(** [for broker in under_brokers: skip_brokers.append(broker);
     broker.request_leadership(opt_cnt, skip_brokers, skip_partitions)] *)
Fixpoint pull_phase (opt_cnt : Z) (todo : list broker_id)
  (skip_brokers : list broker_id) (skip_partitions : list pname) : M unit :=
  match todo with
  | [] => ret tt
  | broker :: rest =>
      emit (RequestLeadership broker opt_cnt) ;;
      t <- get ;;
      let '(skip_brokers', skip_partitions', t') :=
        request_leadership broker opt_cnt (skip_brokers ++ [broker])
                           skip_partitions t in
      put t' ;;
      pull_phase opt_cnt rest skip_brokers' skip_partitions'
  end.

(** [for broker in over_brokers: skip_brokers.append(broker);
     broker.donate_leadership(opt_cnt, skip_brokers, used_edges)] *)
Fixpoint push_phase (opt_cnt : Z) (todo : list broker_id)
  (skip_brokers : list broker_id) (used_edges : list edge) : M unit :=
  match todo with
  | [] => ret tt
  | broker :: rest =>
      emit (DonateLeadership broker opt_cnt) ;;
      t <- get ;;
      let '(skip_brokers', used_edges', t') :=
        donate_leadership broker opt_cnt (skip_brokers ++ [broker])
                          used_edges t in
      put t' ;;
      push_phase opt_cnt rest skip_brokers' used_edges'
  end.

Definition rebalancing_non_followers (opt_cnt : Z) : M unit :=
  t <- get ;;
  pull_phase opt_cnt (under_brokers t opt_cnt) [] [] ;;
  t' <- get ;;
  push_phase opt_cnt (over_brokers t' opt_cnt) [] [].

Definition rebalance_leaders : M unit :=
  t <- get ;;
  if Py.len (brokers t) =? 0 then raise ZeroDivisionError
  else rebalancing_non_followers (Py.len (partitions t) / Py.len (brokers t)).

Definition rebalance (args : Args) : M unit :=
  if truthy_opt (max_movement_size args) then sys_exit 1
  else
    (if replication_groups args then rebalance_replication_groups else ret tt) ;;
    (if arg_brokers args then rebalance_brokers else ret tt) ;;
    (if leaders args then rebalance_leaders else ret tt).

End Collaborators.

(** ** ReplicationGroup: balance of the brokers of one group (rg.py)

    [sibling_info] is a [defaultdict(dict)]: partition -> broker -> count.
    Reading [sibling_info[p][b]] raises KeyError exactly when no count was
    stored for the pair, so the two levels are kept as one list of
    ((partition, broker), count) entries. *)

Definition sibling_info := list (pname * broker_id * Z).

Fixpoint sib_get (info : sibling_info) (p : pname) (b : broker_id) : option Z :=
  match info with
  | [] => None
  | (p', b', v) :: rest =>
      if pname_eqb p' p && (b' =? b) then Some v else sib_get rest p b
  end.

(** [sibling_info[p][b] = v] *)
Fixpoint sib_set (info : sibling_info) (p : pname) (b : broker_id) (v : Z)
  : sibling_info :=
  match info with
  | [] => [(p, b, v)]
  | (p', b', v') :: rest =>
      if pname_eqb p' p && (b' =? b) then (p, b, v) :: rest
      else (p', b', v') :: sib_set rest p b v
  end.

(** Modelled from the spec: Partition.count_siblings, the count of the
    partitions of a collection that have the topic of the partition (the
    glossary's siblings; rg.py: any partition with same topic). *)
Definition count_siblings (p : pname) (parts : list pname) : Z :=
  Py.len (filter (fun q => String.eqb (fst q) (fst p)) parts).

(** Modelled from the spec: Topic.partitions, the partitions of a topic
    (section 3). *)
Definition topic_partitions (t : ClusterTopology) (topic : string) : list pname :=
  map p_name (filter (fun p => String.eqb (fst (p_name p)) topic) (partitions t)).

(** [broker.decommissioned] of the broker named [id] *)
Definition is_decommissioned (t : ClusterTopology) (id : broker_id) : bool :=
  match find_broker t id with
  | Some b => b_decommissioned b
  | None => false
  end.

(** [partitions_sib_info] *)
Definition partitions_sib_info (t : ClusterTopology)
  (over_loaded_brokers under_loaded_brokers : list broker_id) : sibling_info :=
  fold_left
    (fun sib_count source_b =>
       fold_left
         (fun sib_count partition_s =>
            fold_left
              (fun sib_count dest_b =>
                 sib_set sib_count partition_s dest_b
                   (count_siblings partition_s (partitions_of t dest_b)))
              under_loaded_brokers sib_count)
         (partitions_of t source_b) sib_count)
    over_loaded_brokers [].

(** [update_sibling_info(sibling_info, broker, partition)].  The caller
    passes [target[1]] and [target[2]], which are None together: the pair
    is one optional value. *)
Definition update_sibling_info (t : ClusterTopology) (info : sibling_info)
  (moved : option (broker_id * pname)) : sibling_info :=
  match moved with
  | None => info
  | Some (broker, partition) =>
      fold_left
        (fun info sibling =>
           match sib_get info sibling broker with
           | Some v => sib_set info sibling broker (v + 1)
           | None => sib_set info sibling broker 1
           end)
        (nodup pname_eq_dec (topic_partitions t (fst partition))) info
  end.

(** [_extract_decommissioned] *)
Definition _extract_decommissioned (t : ClusterTopology) (g : ReplicationGroup)
  : list broker_id :=
  nodup Z.eq_dec (filter (is_decommissioned t) (rg_brokers g)).

(** The built-in errors that can leave _get_target_brokers; they are not
    errors of the planner. *)
Inductive lookup_error := KeyError | AssertionError.

(** [target] and [min_sibling_partition_cnt] of _get_target_brokers *)
Record search := mkSearch {
  target : option (broker_id * broker_id * pname);
  min_sibling_partition_cnt : Z
}.

(** How a run of rebalance_brokers ends when no planner error is raised:
    the loop is left, a built-in error goes through, or the model's count
    of loop rounds is used up. *)
Inductive loop_end := Finished | Propagated (e : lookup_error) | OutOfFuel.

Section BrokerBalance.
(** [Broker.get_preferred_partition] is not in the given sources. *)
Variable get_preferred_partition :
  ClusterTopology -> broker_id -> broker_id -> sibling_info -> option pname.

(** [for dest in under_loaded_brokers: ...] (lines 271-293) *)
Fixpoint scan_dests (t : ClusterTopology) (info : sibling_info)
  (source : broker_id) (dests : list broker_id) (s : search)
  : lookup_error + search :=
  match dests with
  | [] => inr s
  | dest :: rest =>
      if (1 <? Py.len (partitions_of t source) - Py.len (partitions_of t dest))
         || is_decommissioned t source
      then
        match get_preferred_partition t source dest info with
        | None => scan_dests t info source rest s
        | Some best_fit_partition =>
            match sib_get info best_fit_partition dest with
            | None => inl KeyError
            | Some sibling_cnt =>
                if sibling_cnt <? 0 then inl AssertionError
                else if (sibling_cnt <? min_sibling_partition_cnt s)
                        || (min_sibling_partition_cnt s =? -1)
                then
                  let s' := mkSearch (Some (source, dest, best_fit_partition))
                                     sibling_cnt in
                  if sibling_cnt =? 0 then inr s'
                  else scan_dests t info source rest s'
                else scan_dests t info source rest s
            end
        end
      else inr s
  end.

(** [for source in over_loaded_brokers: ...] (lines 270-293) *)
Fixpoint scan_sources (t : ClusterTopology) (info : sibling_info)
  (sources dests : list broker_id) (s : search) : lookup_error + search :=
  match sources with
  | [] => inr s
  | source :: rest =>
      match scan_dests t info source dests s with
      | inl e => inl e
      | inr s' => scan_sources t info rest dests s'
      end
  end.

Definition _get_target_brokers (t : ClusterTopology)
  (over_loaded_brokers under_loaded_brokers : list broker_id)
  (info : sibling_info)
  : lookup_error + (option (broker_id * broker_id * pname) * sibling_info) :=
  let over_loaded_brokers :=
    Py.sorted_reverse (fun b => Py.len (partitions_of t b)) over_loaded_brokers in
  let under_loaded_brokers :=
    Py.sorted (fun b => Py.len (partitions_of t b)) under_loaded_brokers in
  match scan_sources t info over_loaded_brokers under_loaded_brokers
          (mkSearch None (-1)) with
  | inl e => inl e
  | inr s =>
      inr (target s,
           update_sibling_info t info
             (option_map (fun x => (snd (fst x), snd x)) (target s)))
  end.

(** [separate_groups(active_brokers, ...)] followed by
    [over_loaded_brokers += [b for b in blacklist if not b.empty()]] *)
Definition split_brokers (t : ClusterTopology)
  (active_brokers blacklist : list broker_id) (total_partitions : Z)
  : option (list broker_id * list broker_id) :=
  match separate_groups active_brokers
          (fun b => Py.len (partitions_of t b)) total_partitions with
  | None => None
  | Some (over_loaded_brokers, under_loaded_brokers) =>
      Some (over_loaded_brokers
              ++ filter (fun b => negb (broker_empty t b)) blacklist,
            under_loaded_brokers)
  end.

(** [while under_loaded_brokers and over_loaded_brokers: ...] (lines
    222-249); [fuel] bounds the rounds. *)
Fixpoint rebalance_brokers_loop (fuel : nat) (g : ReplicationGroup)
  (active_brokers blacklist : list broker_id) (total_partitions : Z)
  (over_loaded_brokers under_loaded_brokers : list broker_id)
  (info : sibling_info) : M loop_end :=
  match fuel with
  | O => ret OutOfFuel
  | S fuel' =>
      if Py.truthy under_loaded_brokers && Py.truthy over_loaded_brokers then
        t <- get ;;
        match _get_target_brokers t over_loaded_brokers under_loaded_brokers
                info with
        | inl e => ret (Propagated e)
        | inr (None, _) => ret Finished
        | inr (Some (broker_source, broker_destination, victim_partition),
               info') =>
            emit (Moved g g victim_partition broker_source broker_destination t) ;;
            put (broker_move_partition broker_source victim_partition
                                       broker_destination t) ;;
            t' <- get ;;
            match split_brokers t' active_brokers blacklist total_partitions with
            | None => raise ZeroDivisionError
            | Some (over', under') =>
                rebalance_brokers_loop fuel' g active_brokers blacklist
                  total_partitions over' under' info'
            end
        end
      else ret Finished
  end.

(** [ReplicationGroup.rebalance_brokers] *)
Definition rg_rebalance_brokers_run (fuel : nat) (g : ReplicationGroup)
  : M loop_end :=
  t <- get ;;
  let total_partitions :=
    Py.sum (map (fun b => Py.len (partitions_of t b)) (rg_brokers g)) in
  let blacklist := _extract_decommissioned t g in
  let active_brokers :=
    filter (fun b => negb (id_in b blacklist)) (rg_brokers g) in
  match split_brokers t active_brokers blacklist total_partitions with
  | None => raise ZeroDivisionError
  | Some (over_loaded_brokers, under_loaded_brokers) =>
      if negb (Py.truthy over_loaded_brokers)
         && negb (Py.truthy under_loaded_brokers)
      then ret Finished
      else
        rebalance_brokers_loop fuel g active_brokers blacklist total_partitions
          over_loaded_brokers under_loaded_brokers
          (partitions_sib_info t over_loaded_brokers under_loaded_brokers)
  end.
End BrokerBalance.

(** ** Utilities (yelp_kafka_tool/util/__init__.py) *)

Section Dicts.
Variables K V : Type.
Variable K_eq_dec : forall a b : K, {a = b} + {a <> b}.

(** A dict is the list of its items, one per key; [d[k]] and
    [d[k] = v]. *)
Fixpoint dict_get (d : list (K * V)) (k : K) : option V :=
  match d with
  | [] => None
  | (k', v) :: rest => if K_eq_dec k' k then Some v else dict_get rest k
  end.

Fixpoint dict_set (d : list (K * V)) (k : K) (v : V) : list (K * V) :=
  match d with
  | [] => [(k, v)]
  | (k', v') :: rest =>
      if K_eq_dec k' k then (k, v) :: rest else (k', v') :: dict_set rest k v
  end.

(** [dict(pairs)]: the pairs are stored one after the other. *)
Definition dict_of_pairs (pairs : list (K * V)) : list (K * V) :=
  fold_left (fun d kv => dict_set d (fst kv) (snd kv)) pairs [].

(** [dict_merge]: [dict(set1.items() + set2.items())] *)
Definition dict_merge (set1 set2 : list (K * V)) : list (K * V) :=
  dict_of_pairs (set1 ++ set2).
End Dicts.

(** [itertools.groupby(l, key)]: the runs of consecutive items with equal
    keys, each with its key. *)
Fixpoint groupby {A} (key : A -> Z) (l : list A) : list (Z * list A) :=
  match l with
  | [] => []
  | x :: l' =>
      match groupby key l' with
      | (k, g) :: rest =>
          if key x =? k then (k, x :: g) :: rest
          else (key x, [x]) :: (k, g) :: rest
      | [] => [(key x, [x])]
      end
  end.

(** [groupsortby]: [groupby(sorted(data, key=key), key)] *)
Definition groupsortby {A} (data : list A) (key : A -> Z) : list (Z * list A) :=
  groupby key (Py.sorted key data).

(** the items that have the key [k] *)
Definition with_key {A} (key : A -> Z) (k : Z) (x : A) : bool := key x =? k.

(** [gs] groups the items of [l] by key: the keys increase, each group is
    not empty and lists the items of [l] with its key, in their order, and
    every key of [l] has its group. *)
Definition groups_of {A} (key : A -> Z) (l : list A) (gs : list (Z * list A)) : Prop :=
  StronglySorted Z.lt (map fst gs)
  /\ (forall k items, In (k, items) gs ->
        items <> [] /\ items = filter (with_key key k) l)
  /\ (forall x, In x l -> In (key x) (map fst gs)).

(** ** Example clusters *)

Local Open Scope string_scope.
Local Open Scope Z_scope.
Local Open Scope list_scope.

(** Two groups of two brokers; one partition with a replica in each group. *)
Definition cluster_two_groups : ClusterTopology :=
  mkCT [mkBroker 1 "rg1" false false [("t", 0)];
        mkBroker 2 "rg1" false false [];
        mkBroker 3 "rg2" false false [("t", 0); ("u", 0)];
        mkBroker 4 "rg2" false false [("u", 1)]]
       [mkRG "rg1" [1; 2]; mkRG "rg2" [3; 4]]
       [mkPartition ("t", 0) [1; 3];
        mkPartition ("u", 0) [3];
        mkPartition ("u", 1) [4]].

(** Three brokers, the third decommissioned; one partition on the first
    two. *)
Definition cluster_one_decommissioned : ClusterTopology :=
  mkCT [mkBroker 1 "rg1" false false [("t", 0)];
        mkBroker 2 "rg2" false false [("t", 0)];
        mkBroker 3 "rg2" false true []]
       [mkRG "rg1" [1]; mkRG "rg2" [2; 3]]
       [mkPartition ("t", 0) [1; 2]].

(** [--max-movement-size 1024] *)
Definition args_with_movement_size : Args :=
  mkArgs true true true None (Some 1024) None.

(** Collaborators that do nothing, to run the operations on the examples. *)
Definition idle_group : ReplicationGroup -> M unit := fun _ => ret tt.
Definition idle_acquire : ReplicationGroup -> pname -> broker_id -> M unit :=
  fun _ _ _ => raise NotEligibleGroupError.
Definition idle_pass : M unit := ret tt.
Definition idle_request (b : broker_id) (opt : Z) (skip_brokers : list broker_id)
  (skip_partitions : list pname) (t : ClusterTopology)
  : list broker_id * list pname * ClusterTopology :=
  (skip_brokers, skip_partitions, t).
Definition idle_donate (b : broker_id) (opt : Z) (skip_brokers : list broker_id)
  (used_edges : list (pname * broker_id)) (t : ClusterTopology)
  : list broker_id * list (pname * broker_id) * ClusterTopology :=
  (skip_brokers, used_edges, t).

(** The brokers that are neither inactive nor decommissioned. *)
Definition active_brokers (t : ClusterTopology) : list Broker :=
  filter (fun b => negb (b_inactive b) && negb (b_decommissioned b)) (brokers t).

(** The broker with the flag [decommissioned] set. *)
Definition decommissioned_version (b : Broker) : Broker :=
  mkBroker (b_id b) (b_replication_group b) (b_inactive b) true (b_partitions b).

(** Group rg1 carries five replicas, group rg2 one; partition (t, 0) has
    three replicas, two in rg1 and one on the only broker of rg2. *)
Definition cluster_full_destination : ClusterTopology :=
  mkCT [mkBroker 1 "rg1" false false [("t", 0)];
        mkBroker 2 "rg1" false false [("t", 0); ("t", 1); ("t", 2); ("t", 3)];
        mkBroker 3 "rg2" false false [("t", 0)]]
       [mkRG "rg1" [1; 2]; mkRG "rg2" [3]]
       [mkPartition ("t", 0) [1; 2; 3]; mkPartition ("t", 1) [2];
        mkPartition ("t", 2) [2]; mkPartition ("t", 3) [2]].




(** Two groups with one replica of (t, 0) each and equal loads; the second
    cluster holds the same brokers, groups and partitions, its dict of
    groups iterating in the other order. *)
Definition cluster_tie : ClusterTopology :=
  mkCT [mkBroker 1 "rg1" false false [("t", 0)];
        mkBroker 2 "rg1" false false [];
        mkBroker 3 "rg2" false false [("t", 0)];
        mkBroker 4 "rg2" false false []]
       [mkRG "rg1" [1; 2]; mkRG "rg2" [3; 4]]
       [mkPartition ("t", 0) [1; 3]].


(** The plan: the replica list of every partition. *)
Definition plan (t : ClusterTopology) : list (pname * list broker_id) :=
  map (fun p => (p_name p, p_replicas p)) (partitions t).

(** The invariants of section 3 of the specification that the rounds of
    remove_replica rely on, for the partition they work on: group ids are
    keys, a group's brokers are a set, every broker belongs to one group,
    the replica list holds distinct brokers, and a broker is in the list
    exactly when the partition is among the broker's partitions. *)
Record well_formed (t : ClusterTopology) (partition : pname) : Prop := {
  wf_group_ids : NoDup (map rg_ident (rgs t));
  wf_group_brokers : forall g, In g (rgs t) -> NoDup (rg_brokers g);
  wf_one_group :
    forall g1 g2 b, In g1 (rgs t) -> In g2 (rgs t) ->
                    In b (rg_brokers g1) -> In b (rg_brokers g2) -> g1 = g2;
  wf_replicas :
    forall b, In b (replicas_of t partition) <->
              In partition (partitions_of t b);
  wf_replicas_distinct : NoDup (replicas_of t partition);
  wf_replicas_grouped :
    forall b, In b (replicas_of t partition) ->
              exists g, In g (rgs t) /\ In b (rg_brokers g)
}.

(** The out-of-sync replicas as the specification words them (section
    4.3.5): the brokers of out_of_sync_ids that replicate the partition. *)
Definition osr_replicas (t : ClusterTopology) (partition : pname)
  (out_of_sync_ids : list broker_id) : list broker_id :=
  filter (fun b => id_in b (replicas_of t partition)) out_of_sync_ids.

(** The lists of a round as the claim words them: [osr] is the out-of-sync
    replicas, [non_empty_rgs] the groups that hold the partition and
    [rgs_with_osr] those of them with an out-of-sync replica. *)
Definition lists_as_claimed (t : ClusterTopology) (partition : pname)
  (out_of_sync_ids : list broker_id) (st : removal_state) : Prop :=
  osr st = osr_replicas t partition out_of_sync_ids /\
  (forall g, In g (non_empty_rgs st) <->
             In g (rgs t) /\ 0 < count_replica t g partition) /\
  (forall g, In g (rgs_with_osr st) <->
             In g (rgs t) /\ 0 < count_replica t g partition /\
             exists b, In b (rg_brokers g) /\
                       In b (osr_replicas t partition out_of_sync_ids)).

(** What a round of remove_replica keeps: the lists are as claimed and
    name no group twice. *)
Definition round_invariant (t : ClusterTopology) (partition : pname)
  (out_of_sync_ids : list broker_id) (st : removal_state) : Prop :=
  lists_as_claimed t partition out_of_sync_ids st /\
  NoDup (non_empty_rgs st) /\
  NoDup (rgs_with_osr st).

(** What every move of the second pass satisfies when it is made: it goes
    from a group of [over_loaded_rgs] to a group of [under_loaded_rgs], the
    source broker is one of the first group and holds the partition, the
    destination broker is one of the second group and does not hold it. *)
Definition well_placed (over_loaded_rgs under_loaded_rgs : list ReplicationGroup)
  (e : event) : Prop :=
  match e with
  | Moved from_rg to_rg partition source dest before =>
      In from_rg over_loaded_rgs /\ In to_rg under_loaded_rgs /\
      In source (rg_brokers from_rg) /\
      In partition (partitions_of before source) /\
      In dest (rg_brokers to_rg) /\
      ~ In partition (partitions_of before dest)
  | _ => False
  end.

(** Broker 1 is decommissioned and still holds a partition; broker 3 is
    inactive. *)
Definition cluster_stuck : ClusterTopology :=
  mkCT [mkBroker 1 "rg1" false true [("t", 0)];
        mkBroker 2 "rg2" false false [("t", 0)];
        mkBroker 3 "rg2" true false []]
       [mkRG "rg1" [1]; mkRG "rg2" [2; 3]]
       [mkPartition ("t", 0) [1; 2]].

(** [--replication-groups --brokers --leaders] *)
Definition args_all_passes : Args :=
  mkArgs true true true None None None.

(** The topology with the brokers named by [ids] marked decommissioned. *)
Definition marked (ids : list broker_id) (t : ClusterTopology) : ClusterTopology :=
  mkCT (map (fun b => if id_in (b_id b) ids then decommissioned_version b else b)
            (brokers t))
       (rgs t) (partitions t).

(** One group of two brokers, all four partitions on the first. *)
Definition cluster_one_group : ClusterTopology :=
  mkCT [mkBroker 1 "rg1" false false [("t", 0); ("t", 1); ("t", 2); ("t", 3)];
        mkBroker 2 "rg1" false false []]
       [mkRG "rg1" [1; 2]]
       [mkPartition ("t", 0) [1]; mkPartition ("t", 1) [1];
        mkPartition ("t", 2) [1]; mkPartition ("t", 3) [1]].

(** Modelled from the spec: Broker.get_preferred_partition (section 4.2.1,
    step 6), to run the broker rebalance on the examples: of the partitions
    held by the source and not by the destination, one with the fewest
    siblings on the destination according to the cache, the first such in
    iteration order. *)
Definition preferred_partition (t : ClusterTopology) (source dest : broker_id)
  (info : sibling_info) : option pname :=
  Py.min (fun p => match sib_get info p dest with Some c => c | None => 0 end)
         (filter (fun p => negb (pname_in p (partitions_of t dest)))
                 (partitions_of t source)).

(** What every move of rebalance_brokers satisfies: it stays inside the
    group, its destination was not decommissioned when the rebalance
    began, and its source had more than one partition more than the
    destination or was decommissioned. *)
Definition within_group (g : ReplicationGroup) (t0 : ClusterTopology)
  (e : event) : Prop :=
  match e with
  | Moved from_rg to_rg _ source dest before =>
      from_rg = g /\ to_rg = g /\
      In source (rg_brokers g) /\ In dest (rg_brokers g) /\
      is_decommissioned t0 dest = false /\
      (1 < Py.len (partitions_of before source)
           - Py.len (partitions_of before dest)
       \/ is_decommissioned before source = true)
  | _ => False
  end.

(** The calls of one phase of the leadership rebalance, written as a fold:
    the brokers of [todo] are taken in order, each is appended to the list
    of brokers to skip and then searches, and the two lists and the
    topology that one search leaves are what the next one is handed. *)
Definition searches {edge : Type}
  (search :
     broker_id -> Z -> list broker_id -> list edge -> ClusterTopology ->
     list broker_id * list edge * ClusterTopology)
  (opt_cnt : Z) (todo : list broker_id) (t : ClusterTopology)
  : list broker_id * list edge * ClusterTopology :=
  fold_left (fun st broker =>
               let '(skip_brokers, used, u) := st in
               search broker opt_cnt (skip_brokers ++ [broker]) used u)
            todo ([], [], t).

(** A search that takes the lead of one partition: the first partition of
    the broker that it does not lead and that no search used before. *)
Definition taking_request (b : broker_id) (opt : Z) (skip_brokers : list broker_id)
  (skip_partitions : list pname) (t : ClusterTopology)
  : list broker_id * list pname * ClusterTopology :=
  match filter (fun n => negb (is_leader t b n) && negb (pname_in n skip_partitions))
               (partitions_of t b) with
  | n :: _ => (skip_brokers, skip_partitions ++ [n], swap_leader n b t)
  | [] => (skip_brokers, skip_partitions, t)
  end.

(** A search that gives the lead of one partition away: the first partition
    the broker leads goes to its first follower. *)
Definition giving_donate (b : broker_id) (opt : Z) (skip_brokers : list broker_id)
  (used_edges : list (pname * broker_id)) (t : ClusterTopology)
  : list broker_id * list (pname * broker_id) * ClusterTopology :=
  match filter (is_leader t b) (partitions_of t b) with
  | n :: _ =>
      match replicas_of t n with
      | _ :: follower :: _ =>
          (skip_brokers, used_edges ++ [(n, follower)], swap_leader n follower t)
      | _ => (skip_brokers, used_edges, t)
      end
  | [] => (skip_brokers, used_edges, t)
  end.

(** Two brokers and five partitions, all led by broker 1. *)
Definition cluster_five_leads : ClusterTopology :=
  mkCT [mkBroker 1 "rg1" false false
          [("t", 0); ("t", 1); ("t", 2); ("t", 3); ("t", 4)];
        mkBroker 2 "rg2" false false
          [("t", 0); ("t", 1); ("t", 2); ("t", 3); ("t", 4)]]
       [mkRG "rg1" [1]; mkRG "rg2" [2]]
       [mkPartition ("t", 0) [1; 2]; mkPartition ("t", 1) [1; 2];
        mkPartition ("t", 2) [1; 2]; mkPartition ("t", 3) [1; 2];
        mkPartition ("t", 4) [1; 2]].

(** The groups collected so far are groups of the topology, found by
    their ids. *)
Definition collected (t : ClusterTopology) (groups : list ReplicationGroup) : Prop :=
  forall g, In g groups -> find_rg t (rg_ident g) = Some g.

(** ** Properties *)

(** *** ReplicationGroup.add_broker *)

Lemma id_in_In b l : id_in b l = true <-> In b l.
Proof.
  unfold id_in. rewrite existsb_exists. split.
  - intros (x & Hx & Heq). apply Z.eqb_eq in Heq. now subst.
  - intros H. exists b. split; [assumption | apply Z.eqb_refl].
Qed.

(** C10: add_broker on a member leaves the broker set as it is, and a
    second add_broker of the same broker changes nothing. *)
Theorem add_broker_idempotent (g : ReplicationGroup) (b : broker_id) :
  add_broker (add_broker g b) b = add_broker g b /\
  (In b (rg_brokers g) -> add_broker g b = g).
Proof.
  assert (Hmem : In b (rg_brokers g) -> add_broker g b = g).
  { intros H. unfold add_broker. apply id_in_In in H. now rewrite H. }
  split; [| exact Hmem].
  unfold add_broker at 2 3.
  destruct (id_in b (rg_brokers g)) eqn:E; simpl.
  - apply Hmem. now apply id_in_In.
  - unfold add_broker. simpl.
    assert (H : id_in b (rg_brokers g ++ [b]) = true).
    { apply id_in_In, in_or_app. right. now left. }
    now rewrite H.
Qed.

Lemma add_broker_idempotent_witness :
  add_broker (add_broker (mkRG "rg1" [1; 2]) 2) 2 = add_broker (mkRG "rg1" [1; 2]) 2 /\
  add_broker (mkRG "rg1" [1; 2]) 2 = mkRG "rg1" [1; 2].
Proof.
  destruct (add_broker_idempotent (mkRG "rg1" [1; 2]) 2) as [H1 H2].
  split; [exact H1 | apply H2; simpl; auto].
Defined.

(** *** rebalance and the option max_movement_size *)

Section RebalanceOption.
Variable rg_rebalance_brokers : ReplicationGroup -> M unit.
Variable rebalance_replicas : M unit.
Variable edge : Type.
Variable request_leadership :
  broker_id -> Z -> list broker_id -> list pname -> ClusterTopology ->
  list broker_id * list pname * ClusterTopology.
Variable donate_leadership :
  broker_id -> Z -> list broker_id -> list edge -> ClusterTopology ->
  list broker_id * list edge * ClusterTopology.

(** C3, amended: with max_movement_size set to a non-zero value,
    rebalance leaves through sys.exit(1) before any pass runs: the
    topology is the one it was given and nothing was moved. *)
Theorem rebalance_max_movement_size_exits (args : Args) (t : ClusterTopology) :
  truthy_opt (max_movement_size args) = true ->
  rebalance rg_rebalance_brokers rebalance_replicas
            request_leadership donate_leadership args t
  = mkResult [] t (SystemExit 1).
Proof.
  intros H. unfold rebalance. now rewrite H.
Qed.
End RebalanceOption.

Lemma rebalance_max_movement_size_exits_witness :
  rebalance idle_group idle_pass idle_request idle_donate
            args_with_movement_size cluster_two_groups
  = mkResult [] cluster_two_groups (SystemExit 1).
Proof.
  apply rebalance_max_movement_size_exits. reflexivity.
Defined.

(** C3 as stated fails: the outcome is the exit of the process with
    status 1, which is no raised error. *)
Lemma rebalance_max_movement_size_counterexample :
  exists r : result unit,
    (forall rb rr (req : broker_id -> Z -> list broker_id -> list pname ->
                         ClusterTopology -> list broker_id * list pname * ClusterTopology)
            (don : broker_id -> Z -> list broker_id -> list (pname * broker_id) ->
                   ClusterTopology ->
                   list broker_id * list (pname * broker_id) * ClusterTopology),
        rebalance rb rr req don args_with_movement_size cluster_two_groups = r) /\
    out r = SystemExit 1 /\
    ~ (exists e, out r = Raise e).
Proof.
  exists (mkResult [] cluster_two_groups (SystemExit 1)).
  split; [reflexivity |]. split; [reflexivity |].
  intros [e He]. discriminate He.
Qed.

(** *** remove_replica: the checks before the first round *)

Lemma collect_osr_unknown t ids :
  (exists id, In id ids /\ find_broker t id = None) -> collect_osr t ids = None.
Proof.
  induction ids as [| i ids IH]; intros (id & Hin & Hnone).
  - destruct Hin.
  - simpl. destruct Hin as [-> | Hin].
    + now rewrite Hnone.
    + destruct (find_broker t i); [| reflexivity].
      rewrite IH; [reflexivity | now exists id].
Qed.

(** C9: with an id in osr_broker_ids that names no broker, remove_replica
    raises and leaves the topology as it was; the partition check comes
    first, the replication-factor check second, the broker ids third. *)
Theorem remove_replica_unknown_osr_id (partition_name : pname)
  (osr_broker_ids : list broker_id) (count : nat) (t : ClusterTopology) :
  (exists id, In id osr_broker_ids /\ find_broker t id = None) ->
  remove_replica partition_name osr_broker_ids count t
  = mkResult [] t
      (Raise match find_partition t partition_name with
             | None => InvalidPartitionError
             | Some partition =>
                 if Py.len (p_replicas partition) <=? Z.of_nat count
                 then InvalidReplicationFactorError
                 else InvalidBrokerIdError
             end).
Proof.
  intros H. unfold remove_replica, bind, get. simpl.
  destruct (find_partition t partition_name) as [p |]; [| reflexivity].
  destruct (Py.len (p_replicas p) <=? Z.of_nat count); [reflexivity |].
  now rewrite (collect_osr_unknown _ _ H).
Qed.

Lemma remove_replica_unknown_osr_id_witness :
  remove_replica ("t", 0) [3; 99] 1 cluster_two_groups
  = mkResult [] cluster_two_groups (Raise InvalidBrokerIdError).
Proof.
  apply (remove_replica_unknown_osr_id ("t", 0) [3; 99] 1 cluster_two_groups).
  exists 99. split; [simpl; auto | reflexivity].
Defined.

(** *** decommission_brokers with an unknown id *)

Lemma find_broker_update id f t x :
  (forall b, b_id (f b) = b_id b) ->
  find_broker (update_broker id f t) x
  = option_map (fun b => if b_id b =? id then f b else b) (find_broker t x).
Proof.
  intros Hf. unfold find_broker, update_broker. simpl.
  induction (brokers t) as [| b l IH]; [reflexivity |].
  simpl. destruct (b_id b =? id) eqn:E.
  - rewrite Hf. destruct (b_id b =? x); [simpl; now rewrite E | exact IH].
  - destruct (b_id b =? x); [simpl; now rewrite E | exact IH].
Qed.

Lemma find_broker_mark_none id t x :
  find_broker t x = None -> find_broker (mark_decommissioned id t) x = None.
Proof.
  intros H. unfold mark_decommissioned.
  rewrite find_broker_update by reflexivity. now rewrite H.
Qed.

Lemma mark_brokers_unknown_id ids :
  forall groups t,
    (exists id, In id ids /\ find_broker t id = None) ->
    exists marked bad rest,
      ids = marked ++ bad :: rest /\
      (forall id, In id marked -> find_broker t id <> None) /\
      find_broker t bad = None /\
      mark_brokers ids groups t
      = mkResult []
          (mkCT (map (fun b => if id_in (b_id b) marked
                               then decommissioned_version b else b) (brokers t))
                (rgs t) (partitions t))
          (Raise InvalidBrokerIdError).
Proof.
  induction ids as [| i ids IH]; intros groups t (id & Hin & Hnone).
  - destruct Hin.
  - cbn [mark_brokers]. unfold bind at 1, get. cbn [out final trace].
    destruct (find_broker t i) as [b |] eqn:Ei.
    + assert (Hrest : exists id, In id ids /\
                find_broker (mark_decommissioned i t) id = None).
      { exists id. split.
        - destruct Hin as [-> | Hin]; [congruence | exact Hin].
        - now apply find_broker_mark_none. }
      destruct (IH (groups_add t (b_replication_group b) groups) _ Hrest)
        as (marked & bad & rest & Hids & Hvalid & Hbad & Hrun).
      exists (i :: marked), bad, rest. repeat split.
      * simpl. now rewrite Hids.
      * intros x [<- | Hx]; [congruence |].
        intros Hx0. apply (Hvalid x Hx). now apply find_broker_mark_none.
      * unfold mark_decommissioned in Hbad.
        rewrite find_broker_update in Hbad by reflexivity.
        destruct (find_broker t bad); [discriminate | reflexivity].
      * unfold bind, put. cbn [out final trace]. rewrite Hrun.
        cbn [out final trace app]. f_equal. unfold mark_decommissioned, update_broker.
        cbn [brokers rgs partitions]. f_equal. rewrite map_map.
        apply map_ext. intros [ai ag an ad ap]. unfold id_in, decommissioned_version.
        cbn [existsb b_id]. destruct (ai =? i); cbn [b_id orb];
          destruct (existsb (Z.eqb ai) marked); reflexivity.
    + exists [], i, ids. repeat split.
      * intros x [].
      * exact Ei.
      * assert (Hid : forall l : list Broker,
                  map (fun b => if id_in (b_id b) []
                                then decommissioned_version b else b) l = l).
        { induction l as [| x l IHl]; [reflexivity | cbn [map]; now rewrite IHl]. }
        rewrite Hid. unfold raise. now destruct t.
Qed.

(** C1, amended: with an id that names no broker, decommission_brokers
    raises InvalidBrokerIdError and moves no replica: the groups, the
    partitions and every broker's partition set are as before.  The
    brokers named before the first unknown id, and only they, have been
    marked decommissioned. *)
Theorem decommission_brokers_unknown_id
  (rg_rebalance_brokers : ReplicationGroup -> M unit)
  (acquire_partition : ReplicationGroup -> pname -> broker_id -> M unit)
  (broker_ids : list broker_id) (t : ClusterTopology) :
  (exists id, In id broker_ids /\ find_broker t id = None) ->
  exists marked bad rest,
    broker_ids = marked ++ bad :: rest /\
    (forall id, In id marked -> find_broker t id <> None) /\
    find_broker t bad = None /\
    decommission_brokers rg_rebalance_brokers acquire_partition broker_ids t
    = mkResult []
        (mkCT (map (fun b => if id_in (b_id b) marked
                             then decommissioned_version b else b) (brokers t))
              (rgs t) (partitions t))
        (Raise InvalidBrokerIdError).
Proof.
  intros H.
  destruct (mark_brokers_unknown_id broker_ids [] t H)
    as (marked & bad & rest & Hids & Hvalid & Hbad & Hrun).
  exists marked, bad, rest. repeat split; try assumption.
  unfold decommission_brokers, bind. now rewrite Hrun.
Qed.

Lemma decommission_brokers_unknown_id_witness :
  exists marked bad rest,
    [1; 99] = marked ++ bad :: rest /\
    (forall id, In id marked -> find_broker cluster_two_groups id <> None) /\
    find_broker cluster_two_groups bad = None /\
    decommission_brokers idle_group idle_acquire [1; 99] cluster_two_groups
    = mkResult []
        (mkCT (map (fun b => if id_in (b_id b) marked
                             then decommissioned_version b else b)
                   (brokers cluster_two_groups))
              (rgs cluster_two_groups) (partitions cluster_two_groups))
        (Raise InvalidBrokerIdError).
Proof.
  apply (decommission_brokers_unknown_id idle_group idle_acquire [1; 99]
           cluster_two_groups).
  exists 99. split; [simpl; auto | reflexivity].
Defined.

(** C1 as stated fails: broker 1, named before the unknown id 99, is
    marked decommissioned when the error is raised. *)
Lemma decommission_brokers_unknown_id_counterexample :
  exists r : result unit,
    (forall rb acq, decommission_brokers rb acq [1; 99] cluster_two_groups = r) /\
    out r = Raise InvalidBrokerIdError /\
    option_map b_decommissioned (find_broker cluster_two_groups 1) = Some false /\
    option_map b_decommissioned (find_broker (final r) 1) = Some true /\
    final r <> cluster_two_groups.
Proof.
  exists (mkResult [] (mark_decommissioned 1 cluster_two_groups)
                   (Raise InvalidBrokerIdError)).
  split; [intros; reflexivity |].
  split; [reflexivity |]. split; [reflexivity |]. split; [reflexivity |].
  discriminate.
Qed.

(** *** add_replica and the replication-factor limit *)

Lemma bind_raises {A B} (m : M A) (f : A -> M B) t e :
  out (bind m f t) = Raise e ->
  out (m t) = Raise e \/
  exists a, out (m t) = Return a /\ out (f a (final (m t))) = Raise e.
Proof.
  unfold bind. destruct (out (m t)) as [a | e' | c] eqn:E; cbn; intros H.
  - right. exists a. split; [reflexivity | exact H].
  - left. injection H as ->. reflexivity.
  - discriminate H.
Qed.

Lemma bind_get {A} (f : ClusterTopology -> M A) t : bind get f t = f t t.
Proof.
  unfold bind, get. cbn [out final trace app]. now destruct (f t t).
Qed.

Lemma rg_add_replica_raises g n t e :
  out (rg_add_replica g n t) = Raise e -> e = NotEligibleGroupError.
Proof.
  unfold rg_add_replica, bind, get. cbn [out final trace].
  destruct (Py.min _ _); cbn [out raise put]; intros H;
    [discriminate | now injection H].
Qed.

Lemma add_choice_raises t n gs e :
  add_choice t n gs = Raise e -> e = ZeroDivisionError \/ e = ValueError.
Proof.
  unfold add_choice. destruct (add_candidates t n gs) as [cands |].
  - destruct (Py.min _ _); intros H; [discriminate H | injection H as <-; now right].
  - intros H. injection H as <-. now left.
Qed.

Lemma add_replica_round_raises n gs t :
  out (add_replica_round n gs t) <> Raise InvalidReplicationFactorError.
Proof.
  unfold add_replica_round. rewrite bind_get. intros H.
  destruct (add_choice t n gs) as [rg | e | c] eqn:Ec.
  - apply bind_raises in H. destruct H as [H | (u & _ & H)].
    + apply rg_add_replica_raises in H. discriminate H.
    + apply bind_raises in H. destruct H as [H | (t1 & _ & H)]; [discriminate H |].
      destruct (_ <=? _); discriminate H.
  - apply add_choice_raises in Ec. cbn in H.
    destruct Ec as [-> | ->]; discriminate H.
  - discriminate H.
Qed.

Lemma add_replica_rounds_raises n count :
  forall gs t,
    out (add_replica_rounds n count gs t) <> Raise InvalidReplicationFactorError.
Proof.
  induction count as [| k IH]; intros gs t H.
  - discriminate H.
  - cbn [add_replica_rounds] in H. apply bind_raises in H.
    destruct H as [H | (gs' & _ & H)].
    + now apply add_replica_round_raises in H.
    + now apply IH in H.
Qed.

(** C2, amended: add_replica raises InvalidReplicationFactorError exactly
    when the partition exists and its replication factor plus [count]
    exceeds the count of ALL brokers of the topology, inactive and
    decommissioned ones included; the topology is then unchanged. *)
Theorem add_replica_replication_factor_error (partition_name : pname)
  (count : nat) (t : ClusterTopology) :
  (out (add_replica partition_name count t) = Raise InvalidReplicationFactorError
   <-> exists partition,
         find_partition t partition_name = Some partition /\
         Py.len (brokers t) < Py.len (p_replicas partition) + Z.of_nat count) /\
  (out (add_replica partition_name count t) = Raise InvalidReplicationFactorError ->
   add_replica partition_name count t
   = mkResult [] t (Raise InvalidReplicationFactorError)).
Proof.
  assert (Hrun : add_replica partition_name count t
                 = match find_partition t partition_name with
                   | None => mkResult [] t (Raise InvalidPartitionError)
                   | Some p =>
                       if Py.len (brokers t) <? Py.len (p_replicas p) + Z.of_nat count
                       then mkResult [] t (Raise InvalidReplicationFactorError)
                       else add_replica_rounds partition_name count
                              (filter (fun rg => count_replica t rg partition_name
                                                 <? Py.len (rg_brokers rg)) (rgs t)) t
                   end).
  { unfold add_replica. rewrite bind_get.
    destruct (find_partition t partition_name); [| reflexivity].
    now destruct (_ <? _). }
  rewrite Hrun. clear Hrun.
  destruct (find_partition t partition_name) as [p |].
  - destruct (Py.len (brokers t) <? Py.len (p_replicas p) + Z.of_nat count) eqn:E.
    + split; [| reflexivity]. split; [| reflexivity].
      intros _. exists p. split; [reflexivity | now apply Z.ltb_lt].
    + split.
      * split.
        -- intros H. now apply add_replica_rounds_raises in H.
        -- intros (p' & Hp & Hlt). injection Hp as <-.
           apply Z.ltb_ge in E. lia.
      * intros H. now apply add_replica_rounds_raises in H.
  - split; [| discriminate]. split; [discriminate |].
    intros (p' & Hp & _). discriminate Hp.
Qed.

(** C2 as stated fails: two active brokers, a partition of factor 2 and
    one replica more; no InvalidReplicationFactorError is raised, the
    replica lands on the decommissioned broker. *)
Lemma add_replica_replication_factor_counterexample :
  Py.len (active_brokers cluster_one_decommissioned)
    < replication_factor cluster_one_decommissioned ("t", 0) + 1 /\
  out (add_replica ("t", 0) 1 cluster_one_decommissioned) = Return tt /\
  replicas_of (final (add_replica ("t", 0) 1 cluster_one_decommissioned)) ("t", 0)
    = [1; 2; 3].
Proof.
  split; [reflexivity |]. split; reflexivity.
Qed.

(** *** Leadership rebalance: classification and the order of the phases *)

Lemma bind_emit {A} (e : event) (f : unit -> M A) t :
  bind (emit e) f t
  = mkResult (e :: trace (f tt t)) (final (f tt t)) (out (f tt t)).
Proof. reflexivity. Qed.

Lemma bind_put {A} (t' : ClusterTopology) (f : unit -> M A) t :
  bind (put t') f t = f tt t'.
Proof.
  unfold bind, put. cbn [out final trace app]. now destruct (f tt t').
Qed.

Section Leadership.
Variable edge : Type.
Variable request_leadership :
  broker_id -> Z -> list broker_id -> list pname -> ClusterTopology ->
  list broker_id * list pname * ClusterTopology.
Variable donate_leadership :
  broker_id -> Z -> list broker_id -> list edge -> ClusterTopology ->
  list broker_id * list edge * ClusterTopology.

Lemma pull_phase_calls opt todo :
  forall skip_brokers skip_partitions t,
    let r := pull_phase request_leadership opt todo skip_brokers skip_partitions t in
    out r = Return tt /\
    trace r = map (fun b => RequestLeadership b opt) todo /\
    final r
    = snd (fold_left (fun st broker =>
                        let '(sb, sp, u) := st in
                        request_leadership broker opt (sb ++ [broker]) sp u)
                     todo (skip_brokers, skip_partitions, t)).
Proof.
  induction todo as [| b todo IH]; intros sb sp t; cbn zeta.
  - repeat split; reflexivity.
  - cbn [pull_phase fold_left]. rewrite bind_emit, bind_get. cbn [out trace final map].
    destruct (request_leadership b opt (sb ++ [b]) sp t) as [[sb' sp'] t'].
    rewrite bind_put. destruct (IH sb' sp' t') as (Hout & Htrace & Hfinal).
    split; [exact Hout | split; [now rewrite Htrace | exact Hfinal]].
Qed.

Lemma push_phase_calls opt todo :
  forall skip_brokers used_edges t,
    let r := push_phase donate_leadership opt todo skip_brokers used_edges t in
    out r = Return tt /\
    trace r = map (fun b => DonateLeadership b opt) todo /\
    final r
    = snd (fold_left (fun st broker =>
                        let '(sb, ue, u) := st in
                        donate_leadership broker opt (sb ++ [broker]) ue u)
                     todo (skip_brokers, used_edges, t)).
Proof.
  induction todo as [| b todo IH]; intros sb ue t; cbn zeta.
  - repeat split; reflexivity.
  - cbn [push_phase fold_left]. rewrite bind_emit, bind_get. cbn [out trace final map].
    destruct (donate_leadership b opt (sb ++ [b]) ue t) as [[sb' ue'] t'].
    rewrite bind_put. destruct (IH sb' ue' t') as (Hout & Htrace & Hfinal).
    split; [exact Hout | split; [now rewrite Htrace | exact Hfinal]].
Qed.

(** C6: rebalance_leaders takes opt = floor(partitions / brokers).  The
    brokers that request leadership are those leading fewer than opt
    partitions; they search one after the other, in the order of the
    topology, each handed the lists and the topology the search before it
    left.  Only on the topology the last request leaves are the brokers
    leading more than opt + 1 partitions taken, and they donate one after
    the other in the same way; the topology the last donation leaves is
    the result, and every request comes before the first donation. *)
Theorem rebalance_leaders_two_phases (t : ClusterTopology) :
  brokers t <> [] ->
  let opt := Py.len (partitions t) / Py.len (brokers t) in
  let pulled := snd (searches request_leadership opt (under_brokers t opt) t) in
  let pushed :=
    snd (searches donate_leadership opt (over_brokers pulled opt) pulled) in
  let r := rebalance_leaders request_leadership donate_leadership t in
  out r = Return tt /\
  final r = pushed /\
  trace r = map (fun b => RequestLeadership b opt) (under_brokers t opt)
            ++ map (fun b => DonateLeadership b opt) (over_brokers pulled opt) /\
  (forall b, In b (under_brokers t opt) <->
             exists br, In br (brokers t) /\ b_id br = b /\
                        count_preferred_replica t b < opt) /\
  (forall b, In b (over_brokers pulled opt) <->
             exists br, In br (brokers pulled) /\ b_id br = b /\
                        opt + 1 < count_preferred_replica pulled b).
Proof.
  intros Hne opt pulled pushed r.
  assert (Hlen : (Py.len (brokers t) =? 0) = false).
  { apply Z.eqb_neq. unfold Py.len. destruct (brokers t); [congruence |].
    cbn [List.length]. lia. }
  assert (Hr : r = rebalancing_non_followers request_leadership donate_leadership
                     opt t).
  { unfold r, rebalance_leaders. rewrite bind_get. now rewrite Hlen. }
  assert (Hclass : forall (P : Broker -> bool) (u : ClusterTopology) b,
             In b (map b_id (filter P (brokers u))) <->
             exists br, In br (brokers u) /\ b_id br = b /\ P br = true).
  { intros P u b. rewrite in_map_iff. split.
    - intros (br & Hid & Hin). apply filter_In in Hin. exists br. tauto.
    - intros (br & Hin & Hid & HP). exists br. split; [exact Hid |].
      apply filter_In. tauto. }
  destruct (pull_phase_calls opt (under_brokers t opt) [] [] t) as (Ho & Ht & Hf).
  cbn zeta in Ho, Ht, Hf. fold (searches request_leadership opt
                                  (under_brokers t opt) t) in Hf.
  fold pulled in Hf.
  destruct (push_phase_calls opt (over_brokers pulled opt) [] [] pulled)
    as (Ho' & Ht' & Hf').
  cbn zeta in Ho', Ht', Hf'. fold (searches donate_leadership opt
                                     (over_brokers pulled opt) pulled) in Hf'.
  fold pushed in Hf'.
  assert (Hrun : rebalancing_non_followers request_leadership donate_leadership
                   opt t
                 = mkResult (map (fun b => RequestLeadership b opt)
                                 (under_brokers t opt)
                             ++ map (fun b => DonateLeadership b opt)
                                    (over_brokers pulled opt))
                            pushed (Return tt)).
  { unfold rebalancing_non_followers. rewrite bind_get. unfold bind at 1.
    rewrite Ho, Hf, Ht. rewrite bind_get.
    destruct (push_phase donate_leadership opt (over_brokers pulled opt) [] []
                pulled) as [tr fin o].
    cbn [out trace final] in *. now subst. }
  rewrite Hr, Hrun. cbn [out final trace].
  split; [reflexivity | split; [reflexivity | split; [reflexivity |]]].
  split.
  - intros b. unfold under_brokers. rewrite Hclass. split.
    + intros (br & Hin & Hid & HP). exists br. subst b.
      repeat split; [exact Hin | now apply Z.ltb_lt].
    + intros (br & Hin & Hid & HP). exists br. subst b.
      repeat split; [exact Hin | now apply Z.ltb_lt].
  - intros b. unfold over_brokers. rewrite Hclass. split.
    + intros (br & Hin & Hid & HP). exists br. subst b.
      repeat split; [exact Hin | now apply Z.ltb_lt].
    + intros (br & Hin & Hid & HP). exists br. subst b.
      repeat split; [exact Hin | now apply Z.ltb_lt].
Qed.
End Leadership.

Lemma rebalance_leaders_two_phases_witness :
  let r := rebalance_leaders taking_request giving_donate cluster_five_leads in
  out r = Return tt /\
  trace r = [RequestLeadership 2 2; DonateLeadership 1 2] /\
  plan (final r)
  = [(("t", 0), [2; 1]); (("t", 1), [2; 1]); (("t", 2), [1; 2]);
     (("t", 3), [1; 2]); (("t", 4), [1; 2])].
Proof.
  destruct (@rebalance_leaders_two_phases _ taking_request giving_donate
              cluster_five_leads) as (H1 & H2 & H3 & _).
  - discriminate.
  - cbn zeta. split; [exact H1 | split; [exact H3 |]].
    rewrite H2. reflexivity.
Defined.

(** *** Moves across groups when no broker pair exists *)

Lemma bind_raise {A B} (m : M A) (f : A -> M B) t e :
  m t = mkResult [] t (Raise e) -> bind m f t = mkResult [] t (Raise e).
Proof. intros H. unfold bind. now rewrite H. Qed.

(** C7: what the code does where the claim asks for a silent skip.  When
    every broker of the destination group holds the partition, or no
    broker of the source group does, move_partition_replica and
    move_partition raise ValueError (max or min of an empty list); the
    topology is unchanged. *)
Theorem move_without_broker_pair_raises (over_rg under_rg : ReplicationGroup)
  (partition : pname) (t : ClusterTopology) :
  non_holders t under_rg partition = [] \/ holders t over_rg partition = [] ->
  move_partition_replica over_rg under_rg partition t
  = mkResult [] t (Raise ValueError) /\
  move_partition over_rg under_rg partition t
  = mkResult [] t (Raise ValueError).
Proof.
  intros H. split.
  - unfold move_partition_replica. apply bind_raise.
    unfold _get_eligible_broker_pair. rewrite bind_get.
    destruct H as [H | H]; rewrite H.
    + now destruct (Py.max _ _).
    + reflexivity.
  - unfold move_partition. apply bind_raise.
    unfold _select_broker_pair. rewrite bind_get.
    unfold _select_over_loaded_brokers, select_under_loaded_brokers.
    destruct H as [H | H]; rewrite H.
    + now destruct (_elect_source_broker _ _ _).
    + reflexivity.
Qed.

Lemma move_without_broker_pair_raises_witness :
  move_partition_replica (mkRG "rg1" [1; 2]) (mkRG "rg2" [3]) ("t", 0)
    cluster_full_destination
  = mkResult [] cluster_full_destination (Raise ValueError) /\
  move_partition (mkRG "rg1" [1; 2]) (mkRG "rg2" [3]) ("t", 0)
    cluster_full_destination
  = mkResult [] cluster_full_destination (Raise ValueError).
Proof.
  apply move_without_broker_pair_raises. left. reflexivity.
Defined.

(** The second pass of the group rebalance reaches that case: on
    [cluster_full_destination] all four partitions of rg1 are eligible,
    and whenever (t, 0) is the first one visited the pass ends with
    ValueError at its first move. *)
Lemma move_eligible_raises (rest : list pname) :
  move_eligible (mkRG "rg1" [1; 2]) (mkRG "rg2" [3]) 3 (("t", 0) :: rest)
    cluster_full_destination
  = mkResult [] cluster_full_destination (Raise ValueError).
Proof. reflexivity. Qed.

(** So it is in the order in which [eligible_partitions] lists them. *)
Lemma rebalance_groups_partition_cnt_raises :
  _rebalance_groups_partition_cnt cluster_full_destination
  = mkResult [] cluster_full_destination (Raise ValueError).
Proof. reflexivity. Qed.

(** *** The second pass of the group rebalance *)

Lemma pname_eqb_eq a b : pname_eqb a b = true <-> a = b.
Proof.
  unfold pname_eqb. rewrite andb_true_iff, String.eqb_eq, Z.eqb_eq.
  destruct a, b; simpl. split; [intros [-> ->]; reflexivity |].
  intros H. now injection H.
Qed.

Lemma find_broker_id t x b : find_broker t x = Some b -> b_id b = x.
Proof.
  unfold find_broker. intros H. apply find_some in H. now apply Z.eqb_eq.
Qed.

Lemma find_partition_name t n p : find_partition t n = Some p -> p_name p = n.
Proof.
  unfold find_partition. intros H. apply find_some in H. now apply pname_eqb_eq.
Qed.

Lemma find_partition_update n f t x :
  (forall p, p_name (f p) = p_name p) ->
  find_partition (update_partition n f t) x
  = option_map (fun p => if pname_eqb (p_name p) n then f p else p)
               (find_partition t x).
Proof.
  intros Hf. unfold find_partition, update_partition. simpl.
  induction (partitions t) as [| p l IH]; [reflexivity |].
  simpl. destruct (pname_eqb (p_name p) n) eqn:E.
  - rewrite Hf. destruct (pname_eqb (p_name p) x); [simpl; now rewrite E | exact IH].
  - destruct (pname_eqb (p_name p) x); [simpl; now rewrite E | exact IH].
Qed.

Lemma find_partition_update_broker id f t x :
  find_partition (update_broker id f t) x = find_partition t x.
Proof. reflexivity. Qed.


Lemma partitions_of_update id f t x :
  (forall b, b_id (f b) = b_id b) ->
  partitions_of (update_broker id f t) x
  = match find_broker t x with
    | Some b => if x =? id then b_partitions (f b) else b_partitions b
    | None => []
    end.
Proof.
  intros Hf. unfold partitions_of. rewrite find_broker_update by exact Hf.
  destruct (find_broker t x) as [b |] eqn:E; [| reflexivity].
  simpl. apply find_broker_id in E. rewrite E. now destruct (x =? id).
Qed.

Lemma partitions_of_update_partition n f t x :
  partitions_of (update_partition n f t) x = partitions_of t x.
Proof. reflexivity. Qed.










Lemma bind_returned {A B} (m : M A) (f : A -> M B) t tr t' a :
  m t = mkResult tr t' (Return a) ->
  bind m f t = mkResult (tr ++ trace (f a t')) (final (f a t')) (out (f a t')).
Proof. intros H. unfold bind. now rewrite H. Qed.

Lemma bind_Forall {A B} (P : event -> Prop) (m : M A) (f : A -> M B) t :
  Forall P (trace (m t)) ->
  (forall a, Forall P (trace (f a (final (m t))))) ->
  Forall P (trace (bind m f t)).
Proof.
  intros Hm Hf. unfold bind. destruct (out (m t)); cbn [trace]; try exact Hm.
  apply Forall_app. split; [exact Hm | apply Hf].
Qed.



Section Pair.
Variables over_loaded_rg under_loaded_rg : ReplicationGroup.
Variable opt_partition_cnt : Z.


End Pair.







(** *** The choices of add_replica and remove_replica *)

Section FirstBest.
Variable A : Type.
Variable key : A -> Z.

Lemma min_from_first l :
  forall pre best mid,
    (forall y, In y pre -> key best < key y) ->
    (forall y, In y mid -> key best <= key y) ->
    exists before after,
      pre ++ best :: mid ++ l = before ++ Py.min_from key best l :: after /\
      (forall y, In y before -> key (Py.min_from key best l) < key y) /\
      (forall y, In y after -> key (Py.min_from key best l) <= key y).
Proof.
  induction l as [| x l IH]; intros pre best mid Hpre Hmid.
  - exists pre, mid. rewrite app_nil_r. auto.
  - cbn [Py.min_from]. destruct (key x <? key best) eqn:E.
    + apply Z.ltb_lt in E.
      destruct (@IH (pre ++ best :: mid) x []) as (b & a & Heq & Hb & Ha).
      * intros y Hy. apply in_app_or in Hy. destruct Hy as [Hy | [<- | Hy]].
        -- specialize (Hpre y Hy). lia.
        -- exact E.
        -- specialize (Hmid y Hy). lia.
      * intros y [].
      * exists b, a. split; [| auto].
        rewrite <- Heq. now rewrite <- app_assoc.
    + apply Z.ltb_ge in E.
      destruct (@IH pre best (mid ++ [x])) as (b & a & Heq & Hb & Ha).
      * exact Hpre.
      * intros y Hy. apply in_app_or in Hy. destruct Hy as [Hy | [<- | []]];
          [now apply Hmid | exact E].
      * exists b, a. split; [| auto].
        rewrite <- Heq. now rewrite <- app_assoc.
Qed.

Lemma max_from_first l :
  forall pre best mid,
    (forall y, In y pre -> key y < key best) ->
    (forall y, In y mid -> key y <= key best) ->
    exists before after,
      pre ++ best :: mid ++ l = before ++ Py.max_from key best l :: after /\
      (forall y, In y before -> key y < key (Py.max_from key best l)) /\
      (forall y, In y after -> key y <= key (Py.max_from key best l)).
Proof.
  induction l as [| x l IH]; intros pre best mid Hpre Hmid.
  - exists pre, mid. rewrite app_nil_r. auto.
  - cbn [Py.max_from]. destruct (key best <? key x) eqn:E.
    + apply Z.ltb_lt in E.
      destruct (@IH (pre ++ best :: mid) x []) as (b & a & Heq & Hb & Ha).
      * intros y Hy. apply in_app_or in Hy. destruct Hy as [Hy | [<- | Hy]].
        -- specialize (Hpre y Hy). lia.
        -- exact E.
        -- specialize (Hmid y Hy). lia.
      * intros y [].
      * exists b, a. split; [| auto].
        rewrite <- Heq. now rewrite <- app_assoc.
    + apply Z.ltb_ge in E.
      destruct (@IH pre best (mid ++ [x])) as (b & a & Heq & Hb & Ha).
      * exact Hpre.
      * intros y Hy. apply in_app_or in Hy. destruct Hy as [Hy | [<- | []]];
          [now apply Hmid | exact E].
      * exists b, a. split; [| auto].
        rewrite <- Heq. now rewrite <- app_assoc.
Qed.

Lemma min_first l x :
  Py.min key l = Some x ->
  exists before after,
    l = before ++ x :: after /\
    (forall y, In y before -> key x < key y) /\
    (forall y, In y after -> key x <= key y).
Proof.
  destruct l as [| a l]; [discriminate |]. cbn [Py.min]. intros H.
  injection H as <-.
  destruct (@min_from_first l [] a []) as (b & c & Heq & Hb & Hc);
    [intros y [] | intros y [] |].
  exists b, c. auto.
Qed.

Lemma max_first l x :
  Py.max key l = Some x ->
  exists before after,
    l = before ++ x :: after /\
    (forall y, In y before -> key y < key x) /\
    (forall y, In y after -> key y <= key x).
Proof.
  destruct l as [| a l]; [discriminate |]. cbn [Py.max]. intros H.
  injection H as <-.
  destruct (@max_from_first l [] a []) as (b & c & Heq & Hb & Hc);
    [intros y [] | intros y [] |].
  exists b, c. auto.
Qed.
End FirstBest.






(** *** The lists of remove_replica *)

Lemma pname_in_In n l : pname_in n l = true <-> In n l.
Proof.
  unfold pname_in. rewrite existsb_exists. split.
  - intros (x & Hx & Heq). apply pname_eqb_eq in Heq. now subst.
  - intros H. exists n. split; [assumption | now apply pname_eqb_eq].
Qed.

Lemma count_replica_positive t g n :
  0 < count_replica t g n <->
  exists x, In x (rg_brokers g) /\ In n (partitions_of t x).
Proof.
  unfold count_replica, rg_partitions. rewrite <- in_flat_map.
  rewrite (count_occ_In pname_eq_dec). lia.
Qed.

Lemma replicas_of_drop b n t :
  replicas_of (drop_replica b n t) n = remove Z.eq_dec b (replicas_of t n).
Proof.
  unfold drop_replica, replicas_of. rewrite find_partition_update by reflexivity.
  rewrite find_partition_update_broker.
  destruct (find_partition t n) as [p |] eqn:E; [| reflexivity].
  simpl. apply find_partition_name in E.
  assert (H : pname_eqb (p_name p) n = true) by now apply pname_eqb_eq.
  now rewrite H.
Qed.

Lemma partitions_of_drop b n t x :
  partitions_of (drop_replica b n t) x
  = if x =? b then remove pname_eq_dec n (partitions_of t x)
    else partitions_of t x.
Proof.
  unfold drop_replica. rewrite partitions_of_update_partition.
  rewrite partitions_of_update by reflexivity. unfold partitions_of.
  destruct (find_broker t x); [reflexivity | now destruct (x =? b)].
Qed.

Lemma in_partitions_of_drop b n t x :
  In n (partitions_of (drop_replica b n t) x) <->
  x <> b /\ In n (partitions_of t x).
Proof.
  rewrite partitions_of_drop. destruct (x =? b) eqn:E.
  - apply Z.eqb_eq in E. split.
    + intros H. now apply remove_In in H.
    + intros [H _]. contradiction.
  - apply Z.eqb_neq in E. tauto.
Qed.

Lemma in_remove_iff (b x : broker_id) l :
  In x (remove Z.eq_dec b l) <-> x <> b /\ In x l.
Proof.
  split.
  - intros H. apply in_remove in H. tauto.
  - intros [Hne Hin]. now apply in_in_remove.
Qed.

Lemma NoDup_remove_id (b : broker_id) l :
  NoDup l -> NoDup (remove Z.eq_dec b l).
Proof.
  induction 1 as [| x l Hx Hnd IH]; [constructor |].
  cbn [remove]. destruct (Z.eq_dec b x); [exact IH |].
  constructor; [| exact IH]. intros H. apply in_remove in H. tauto.
Qed.

Lemma length_remove_id (b : broker_id) l :
  NoDup l -> In b l -> S (List.length (remove Z.eq_dec b l)) = List.length l.
Proof.
  induction 1 as [| x l Hx Hnd IH]; intros Hin; [destruct Hin |].
  cbn [remove]. destruct (Z.eq_dec b x) as [<- | Hne].
  - rewrite notin_remove by exact Hx. reflexivity.
  - destruct Hin as [-> | Hin]; [congruence |].
    cbn [List.length]. now rewrite IH.
Qed.

(** Dropping a replica keeps the topology well formed. *)
Lemma well_formed_drop b n t :
  well_formed t n -> well_formed (drop_replica b n t) n.
Proof.
  intros [Hids Hbr Hone Hrep Hdis Hgr]. constructor.
  - exact Hids.
  - exact Hbr.
  - exact Hone.
  - intros x. rewrite replicas_of_drop, in_remove_iff, in_partitions_of_drop.
    now rewrite Hrep.
  - rewrite replicas_of_drop. now apply NoDup_remove_id.
  - intros x. rewrite replicas_of_drop, in_remove_iff. intros [_ H].
    exact (Hgr x H).
Qed.

Lemma in_insert_asc {A} (key : A -> Z) x y l :
  In y (Py.insert_asc key x l) <-> y = x \/ In y l.
Proof.
  induction l as [| z l IH]; cbn [Py.insert_asc].
  - simpl. intuition congruence.
  - destruct (key x <=? key z); simpl; [intuition congruence |].
    rewrite IH. simpl. intuition congruence.
Qed.

Lemma in_sorted {A} (key : A -> Z) y l : In y (Py.sorted key l) <-> In y l.
Proof.
  induction l as [| x l IH]; [reflexivity |].
  cbn [Py.sorted fold_right]. rewrite in_insert_asc.
  fold (Py.sorted key l). rewrite IH. simpl. intuition congruence.
Qed.

Lemma max_in {A} (key : A -> Z) l x : Py.max key l = Some x -> In x l.
Proof.
  intros H. destruct (max_first _ _ H) as (b & a & -> & _).
  apply in_or_app. right. now left.
Qed.

Lemma max_some {A} (key : A -> Z) l : l <> [] -> exists x, Py.max key l = Some x.
Proof.
  destruct l as [| a l]; [congruence |]. intros _. cbn [Py.max]. eauto.
Qed.

Lemma rg_ident_inj l g1 g2 :
  NoDup (map rg_ident l) -> In g1 l -> In g2 l ->
  rg_ident g1 = rg_ident g2 -> g1 = g2.
Proof.
  induction l as [| g l IH]; intros Hnd H1 H2 Heq; [destruct H1 |].
  cbn [map] in Hnd. inversion Hnd as [| ? ? Hnotin Hnd']; subst.
  destruct H1 as [-> | H1], H2 as [-> | H2].
  - reflexivity.
  - exfalso. apply Hnotin. rewrite Heq. now apply in_map.
  - exfalso. apply Hnotin. rewrite <- Heq. now apply in_map.
  - now apply IH.
Qed.

Section GroupLists.
Variable all : list ReplicationGroup.
Hypothesis all_keys : NoDup (map rg_ident all).

Lemma rg_in_In g l :
  In g all -> incl l all -> (rg_in g l = true <-> In g l).
Proof.
  intros Hg Hl. unfold rg_in. rewrite existsb_exists. split.
  - intros (g' & Hin & Heq). apply String.eqb_eq in Heq.
    assert (g' = g) by (apply rg_ident_inj with (l := all); auto).
    now subst g'.
  - intros Hin. exists g. split; [exact Hin | apply String.eqb_refl].
Qed.

Lemma rg_remove_In g l x :
  In g all -> incl l all -> NoDup l ->
  (In x (rg_remove g l) <-> In x l /\ x <> g).
Proof.
  intros Hg. induction l as [| g' l IH]; intros Hl Hnd.
  - simpl. tauto.
  - inversion Hnd as [| ? ? Hnotin Hnd']; subst.
    assert (Hl' : incl l all) by (intros y Hy; apply Hl; now right).
    cbn [rg_remove]. destruct (String.eqb (rg_ident g') (rg_ident g)) eqn:E.
    + apply String.eqb_eq in E.
      assert (g' = g)
        by (apply rg_ident_inj with (l := all); auto; apply Hl; now left).
      subst g'. split.
      * intros Hx. split; [now right |]. intros ->. contradiction.
      * intros [[-> | Hx] Hne]; [congruence | exact Hx].
    + assert (g' <> g).
      { intros ->. rewrite String.eqb_refl in E. discriminate. }
      cbn [In]. rewrite (IH Hl' Hnd'). split.
      * intros [-> | [Hx Hne]]; [split; [now left | assumption] |].
        split; [now right | assumption].
      * intros [[-> | Hx] Hne]; [now left | right; now split].
Qed.

Lemma rg_remove_NoDup g l :
  In g all -> incl l all -> NoDup l -> NoDup (rg_remove g l).
Proof.
  intros Hg. induction l as [| g' l IH]; intros Hl Hnd; [constructor |].
  inversion Hnd as [| ? ? Hnotin Hnd']; subst.
  assert (Hl' : incl l all) by (intros y Hy; apply Hl; now right).
  cbn [rg_remove]. destruct (String.eqb (rg_ident g') (rg_ident g)); [exact Hnd' |].
  constructor; [| now apply IH].
  intros H. apply rg_remove_In in H; [tauto | assumption ..].
Qed.
End GroupLists.

Lemma or_else_nonempty {A} (a b : list A) : b <> [] -> Py.or_else a b <> [].
Proof.
  intros Hb. unfold Py.or_else. destruct a; [exact Hb | discriminate].
Qed.

Lemma or_else_incl {A} (a b c : list A) :
  incl a c -> incl b c -> incl (Py.or_else a b) c.
Proof.
  intros Ha Hb. unfold Py.or_else. now destruct a.
Qed.

Lemma len_zero {A} (l : list A) : (Py.len l =? 0) = true -> l = [].
Proof.
  unfold Py.len. destruct l; [reflexivity |]. cbn [List.length].
  intros H. apply Z.eqb_eq in H. lia.
Qed.

Lemma filter_filter_sub {A} (f g : A -> bool) l :
  (forall x, g x = true -> f x = true) ->
  filter g (filter f l) = filter g l.
Proof.
  intros Hgf. induction l as [| x l IH]; [reflexivity |].
  cbn [filter]. destruct (f x) eqn:Ef.
  - cbn [filter]. now rewrite IH.
  - rewrite IH. destruct (g x) eqn:Eg; [| reflexivity].
    apply Hgf in Eg. congruence.
Qed.

Lemma filter_all {A} (f : A -> bool) l :
  (forall x, In x l -> f x = true) -> filter f l = l.
Proof.
  induction l as [| x l IH]; intros H; [reflexivity |].
  cbn [filter]. rewrite H by now left. rewrite IH; [reflexivity |].
  intros y Hy. apply H. now right.
Qed.

(** In a duplicate-free list that holds [b] and whose length is not 1,
    there is an element other than [b]. *)
Lemma another_element (b : broker_id) l :
  NoDup l -> In b l -> (Py.len l =? 1) = false ->
  exists y, In y l /\ y <> b.
Proof.
  intros Hnd Hin Hlen. apply Z.eqb_neq in Hlen. unfold Py.len in Hlen.
  destruct l as [| x [| y l]].
  - destruct Hin.
  - cbn in Hlen. lia.
  - destruct (Z.eq_dec x b) as [-> | Hx].
    + exists y. split; [right; now left |].
      intros ->. inversion Hnd as [| ? ? Hnotin _]; subst. apply Hnotin. now left.
    + exists x. split; [now left | exact Hx].
Qed.

Lemma rg_remove_replica_spec t g n osr_in_rg :
  0 < count_replica t g n ->
  exists b,
    rg_remove_replica g n osr_in_rg t
    = mkResult [] (drop_replica b n t) (Return tt) /\
    In b (rg_brokers g) /\ In n (partitions_of t b) /\
    ((exists x, In x osr_in_rg /\ In x (rg_brokers g) /\
                In n (partitions_of t x)) -> In b osr_in_rg).
Proof.
  intros Hpos. apply count_replica_positive in Hpos.
  destruct Hpos as (x0 & Hx0 & Hp0).
  unfold rg_remove_replica. rewrite bind_get.
  set (held := Py.sorted (fun b => b) (holders t g n)).
  assert (Hheld : forall x, In x held <->
                            In x (rg_brokers g) /\ In n (partitions_of t x)).
  { intros x. unfold held, holders.
    rewrite in_sorted, filter_In, pname_in_In. tauto. }
  set (oos := filter (fun b => id_in b osr_in_rg) held).
  assert (Hoos : forall x, In x oos <-> In x held /\ In x osr_in_rg).
  { intros x. unfold oos. rewrite filter_In, id_in_In. tauto. }
  assert (Hne : Py.or_else oos held <> []).
  { apply or_else_nonempty. intros E.
    assert (H : In x0 held) by (apply Hheld; auto).
    rewrite E in H. destruct H. }
  destruct (max_some (fun b => Py.len (partitions_of t b)) Hne) as [b Hb].
  rewrite Hb. exists b. split; [reflexivity |].
  apply max_in in Hb.
  assert (Hcases : (oos = [] /\ In b held) \/ In b oos).
  { unfold Py.or_else in Hb. destruct oos as [| y l]; [left; now split | right].
    exact Hb. }
  assert (Hbheld : In b held).
  { destruct Hcases as [[_ H] | H]; [exact H | now apply Hoos in H]. }
  apply Hheld in Hbheld. destruct Hbheld as [Hbg Hbp].
  repeat split; try assumption.
  intros (x & Hxo & Hxg & Hxp).
  assert (Hx : In x oos) by (apply Hoos; split; [apply Hheld |]; auto).
  destruct Hcases as [[E _] | H]; [rewrite E in Hx; destruct Hx |].
  now apply Hoos in H.
Qed.

Lemma removal_choice_spec t n st :
  non_empty_rgs st <> [] ->
  incl (rgs_with_osr st) (non_empty_rgs st) ->
  exists rg, removal_choice t n st = Return rg /\ In rg (non_empty_rgs st).
Proof.
  intros Hne Hincl. unfold removal_choice, removal_candidates.
  set (c0 := Py.or_else (rgs_with_osr st) (non_empty_rgs st)).
  assert (Hc0 : c0 <> []) by now apply or_else_nonempty.
  assert (Hc0i : incl c0 (non_empty_rgs st))
    by (apply or_else_incl; [exact Hincl | apply incl_refl]).
  unfold compute_optimum. destruct (Py.len c0 =? 0) eqn:E.
  { apply len_zero in E. contradiction. }
  set (over := filter _ c0).
  assert (Hc1 : Py.or_else over c0 <> []) by now apply or_else_nonempty.
  assert (Hc1i : incl (Py.or_else over c0) c0).
  { apply or_else_incl; [| apply incl_refl]. unfold over. apply incl_filter. }
  destruct (max_some (rg_load t) Hc1) as [rg Hrg]. rewrite Hrg.
  exists rg. split; [reflexivity |]. apply Hc0i, Hc1i. eapply max_in, Hrg.
Qed.

Lemma nonempty_in {A} (l : list A) : l <> [] -> exists x, In x l.
Proof. destruct l as [| x l]; [congruence |]. intros _. exists x. now left. Qed.

Lemma rg_same_dec (g1 g2 : ReplicationGroup) : {g1 = g2} + {g1 <> g2}.
Proof.
  decide equality; [apply (list_eq_dec Z.eq_dec) | apply string_dec].
Qed.

Section Round.
Variable t : ClusterTopology.
Variable n : pname.
Variable osr0 : list broker_id.
Variable st : removal_state.
Hypothesis Hwf : well_formed t n.
Hypothesis Hinv : round_invariant t n osr0 st.

(** The group [rg] was chosen and broker [b] of it lost its replica. *)
Variable rg : ReplicationGroup.
Variable b : broker_id.
Hypothesis Hrg : In rg (rgs t).
Hypothesis Hbg : In b (rg_brokers rg).
Hypothesis Hbp : In n (partitions_of t b).

Let t' := drop_replica b n t.
Let osr_in_rg := filter (fun x => id_in x (osr st)) (rg_brokers rg).

Hypothesis Hbosr :
  (exists x, In x osr_in_rg /\ In x (rg_brokers rg) /\ In n (partitions_of t x)) ->
  In b osr_in_rg.

Lemma round_count_after g :
  0 < count_replica t' g n <->
  exists x, In x (rg_brokers g) /\ x <> b /\ In n (partitions_of t x).
Proof.
  unfold t'. rewrite count_replica_positive. split.
  - intros (x & Hx & Hp). apply in_partitions_of_drop in Hp. exists x. tauto.
  - intros (x & Hx & Hne & Hp). exists x. split; [exact Hx |].
    apply in_partitions_of_drop. tauto.
Qed.

Lemma round_count_le g : 0 < count_replica t' g n -> 0 < count_replica t g n.
Proof.
  rewrite round_count_after, count_replica_positive.
  intros (x & Hx & _ & Hp). now exists x.
Qed.

Lemma round_other_group g : In g (rgs t) -> g <> rg -> ~ In b (rg_brokers g).
Proof.
  intros Hg Hne Hb. apply Hne.
  exact (wf_one_group Hwf g rg b Hg Hrg Hb Hbg).
Qed.

Lemma round_count_other g :
  In g (rgs t) -> g <> rg ->
  (0 < count_replica t' g n <-> 0 < count_replica t g n).
Proof.
  intros Hg Hne. split; [apply round_count_le |].
  rewrite round_count_after, count_replica_positive.
  intros (x & Hx & Hp). exists x. repeat split; try assumption.
  intros ->. now apply (round_other_group Hg Hne).
Qed.

Lemma round_osr x :
  In x (osr st) <-> In x osr0 /\ In x (replicas_of t n).
Proof.
  destruct Hinv as ((Hosr & _) & _). rewrite Hosr. unfold osr_replicas.
  rewrite filter_In, id_in_In. tauto.
Qed.

Lemma round_osr_after x :
  In x (osr_replicas t' n osr0) <-> In x (osr st) /\ x <> b.
Proof.
  unfold osr_replicas, t'. rewrite filter_In, id_in_In, replicas_of_drop.
  rewrite in_remove_iff, round_osr. tauto.
Qed.

Lemma round_osr_in_rg x :
  In x osr_in_rg <-> In x (rg_brokers rg) /\ In x (osr st).
Proof. unfold osr_in_rg. rewrite filter_In, id_in_In. tauto. Qed.

Lemma round_victim_out_of_sync : osr_in_rg <> [] -> In b osr_in_rg.
Proof.
  intros Hne. apply Hbosr. destruct (nonempty_in Hne) as [x Hx].
  exists x. pose proof Hx as Hx'. apply round_osr_in_rg in Hx'.
  destruct Hx' as [Hxg Hxo]. apply round_osr in Hxo.
  repeat split; try assumption. now apply (wf_replicas Hwf).
Qed.

(** Whether a group has an out-of-sync replica, before and after. *)
Lemma round_has_osr_other g :
  In g (rgs t) -> g <> rg ->
  ((exists x, In x (rg_brokers g) /\ In x (osr_replicas t' n osr0)) <->
   (exists x, In x (rg_brokers g) /\ In x (osr_replicas t n osr0))).
Proof.
  intros Hg Hne. destruct Hinv as ((Hosr & _) & _). rewrite <- Hosr.
  split; intros (x & Hx & Ho); exists x; (split; [exact Hx |]).
  - apply round_osr_after in Ho. tauto.
  - apply round_osr_after. split; [exact Ho |].
    intros ->. now apply (round_other_group Hg Hne).
Qed.

Lemma round_has_osr_positive g :
  (exists x, In x (rg_brokers g) /\ In x (osr_replicas t' n osr0)) ->
  0 < count_replica t' g n.
Proof.
  intros (x & Hx & Ho). apply round_osr_after in Ho. destruct Ho as [Ho Hne].
  apply round_osr in Ho. apply round_count_after. exists x.
  repeat split; try assumption. apply (wf_replicas Hwf). tauto.
Qed.
Lemma round_lists_in_groups :
  incl (non_empty_rgs st) (rgs t) /\ incl (rgs_with_osr st) (rgs t).
Proof.
  destruct Hinv as ((_ & Hne & Hrwo) & _). split; intros g Hg.
  - apply Hne in Hg. tauto.
  - apply Hrwo in Hg. tauto.
Qed.

Lemma round_invariant_after :
  round_invariant t' n osr0
    (mkRemoval
       (filter (fun x => id_in x (replicas_of t' n)) (osr st))
       (if rg_in rg (rgs_with_osr st) && (Py.len osr_in_rg =? 1)
        then rg_remove rg (rgs_with_osr st) else rgs_with_osr st)
       (if count_replica t' rg n =? 0
        then rg_remove rg (non_empty_rgs st) else non_empty_rgs st)).
Proof.
  pose proof Hinv as ((Hosr & Hne & Hrwo) & Hnd_ne & Hnd_rwo).
  destruct round_lists_in_groups as [Hne_all Hrwo_all].
  pose proof (wf_group_ids Hwf) as Hids.
  assert (Hnonneg : forall g, 0 <= count_replica t' g n)
    by (intros g; unfold count_replica; lia).
  unfold round_invariant, lists_as_claimed. cbn [osr non_empty_rgs rgs_with_osr].
  split; [split; [| split; intros g; split] | split].
  - (* osr *)
    rewrite Hosr. unfold osr_replicas. apply filter_filter_sub.
    intros x Hx. apply id_in_In. apply id_in_In in Hx.
    unfold t' in Hx. rewrite replicas_of_drop, in_remove_iff in Hx. tauto.
  - (* non_empty_rgs, left to right *)
    destruct (count_replica t' rg n =? 0) eqn:E0.
    + intros Hg. apply (rg_remove_In Hids) in Hg; try assumption.
      destruct Hg as [Hg Hneq]. apply Hne in Hg. destruct Hg as [Hg Hpos].
      split; [exact Hg | now apply round_count_other].
    + intros Hg. apply Hne in Hg. destruct Hg as [Hg Hpos].
      split; [exact Hg |]. destruct (rg_same_dec g rg) as [-> | Hneq].
      * apply Z.eqb_neq in E0. specialize (Hnonneg rg). lia.
      * now apply round_count_other.
  - (* non_empty_rgs, right to left *)
    intros [Hg Hpos]. change (rgs t') with (rgs t) in Hg.
    assert (Hin : In g (non_empty_rgs st))
      by (apply Hne; split; [exact Hg | now apply round_count_le]).
    destruct (count_replica t' rg n =? 0) eqn:E0; [| exact Hin].
    apply (rg_remove_In Hids); try assumption. split; [exact Hin |].
    intros ->. apply Z.eqb_eq in E0. lia.
  - (* rgs_with_osr, left to right *)
    intros Hg.
    assert (Hgoal : In g (rgs t) /\
              exists x, In x (rg_brokers g) /\ In x (osr_replicas t' n osr0)).
    { destruct (rg_in rg (rgs_with_osr st) && (Py.len osr_in_rg =? 1)) eqn:E.
      - apply andb_true_iff in E. destruct E as [Ein Elen].
        apply (rg_remove_In Hids) in Hg; try assumption.
        destruct Hg as [Hg Hneq]. apply Hrwo in Hg.
        destruct Hg as (Hg & _ & Hhas). split; [exact Hg |].
        now apply round_has_osr_other.
      - apply Hrwo in Hg. destruct Hg as (Hg & Hpos & Hhas).
        split; [exact Hg |].
        destruct (rg_same_dec g rg) as [-> | Hneq];
          [| now apply round_has_osr_other].
        assert (Hin : In rg (rgs_with_osr st)) by (apply Hrwo; auto).
        pose proof (proj2 (@rg_in_In (rgs t) Hids rg (rgs_with_osr st)
                             Hrg Hrwo_all) Hin) as Hin'.
        rewrite Hin' in E.
        cbn [andb] in E.
        assert (Hnonempty : osr_in_rg <> []).
        { destruct Hhas as (x & Hx & Ho). rewrite <- Hosr in Ho.
          intros Enil. assert (Hxin : In x osr_in_rg)
            by (apply round_osr_in_rg; auto).
          rewrite Enil in Hxin. destruct Hxin. }
        assert (Hnd : NoDup osr_in_rg)
          by (apply NoDup_filter, (wf_group_brokers Hwf), Hrg).
        destruct (@another_element b osr_in_rg Hnd
                    (round_victim_out_of_sync Hnonempty) E)
          as (y & Hy & Hyb).
        apply round_osr_in_rg in Hy. exists y. split; [tauto |].
        apply round_osr_after. tauto. }
    destruct Hgoal as [Hg' Hhas].
    split; [exact Hg' | split; [now apply round_has_osr_positive | exact Hhas]].
  - (* rgs_with_osr, right to left *)
    intros (Hg & Hpos & Hhas). change (rgs t') with (rgs t) in Hg.
    assert (Hbefore : exists x, In x (rg_brokers g) /\ In x (osr st)).
    { destruct Hhas as (x & Hx & Ho). apply round_osr_after in Ho.
      exists x. tauto. }
    assert (Hin : In g (rgs_with_osr st)).
    { apply Hrwo. repeat split; [exact Hg | now apply round_count_le |].
      now rewrite <- Hosr. }
    destruct (rg_in rg (rgs_with_osr st) && (Py.len osr_in_rg =? 1)) eqn:E;
      [| exact Hin].
    apply andb_true_iff in E. destruct E as [Ein Elen].
    apply (rg_remove_In Hids); try assumption. split; [exact Hin |].
    intros ->. destruct Hhas as (x & Hx & Ho). apply round_osr_after in Ho.
    destruct Ho as [Ho Hxb].
    assert (Hxin : In x osr_in_rg) by (apply round_osr_in_rg; auto).
    assert (Hbin : In b osr_in_rg).
    { apply round_victim_out_of_sync. intros Enil. rewrite Enil in Hxin.
      destruct Hxin. }
    apply Z.eqb_eq in Elen. unfold Py.len in Elen.
    destruct osr_in_rg as [| y [| z l]]; cbn in Elen; try lia.
    destruct Hxin as [<- | []], Hbin as [<- | []]. congruence.
  - (* NoDup non_empty_rgs *)
    destruct (count_replica t' rg n =? 0); [| exact Hnd_ne].
    now apply (rg_remove_NoDup Hids).
  - (* NoDup rgs_with_osr *)
    destruct (rg_in rg (rgs_with_osr st) && (Py.len osr_in_rg =? 1));
      [| exact Hnd_rwo].
    now apply (rg_remove_NoDup Hids).
Qed.
End Round.

(** One round on a well-formed topology whose partition still has a
    replica: the round returns, one replica is dropped, and the lists are
    again as claimed. *)
Lemma remove_replica_round_spec t n osr0 st :
  well_formed t n ->
  round_invariant t n osr0 st ->
  replicas_of t n <> [] ->
  exists b st',
    remove_replica_round n st t
    = mkResult [] (drop_replica b n t) (Return st') /\
    In b (replicas_of t n) /\
    round_invariant (drop_replica b n t) n osr0 st'.
Proof.
  intros Hwf Hinv Hrep.
  pose proof Hinv as ((Hosr & Hne & Hrwo) & Hnd_ne & Hnd_rwo).
  assert (Hne_nonempty : non_empty_rgs st <> []).
  { destruct (nonempty_in Hrep) as [b0 Hb0].
    destruct (wf_replicas_grouped Hwf b0 Hb0) as (g & Hg & Hbg).
    assert (Hin : In g (non_empty_rgs st)).
    { apply Hne. split; [exact Hg |]. apply count_replica_positive.
      exists b0. split; [exact Hbg | now apply (wf_replicas Hwf)]. }
    intros E. rewrite E in Hin. destruct Hin. }
  assert (Hincl : incl (rgs_with_osr st) (non_empty_rgs st)).
  { intros g Hg. apply Hne. apply Hrwo in Hg. tauto. }
  destruct (@removal_choice_spec t n st Hne_nonempty Hincl)
    as (rg & Hchoice & Hrg_ne).
  apply Hne in Hrg_ne. destruct Hrg_ne as [Hrg Hpos].
  destruct (@rg_remove_replica_spec t rg n
              (filter (fun x => id_in x (osr st)) (rg_brokers rg)) Hpos)
    as (b & Hrun & Hbg & Hbp & Hbosr).
  exists b. eexists. split; [| split].
  - unfold remove_replica_round. rewrite bind_get, Hchoice.
    erewrite bind_returned by exact Hrun. rewrite bind_get.
    cbn [trace final out ret app]. reflexivity.
  - now apply (wf_replicas Hwf).
  - now apply round_invariant_after.
Qed.

Lemma removal_init_invariant t n osr0 :
  well_formed t n ->
  (forall id, In id osr0 -> In id (replicas_of t n)) ->
  round_invariant t n osr0 (removal_init t n osr0).
Proof.
  intros Hwf Hosr0.
  assert (Hall : osr_replicas t n osr0 = osr0).
  { unfold osr_replicas. apply filter_all. intros x Hx.
    apply id_in_In. now apply Hosr0. }
  assert (Hnd : NoDup (rgs t)).
  { apply NoDup_map_inv with (f := rg_ident). exact (wf_group_ids Hwf). }
  unfold round_invariant, lists_as_claimed, removal_init.
  cbn [osr non_empty_rgs rgs_with_osr]. rewrite Hall.
  split; [split; [reflexivity | split] | split].
  - intros g. rewrite filter_In, Z.ltb_lt. tauto.
  - intros g. rewrite !filter_In, Z.ltb_lt, existsb_exists.
    split.
    + intros ((Hg & Hpos) & x & Hx & Ho). apply id_in_In in Ho.
      repeat split; try assumption. now exists x.
    + intros (Hg & Hpos & x & Hx & Ho). repeat split; try assumption.
      exists x. split; [exact Hx | now apply id_in_In].
  - now apply NoDup_filter.
  - now apply NoDup_filter, NoDup_filter.
Qed.

Lemma remove_replica_rounds_spec n osr0 count :
  forall t st,
    well_formed t n ->
    round_invariant t n osr0 st ->
    (count < List.length (replicas_of t n))%nat ->
    exists t' st',
      remove_replica_rounds n count st t = mkResult [] t' (Return st') /\
      well_formed t' n /\
      round_invariant t' n osr0 st' /\
      (List.length (replicas_of t' n) + count = List.length (replicas_of t n))%nat.
Proof.
  induction count as [| k IH]; intros t st Hwf Hinv Hlen.
  - exists t, st.
    split; [reflexivity | split; [exact Hwf | split; [exact Hinv | lia]]].
  - assert (Hrep : replicas_of t n <> []).
    { intros E. rewrite E in Hlen. cbn in Hlen. lia. }
    destruct (remove_replica_round_spec Hwf Hinv Hrep)
      as (b & st1 & Hrun & Hb & Hinv1).
    pose proof (@length_remove_id b (replicas_of t n)
                  (wf_replicas_distinct Hwf) Hb) as Hlen1.
    rewrite <- replicas_of_drop in Hlen1.
    destruct (IH (drop_replica b n t) st1) as (t' & st' & Hrun' & Hwf' & Hinv' & Hlen').
    + now apply well_formed_drop.
    + exact Hinv1.
    + unfold broker_id in *. lia.
    + exists t', st'.
      split; [| split; [exact Hwf' | split; [exact Hinv' |]]];
        [| unfold broker_id in *; lia].
      cbn [remove_replica_rounds]. erewrite bind_returned by exact Hrun.
      rewrite Hrun'. reflexivity.
Qed.

Lemma collect_osr_replicas t n ids :
  well_formed t n ->
  (forall id, In id ids -> In id (replicas_of t n)) ->
  collect_osr t ids = Some ids.
Proof.
  intros Hwf. induction ids as [| i ids IH]; intros H; [reflexivity |].
  cbn [collect_osr].
  assert (Hi : In n (partitions_of t i)).
  { apply (wf_replicas Hwf). apply H. now left. }
  unfold partitions_of in Hi.
  destruct (find_broker t i) as [b |] eqn:E; [| destruct Hi].
  rewrite IH by (intros id Hid; apply H; now right).
  now rewrite (find_broker_id _ _ E).
Qed.

(** C4, amended: on a well-formed topology, when every id of
    osr_broker_ids names a broker that replicates the partition (what the
    docstring asks of that argument) and count is below the replication
    factor, every round starts from lists that are as claimed: [osr] is
    the brokers of osr_broker_ids that currently replicate the partition,
    [non_empty_rgs] the groups that currently hold it, and [rgs_with_osr]
    those of them with at least one such out-of-sync replica. *)
Theorem remove_replica_lists_in_every_round (t : ClusterTopology)
  (partition_name : pname) (osr_broker_ids : list broker_id)
  (count rounds : nat) :
  well_formed t partition_name ->
  (forall id, In id osr_broker_ids -> In id (replicas_of t partition_name)) ->
  Z.of_nat count < replication_factor t partition_name ->
  (rounds <= count)%nat ->
  collect_osr t osr_broker_ids = Some osr_broker_ids /\
  exists t' st,
    remove_replica_rounds partition_name rounds
      (removal_init t partition_name osr_broker_ids) t
    = mkResult [] t' (Return st) /\
    lists_as_claimed t' partition_name osr_broker_ids st.
Proof.
  intros Hwf Hosr Hcount Hrounds.
  split; [now apply collect_osr_replicas with (n := partition_name) |].
  destruct (@remove_replica_rounds_spec partition_name osr_broker_ids rounds t
              (removal_init t partition_name osr_broker_ids))
    as (t' & st & Hrun & _ & (Hlists & _) & _).
  - exact Hwf.
  - now apply removal_init_invariant.
  - unfold replication_factor, Py.len in Hcount. lia.
  - exists t', st. split; [exact Hrun | exact Hlists].
Qed.

Ltac by_broker_id b :=
  repeat match goal with
         | |- context [Z.eqb ?x b] => destruct (Z.eqb_spec x b); subst
         | H : context [Z.eqb ?x b] |- _ => destruct (Z.eqb_spec x b); subst
         end.

Ltac concrete_group_facts :=
  repeat match goal with
         | H : In _ (_ :: _) |- _ => destruct H as [H | H]; [subst |]
         | H : _ \/ _ |- _ => destruct H as [H | H]; [subst |]
         | H : In _ [] |- _ => destruct H
         | H : False |- _ => destruct H
         | H : _ = _ |- _ => discriminate H
         end.

Ltac concrete_nodup :=
  cbn; repeat (apply NoDup_cons; [cbn; intuition (discriminate || lia) |]);
  apply NoDup_nil.

Lemma cluster_tie_well_formed : well_formed cluster_tie ("t", 0).
Proof.
  constructor.
  - concrete_nodup.
  - intros g Hg. cbn in Hg. concrete_group_facts; concrete_nodup.
  - intros g1 g2 b H1 H2 Hb1 Hb2. cbn in H1, H2.
    concrete_group_facts; try reflexivity; cbn in Hb1, Hb2;
      concrete_group_facts; lia.
  - intros b. unfold partitions_of, find_broker, cluster_tie.
    cbn [brokers find b_id]. split.
    + intros H. cbn in H. concrete_group_facts; cbn; auto.
    + by_broker_id b; cbn; intros H; concrete_group_facts; auto.
  - concrete_nodup.
  - intros b H. cbn in H. concrete_group_facts.
    + exists (mkRG "rg1" [1; 2]). cbn. auto.
    + exists (mkRG "rg2" [3; 4]). cbn. auto.
Qed.

Lemma remove_replica_lists_in_every_round_witness :
  collect_osr cluster_tie [3] = Some [3] /\
  exists t' st,
    remove_replica_rounds ("t", 0) 1 (removal_init cluster_tie ("t", 0) [3])
      cluster_tie
    = mkResult [] t' (Return st) /\
    lists_as_claimed t' ("t", 0) [3] st.
Proof.
  apply (@remove_replica_lists_in_every_round cluster_tie ("t", 0) [3] 1 1).
  - exact cluster_tie_well_formed.
  - intros id [<- | []]. cbn. auto.
  - reflexivity.
  - lia.
Defined.

Lemma cluster_two_groups_well_formed : well_formed cluster_two_groups ("t", 0).
Proof.
  constructor.
  - concrete_nodup.
  - intros g Hg. cbn in Hg. concrete_group_facts; concrete_nodup.
  - intros g1 g2 b H1 H2 Hb1 Hb2. cbn in H1, H2.
    concrete_group_facts; try reflexivity; cbn in Hb1, Hb2;
      concrete_group_facts; lia.
  - intros b. unfold partitions_of, find_broker, cluster_two_groups.
    cbn [brokers find b_id]. split.
    + intros H. cbn in H. concrete_group_facts; cbn; auto.
    + by_broker_id b; cbn; intros H; concrete_group_facts; auto.
  - concrete_nodup.
  - intros b H. cbn in H. concrete_group_facts.
    + exists (mkRG "rg1" [1; 2]). cbn. auto.
    + exists (mkRG "rg2" [3; 4]). cbn. auto.
Qed.

(** C4 as stated fails: broker 2 is a broker of the topology that does not
    replicate (t, 0).  Named in osr_broker_ids it stays in [osr] for the
    first round and makes its group rg1 a preferred group; the replica is
    then removed from rg1, while with no out-of-sync replica, which is
    what the claim's set is here, the removal is from rg2. *)
Lemma remove_replica_lists_counterexample :
  well_formed cluster_two_groups ("t", 0) /\
  collect_osr cluster_two_groups [2] = Some [2] /\
  osr_replicas cluster_two_groups ("t", 0) [2] = [] /\
  osr (removal_init cluster_two_groups ("t", 0) [2]) = [2] /\
  rgs_with_osr (removal_init cluster_two_groups ("t", 0) [2])
    = [mkRG "rg1" [1; 2]] /\
  ~ lists_as_claimed cluster_two_groups ("t", 0) [2]
      (removal_init cluster_two_groups ("t", 0) [2]) /\
  replicas_of (final (remove_replica ("t", 0) [2] 1 cluster_two_groups)) ("t", 0)
    = [3] /\
  replicas_of (final (remove_replica ("t", 0) [] 1 cluster_two_groups)) ("t", 0)
    = [1].
Proof.
  split; [exact cluster_two_groups_well_formed |].
  repeat (split; [reflexivity |]).
  split; [| split; reflexivity].
  intros [Hosr _]. discriminate Hosr.
Qed.

(** ** Further properties of the code *)

(** *** move_partition_replica: the broker pair *)

Lemma min_in {A} (key : A -> Z) l x : Py.min key l = Some x -> In x l.
Proof.
  intros H. destruct (min_first _ _ H) as (b & a & -> & _).
  apply in_or_app. right. now left.
Qed.

Lemma min_least {A} (key : A -> Z) l x :
  Py.min key l = Some x -> forall y, In y l -> key x <= key y.
Proof.
  intros H y Hy. destruct (min_first _ _ H) as (b & a & -> & Hb & Ha).
  apply in_app_or in Hy. destruct Hy as [Hy | [<- | Hy]].
  - specialize (Hb y Hy). lia.
  - lia.
  - now apply Ha.
Qed.

Lemma max_greatest {A} (key : A -> Z) l x :
  Py.max key l = Some x -> forall y, In y l -> key y <= key x.
Proof.
  intros H y Hy. destruct (max_first _ _ H) as (b & a & -> & Hb & Ha).
  apply in_app_or in Hy. destruct Hy as [Hy | [<- | Hy]].
  - specialize (Hb y Hy). lia.
  - lia.
  - now apply Ha.
Qed.

Lemma in_holders t g n x :
  In x (holders t g n) <-> In x (rg_brokers g) /\ In n (partitions_of t x).
Proof. unfold holders. rewrite filter_In, pname_in_In. tauto. Qed.

Lemma in_non_holders t g n x :
  In x (non_holders t g n) <-> In x (rg_brokers g) /\ ~ In n (partitions_of t x).
Proof.
  unfold non_holders. rewrite filter_In, negb_true_iff.
  rewrite <- pname_in_In. destruct (pname_in n (partitions_of t x)); intuition congruence.
Qed.

(** X1: move_partition_replica either finds no broker pair, raises
    ValueError and leaves the topology alone, or makes exactly one move:
    from a broker of the over-loaded group that holds the partition and has
    the most partitions among those, to a broker of the under-loaded group
    that does not hold it and has the fewest partitions among those. *)
Theorem move_partition_replica_outcome (over_rg under_rg : ReplicationGroup)
  (partition : pname) (t : ClusterTopology) :
  ((holders t over_rg partition = [] \/ non_holders t under_rg partition = []) /\
   move_partition_replica over_rg under_rg partition t
   = mkResult [] t (Raise ValueError)) \/
  (exists source dest,
      move_partition_replica over_rg under_rg partition t
      = mkResult [Moved over_rg under_rg partition source dest t]
          (broker_move_partition source partition dest t) (Return tt) /\
      In source (rg_brokers over_rg) /\
      In partition (partitions_of t source) /\
      (forall x, In x (rg_brokers over_rg) -> In partition (partitions_of t x) ->
                 Py.len (partitions_of t x) <= Py.len (partitions_of t source)) /\
      In dest (rg_brokers under_rg) /\
      ~ In partition (partitions_of t dest) /\
      (forall x, In x (rg_brokers under_rg) -> ~ In partition (partitions_of t x) ->
                 Py.len (partitions_of t dest) <= Py.len (partitions_of t x))).
Proof.
  unfold move_partition_replica, _get_eligible_broker_pair.
  destruct (Py.max (fun b => Py.len (partitions_of t b))
                   (holders t over_rg partition)) as [s |] eqn:Es.
  - destruct (Py.min (fun b => Py.len (partitions_of t b))
                     (non_holders t under_rg partition)) as [d |] eqn:Ed.
    + right. exists s, d. split.
      { erewrite bind_returned
          by (rewrite bind_get, Es, Ed; reflexivity).
        reflexivity. }
      pose proof (max_in _ _ Es) as Hs. apply in_holders in Hs.
      pose proof (min_in _ _ Ed) as Hd. apply in_non_holders in Hd.
      repeat split; try tauto.
      * intros x Hx Hp. apply (max_greatest _ _ Es). apply in_holders. tauto.
      * intros x Hx Hp. apply (min_least _ _ Ed). apply in_non_holders. tauto.
    + left. split.
      * right. destruct (non_holders t under_rg partition); [reflexivity |].
        discriminate Ed.
      * apply bind_raise. rewrite bind_get, Es, Ed. reflexivity.
  - left. split.
    + left. destruct (holders t over_rg partition); [reflexivity | discriminate Es].
    + apply bind_raise. rewrite bind_get, Es. reflexivity.
Qed.

(** *** The second pass: where replicas come from and go to *)

Lemma move_partition_replica_placed o u p t :
  move_partition_replica o u p t = mkResult [] t (Raise ValueError) \/
  exists s d,
    move_partition_replica o u p t
    = mkResult [Moved o u p s d t] (broker_move_partition s p d t) (Return tt) /\
    In s (holders t o p) /\ In d (non_holders t u p).
Proof.
  unfold move_partition_replica, _get_eligible_broker_pair.
  destruct (Py.max (fun b => Py.len (partitions_of t b)) (holders t o p))
    as [s |] eqn:Es.
  - destruct (Py.min (fun b => Py.len (partitions_of t b)) (non_holders t u p))
      as [d |] eqn:Ed.
    + right. exists s, d. split; [| split].
      * erewrite bind_returned by (rewrite bind_get, Es, Ed; reflexivity).
        reflexivity.
      * eapply max_in, Es.
      * eapply min_in, Ed.
    + left. apply bind_raise. rewrite bind_get, Es, Ed. reflexivity.
  - left. apply bind_raise. rewrite bind_get, Es. reflexivity.
Qed.

Lemma for_each_Forall_in {A} (P : event -> Prop) (body : A -> M unit) l :
  (forall x, In x l -> forall t, Forall P (trace (body x t))) ->
  forall t, Forall P (trace (for_each l body t)).
Proof.
  induction l as [| x l IH]; intros Hbody t.
  - constructor.
  - cbn [for_each]. apply bind_Forall.
    + apply Hbody. now left.
    + intros _. apply IH. intros y Hy. apply Hbody. now right.
Qed.

Section Placement.
Variables overs unders : list ReplicationGroup.

Lemma move_eligible_placed o u opt todo :
  In o overs -> In u unders ->
  forall t, Forall (well_placed overs unders) (trace (move_eligible o u opt todo t)).
Proof.
  intros Ho Hu. induction todo as [| p rest IH]; intros t.
  - constructor.
  - cbn [move_eligible]. rewrite bind_get.
    destruct (1 <? _); [| constructor].
    destruct (move_partition_replica_placed o u p t)
      as [Hr | (s & d & Hr & Hs & Hd)];
      [erewrite bind_raise by exact Hr | erewrite bind_returned by exact Hr];
      cbn [out final trace].
    + constructor.
    + rewrite bind_get. cbn [app]. constructor.
      * apply in_holders in Hs. apply in_non_holders in Hd.
        cbn [well_placed]. tauto.
      * destruct (_ || _); [constructor | apply IH].
Qed.

Lemma balance_against_placed o opt us :
  In o overs -> incl us unders ->
  forall t, Forall (well_placed overs unders) (trace (balance_against o opt us t)).
Proof.
  intros Ho. induction us as [| u rest IH]; intros Hus t.
  - constructor.
  - cbn [balance_against]. rewrite bind_get. apply bind_Forall.
    + apply move_eligible_placed; [exact Ho | apply Hus; now left].
    + intros _. rewrite bind_get. destruct (_ =? _); [constructor |].
      apply IH. intros y Hy. apply Hus. now right.
Qed.
End Placement.

Lemma in_insert_desc {A} (key : A -> Z) x y l :
  In y (Py.insert_desc key x l) <-> y = x \/ In y l.
Proof.
  induction l as [| z l IH]; cbn [Py.insert_desc].
  - simpl. intuition congruence.
  - destruct (key z <=? key x); simpl; [intuition congruence |].
    rewrite IH. simpl. intuition congruence.
Qed.

Lemma in_sorted_reverse {A} (key : A -> Z) y l :
  In y (Py.sorted_reverse key l) <-> In y l.
Proof.
  induction l as [| x l IH]; [reflexivity |].
  cbn [Py.sorted_reverse fold_right]. rewrite in_insert_desc.
  fold (Py.sorted_reverse key l). rewrite IH. simpl. intuition congruence.
Qed.

Lemma in_skipn {A} (x : A) k l : In x (skipn k l) -> In x l.
Proof.
  revert l. induction k as [| k IH]; intros l H; [exact H |].
  destruct l as [| a l]; [exact H |]. right. now apply IH.
Qed.

(** The two lists of separate_groups hold items of the input only. *)
Lemma separate_groups_incl {A} (items : list A) load total over under :
  separate_groups items load total = Some (over, under) ->
  incl over items /\ incl under items.
Proof.
  unfold separate_groups.
  destruct (compute_optimum (Py.len items) total) as [[q r] |]; [| discriminate].
  intros H. injection H as <- <-. split; intros x Hx.
  - apply in_app_or in Hx. destruct Hx as [Hx | Hx].
    + apply filter_In in Hx. now apply in_sorted_reverse with (key := load).
    + apply in_skipn, filter_In in Hx. now apply in_sorted_reverse with (key := load).
  - apply in_sorted, filter_In in Hx. tauto.
Qed.

(** X2: every move of the second pass goes from a group that was found
    over-loaded to a group that was found under-loaded, both groups of the
    topology; it takes the replica from a broker of the first group that
    holds the partition and gives it to a broker of the second group that
    does not hold it. *)
Theorem second_pass_moves_are_well_placed (t : ClusterTopology) :
  match separate_groups (rgs t) (rg_load t)
          (Py.sum (map (rg_load t) (rgs t))) with
  | Some (over_loaded_rgs, under_loaded_rgs) =>
      incl over_loaded_rgs (rgs t) /\ incl under_loaded_rgs (rgs t) /\
      Forall (well_placed over_loaded_rgs under_loaded_rgs)
             (trace (_rebalance_groups_partition_cnt t))
  | None => trace (_rebalance_groups_partition_cnt t) = []
  end.
Proof.
  unfold _rebalance_groups_partition_cnt. rewrite bind_get.
  destruct (separate_groups _ _ _) as [[overs unders] |] eqn:E; [| reflexivity].
  destruct (separate_groups_incl _ _ _ E) as [Ho Hu].
  split; [exact Ho | split; [exact Hu |]].
  destruct (_ && _); [| constructor].
  destruct (compute_optimum _ _) as [[opt r] |]; [| constructor].
  apply for_each_Forall_in. intros o Hin u.
  apply balance_against_placed; [exact Hin | apply incl_refl].
Qed.

(** *** Python's sorted *)

Section SortedLists.
Variable A : Type.
Variable key : A -> Z.

Let ascending (a b : A) : Prop := key a <= key b.
Let descending (a b : A) : Prop := key b <= key a.

Lemma insert_asc_perm x l : Permutation (x :: l) (Py.insert_asc key x l).
Proof.
  induction l as [| y l IH]; cbn [Py.insert_asc]; [reflexivity |].
  destruct (key x <=? key y); [reflexivity |].
  rewrite perm_swap. now constructor.
Qed.

Lemma insert_desc_perm x l : Permutation (x :: l) (Py.insert_desc key x l).
Proof.
  induction l as [| y l IH]; cbn [Py.insert_desc]; [reflexivity |].
  destruct (key y <=? key x); [reflexivity |].
  rewrite perm_swap. now constructor.
Qed.

Lemma sorted_perm l : Permutation l (Py.sorted key l).
Proof.
  induction l as [| x l IH]; [constructor |].
  cbn [Py.sorted fold_right]. fold (Py.sorted key l).
  rewrite <- insert_asc_perm. now constructor.
Qed.

Lemma sorted_reverse_perm l : Permutation l (Py.sorted_reverse key l).
Proof.
  induction l as [| x l IH]; [constructor |].
  cbn [Py.sorted_reverse fold_right]. fold (Py.sorted_reverse key l).
  rewrite <- insert_desc_perm. now constructor.
Qed.

Lemma insert_asc_sorted x l :
  StronglySorted ascending l -> StronglySorted ascending (Py.insert_asc key x l).
Proof.
  induction 1 as [| y l Hs IH Hy]; cbn [Py.insert_asc].
  - repeat constructor.
  - destruct (key x <=? key y) eqn:E.
    + apply Z.leb_le in E. constructor; [now constructor |].
      constructor; [exact E |].
      apply Forall_impl with (P := ascending y); [| exact Hy].
      unfold ascending. intros a Ha. lia.
    + apply Z.leb_gt in E. constructor; [exact IH |].
      apply Forall_forall. intros a Ha. apply in_insert_asc in Ha.
      destruct Ha as [-> | Ha]; [unfold ascending; lia |].
      rewrite Forall_forall in Hy. now apply Hy.
Qed.

Lemma insert_desc_sorted x l :
  StronglySorted descending l -> StronglySorted descending (Py.insert_desc key x l).
Proof.
  induction 1 as [| y l Hs IH Hy]; cbn [Py.insert_desc].
  - repeat constructor.
  - destruct (key y <=? key x) eqn:E.
    + apply Z.leb_le in E. constructor; [now constructor |].
      constructor; [exact E |].
      apply Forall_impl with (P := descending y); [| exact Hy].
      unfold descending. intros a Ha. lia.
    + apply Z.leb_gt in E. constructor; [exact IH |].
      apply Forall_forall. intros a Ha. apply in_insert_desc in Ha.
      destruct Ha as [-> | Ha]; [unfold descending; lia |].
      rewrite Forall_forall in Hy. now apply Hy.
Qed.

Lemma sorted_is_sorted l : StronglySorted ascending (Py.sorted key l).
Proof.
  induction l as [| x l IH]; [constructor |].
  cbn [Py.sorted fold_right]. now apply insert_asc_sorted.
Qed.

Lemma sorted_reverse_is_sorted l :
  StronglySorted descending (Py.sorted_reverse key l).
Proof.
  induction l as [| x l IH]; [constructor |].
  cbn [Py.sorted_reverse fold_right]. now apply insert_desc_sorted.
Qed.
End SortedLists.

Lemma strongly_sorted_after {A} (R : A -> A -> Prop) l1 x l2 :
  StronglySorted R (l1 ++ x :: l2) -> Forall (R x) l2.
Proof.
  induction l1 as [| a l1 IH]; cbn [app]; intros H.
  - now apply StronglySorted_inv in H.
  - apply StronglySorted_inv in H. now apply IH.
Qed.

(** X3: _select_over_loaded_brokers returns the brokers of the group that
    hold the partition, each once, with partition counts descending;
    select_under_loaded_brokers returns those that do not hold it, with
    partition counts ascending. *)
Theorem selected_brokers_are_sorted (t : ClusterTopology) (g : ReplicationGroup)
  (victim_partition : pname) :
  Permutation (holders t g victim_partition)
              (_select_over_loaded_brokers t g victim_partition) /\
  StronglySorted (fun a b => Py.len (partitions_of t b) <= Py.len (partitions_of t a))
                 (_select_over_loaded_brokers t g victim_partition) /\
  Permutation (non_holders t g victim_partition)
              (select_under_loaded_brokers t g victim_partition) /\
  StronglySorted (fun a b => Py.len (partitions_of t a) <= Py.len (partitions_of t b))
                 (select_under_loaded_brokers t g victim_partition).
Proof.
  unfold _select_over_loaded_brokers, select_under_loaded_brokers.
  split; [apply sorted_reverse_perm |].
  split; [apply sorted_reverse_is_sorted |].
  split; [apply sorted_perm | apply sorted_is_sorted].
Qed.

(** *** move_partition: the elected brokers *)

Lemma map_split_at {A B} (f : A -> B) l before y after :
  map f l = before ++ y :: after ->
  exists l1 x l2,
    l = l1 ++ x :: l2 /\ map f l1 = before /\ f x = y /\ map f l2 = after.
Proof.
  revert before. induction l as [| a l IH]; intros before H.
  - destruct before; discriminate H.
  - destruct before as [| b before]; cbn in H.
    + injection H as Hy Hafter. exists [], a, l. auto.
    + injection H as Hb Hrest.
      destruct (IH _ Hrest) as (l1 & x & l2 & -> & <- & <- & <-).
      exists (a :: l1), x, l2. cbn. rewrite Hb. auto.
Qed.

Section Elect.
Variable t : ClusterTopology.
Variable victim_partition : pname.

Let topic_count (b : broker_id) : Z := count_partitions t b (fst victim_partition).

Lemma elect_source_first l s :
  _elect_source_broker t l victim_partition = Some s ->
  exists l1 l2,
    l = l1 ++ s :: l2 /\
    (forall x, In x l1 -> topic_count x < topic_count s) /\
    (forall x, In x l2 -> topic_count x <= topic_count s).
Proof.
  unfold _elect_source_broker.
  destruct (Py.max snd _) as [[b c] |] eqn:E; [| discriminate].
  cbn [option_map fst]. intros H. injection H as ->.
  destruct (max_first _ _ E) as (before & after & Hmap & Hb & Ha).
  apply map_split_at in Hmap.
  destruct Hmap as (l1 & x & l2 & -> & <- & Hx & <-).
  injection Hx as Hxs Hc. subst x c. exists l1, l2. split; [reflexivity |]. split.
  - intros y Hy. apply (Hb (y, topic_count y)).
    apply in_map_iff. now exists y.
  - intros y Hy. apply (Ha (y, topic_count y)).
    apply in_map_iff. now exists y.
Qed.

Lemma elect_dest_first l d :
  _elect_dest_broker t l victim_partition = Some d ->
  exists l1 l2,
    l = l1 ++ d :: l2 /\
    (forall x, In x l1 -> topic_count d < topic_count x) /\
    (forall x, In x l2 -> topic_count d <= topic_count x).
Proof.
  unfold _elect_dest_broker.
  destruct (Py.min snd _) as [[b c] |] eqn:E; [| discriminate].
  cbn [option_map fst]. intros H. injection H as ->.
  destruct (min_first _ _ E) as (before & after & Hmap & Hb & Ha).
  apply map_split_at in Hmap.
  destruct Hmap as (l1 & x & l2 & -> & <- & Hx & <-).
  injection Hx as Hxs Hc. subst x c. exists l1, l2. split; [reflexivity |]. split.
  - intros y Hy. apply (Hb (y, topic_count y)).
    apply in_map_iff. now exists y.
  - intros y Hy. apply (Ha (y, topic_count y)).
    apply in_map_iff. now exists y.
Qed.

Lemma elect_source_none l :
  _elect_source_broker t l victim_partition = None -> l = [].
Proof.
  unfold _elect_source_broker. destruct l as [| a l]; [reflexivity |].
  cbn [map Py.max option_map]. discriminate.
Qed.

Lemma elect_dest_none l :
  _elect_dest_broker t l victim_partition = None -> l = [].
Proof.
  unfold _elect_dest_broker. destruct l as [| a l]; [reflexivity |].
  cbn [map Py.min option_map]. discriminate.
Qed.
End Elect.

Lemma perm_nil_inv {A} (l : list A) : Permutation l [] -> l = [].
Proof. intros H. apply Permutation_sym in H. now apply Permutation_nil. Qed.

(** X4: _select_broker_pair raises ValueError exactly when no broker of the
    source group holds the partition or every broker of the destination
    group does.  Otherwise the source is a holder with the most partitions
    of the victim's topic, and among the holders with as many, one with the
    most partitions overall; the destination is a non-holder with the
    fewest partitions of that topic, and among those, one with the fewest
    partitions overall.  The topology is not touched. *)
Theorem select_broker_pair_outcome (g rg_destination : ReplicationGroup)
  (victim_partition : pname) (t : ClusterTopology) :
  ((holders t g victim_partition = [] \/
    non_holders t rg_destination victim_partition = []) /\
   _select_broker_pair g rg_destination victim_partition t
   = mkResult [] t (Raise ValueError)) \/
  (exists source dest,
      _select_broker_pair g rg_destination victim_partition t
      = mkResult [] t (Return (source, dest)) /\
      In source (holders t g victim_partition) /\
      (forall x, In x (holders t g victim_partition) ->
         count_partitions t x (fst victim_partition)
           <= count_partitions t source (fst victim_partition) /\
         (count_partitions t x (fst victim_partition)
            = count_partitions t source (fst victim_partition) ->
          Py.len (partitions_of t x) <= Py.len (partitions_of t source))) /\
      In dest (non_holders t rg_destination victim_partition) /\
      (forall x, In x (non_holders t rg_destination victim_partition) ->
         count_partitions t dest (fst victim_partition)
           <= count_partitions t x (fst victim_partition) /\
         (count_partitions t x (fst victim_partition)
            = count_partitions t dest (fst victim_partition) ->
          Py.len (partitions_of t dest) <= Py.len (partitions_of t x)))).
Proof.
  unfold _select_broker_pair. rewrite bind_get.
  pose proof (sorted_reverse_perm (fun b => Py.len (partitions_of t b))
                (holders t g victim_partition)) as Hpo.
  pose proof (sorted_reverse_is_sorted (fun b => Py.len (partitions_of t b))
                (holders t g victim_partition)) as Hso.
  pose proof (sorted_perm (fun b => Py.len (partitions_of t b))
                (non_holders t rg_destination victim_partition)) as Hpu.
  pose proof (sorted_is_sorted (fun b => Py.len (partitions_of t b))
                (non_holders t rg_destination victim_partition)) as Hsu.
  fold (_select_over_loaded_brokers t g victim_partition) in Hpo, Hso.
  fold (select_under_loaded_brokers t rg_destination victim_partition) in Hpu, Hsu.
  destruct (_elect_source_broker t _ victim_partition) as [s |] eqn:Es.
  - destruct (_elect_dest_broker t _ victim_partition) as [d |] eqn:Ed.
    + right. exists s, d. split; [reflexivity |].
      apply elect_source_first in Es. destruct Es as (o1 & o2 & Ho & Ho1 & Ho2).
      apply elect_dest_first in Ed. destruct Ed as (u1 & u2 & Hu & Hu1 & Hu2).
      rewrite Ho in Hpo, Hso. rewrite Hu in Hpu, Hsu.
      apply strongly_sorted_after in Hso, Hsu.
      rewrite Forall_forall in Hso, Hsu.
      split; [| split; [| split]].
      * apply Permutation_sym in Hpo. apply (Permutation_in _ Hpo).
        apply in_or_app. right. now left.
      * intros x Hx. apply (Permutation_in _ Hpo) in Hx.
        apply in_app_or in Hx. destruct Hx as [Hx | [<- | Hx]].
        -- specialize (Ho1 x Hx). split; lia.
        -- split; lia.
        -- split; [now apply Ho2 | intros _; now apply Hso].
      * apply Permutation_sym in Hpu. apply (Permutation_in _ Hpu).
        apply in_or_app. right. now left.
      * intros x Hx. apply (Permutation_in _ Hpu) in Hx.
        apply in_app_or in Hx. destruct Hx as [Hx | [<- | Hx]].
        -- specialize (Hu1 x Hx). split; lia.
        -- split; lia.
        -- split; [now apply Hu2 | intros _; now apply Hsu].
    + left. split; [| reflexivity]. right.
      apply elect_dest_none in Ed. rewrite Ed in Hpu. now apply perm_nil_inv.
  - left. split; [| reflexivity]. left.
    apply elect_source_none in Es. rewrite Es in Hpo. now apply perm_nil_inv.
Qed.

(** *** decommission_brokers with known ids *)

Lemma groups_add_spec t id groups g :
  In g (groups_add t id groups) ->
  In g groups \/ (In g (rgs t) /\ rg_ident g = id).
Proof.
  unfold groups_add. destruct (find_rg t id) as [g' |] eqn:E; [| now left].
  destruct (rg_in g' groups); [now left |].
  intros H. apply in_app_or in H. destruct H as [H | [<- | []]]; [now left |].
  right. unfold find_rg in E. apply find_some in E.
  destruct E as [Hin Heq]. apply String.eqb_eq in Heq. auto.
Qed.

Lemma groups_add_keys t id groups :
  NoDup (map rg_ident groups) -> NoDup (map rg_ident (groups_add t id groups)).
Proof.
  intros Hnd. unfold groups_add. destruct (find_rg t id) as [g |]; [| exact Hnd].
  destruct (rg_in g groups) eqn:E; [exact Hnd |].
  rewrite map_app. cbn [map].
  apply Permutation_NoDup with (l := rg_ident g :: map rg_ident groups);
    [apply Permutation_cons_append |].
  constructor; [| exact Hnd]. intros Hx. apply in_map_iff in Hx.
  destruct Hx as (g' & Heq & Hin).
  assert (Ht : rg_in g groups = true).
  { unfold rg_in. apply existsb_exists. exists g'. split; [exact Hin |].
    now apply String.eqb_eq. }
  congruence.
Qed.

Lemma find_broker_mark_some i t id b' :
  find_broker (mark_decommissioned i t) id = Some b' ->
  exists b, find_broker t id = Some b /\
            b_replication_group b' = b_replication_group b.
Proof.
  unfold mark_decommissioned. rewrite find_broker_update by reflexivity.
  destruct (find_broker t id) as [b |]; [| discriminate].
  cbn [option_map]. intros H. injection H as <-. exists b. split; [reflexivity |].
  now destruct (b_id b =? i).
Qed.

Lemma marked_step i ids t :
  marked ids (mark_decommissioned i t) = marked (i :: ids) t.
Proof.
  unfold marked, mark_decommissioned, update_broker. cbn [brokers rgs partitions].
  f_equal. rewrite map_map. apply map_ext.
  intros [ai ag an ad ap]. unfold id_in, decommissioned_version.
  cbn [existsb b_id]. destruct (ai =? i); cbn [b_id orb];
    destruct (existsb (Z.eqb ai) ids); reflexivity.
Qed.

Lemma marked_nil t : marked [] t = t.
Proof.
  unfold marked. destruct t as [bs gs ps]. cbn [brokers rgs partitions]. f_equal.
  induction bs as [| x l IH]; [reflexivity | cbn [map]; now rewrite IH].
Qed.

Lemma find_rg_ident t id g : find_rg t id = Some g -> rg_ident g = id.
Proof.
  unfold find_rg. intros H. apply find_some in H. now apply String.eqb_eq.
Qed.

Lemma groups_add_keeps t id groups g :
  In g groups -> In g (groups_add t id groups).
Proof.
  intros H. unfold groups_add. destruct (find_rg t id) as [g' |]; [| exact H].
  destruct (rg_in g' groups); [exact H | apply in_or_app; now left].
Qed.

Lemma groups_add_adds t id groups g :
  collected t groups -> find_rg t id = Some g -> In g (groups_add t id groups).
Proof.
  intros Hcol E. unfold groups_add. rewrite E.
  destruct (rg_in g groups) eqn:Ein; [| apply in_or_app; right; now left].
  unfold rg_in in Ein. apply existsb_exists in Ein.
  destruct Ein as (g' & Hin & Heq). apply String.eqb_eq in Heq.
  specialize (Hcol g' Hin). rewrite Heq, (find_rg_ident _ _ E), E in Hcol.
  injection Hcol as ->. exact Hin.
Qed.

Lemma groups_add_collected t id groups :
  collected t groups -> collected t (groups_add t id groups).
Proof.
  intros Hcol g Hg. unfold groups_add in Hg.
  destruct (find_rg t id) as [g' |] eqn:E; [| now apply Hcol].
  destruct (rg_in g' groups); [now apply Hcol |].
  apply in_app_or in Hg. destruct Hg as [Hg | [<- | []]]; [now apply Hcol |].
  now rewrite (find_rg_ident _ _ E).
Qed.

Lemma mark_brokers_known ids :
  forall groups t,
    (forall id, In id ids -> find_broker t id <> None) ->
    NoDup (map rg_ident groups) ->
    collected t groups ->
    exists groups',
      mark_brokers ids groups t = mkResult [] (marked ids t) (Return groups') /\
      NoDup (map rg_ident groups') /\
      (forall g, In g groups' ->
         In g groups \/
         (In g (rgs t) /\
          exists id b, In id ids /\ find_broker t id = Some b /\
                       rg_ident g = b_replication_group b)) /\
      (forall g, In g groups -> In g groups') /\
      (forall id b g, In id ids -> find_broker t id = Some b ->
                      find_rg t (b_replication_group b) = Some g ->
                      In g groups').
Proof.
  induction ids as [| i ids IH]; intros groups t Hknown Hnd Hcol.
  - exists groups. rewrite marked_nil. split; [reflexivity |].
    split; [exact Hnd |]. split; [auto |]. split; [auto |].
    intros id b g [].
  - cbn [mark_brokers]. rewrite bind_get.
    destruct (find_broker t i) as [b |] eqn:Ei.
    2:{ exfalso. apply (Hknown i); [now left | exact Ei]. }
    rewrite bind_put.
    assert (Hfind : forall id,
               find_broker (mark_decommissioned i t) id
               = option_map (fun x => if b_id x =? i
                                      then mkBroker (b_id x) (b_replication_group x)
                                             (b_inactive x) true (b_partitions x)
                                      else x)
                            (find_broker t id)).
    { intros id. unfold mark_decommissioned.
      now rewrite find_broker_update by reflexivity. }
    destruct (IH (groups_add t (b_replication_group b) groups)
                 (mark_decommissioned i t))
      as (groups' & Hrun & Hnd' & Hin & Hkeep & Hall).
    + intros id Hid Hnone. apply (Hknown id); [now right |].
      rewrite Hfind in Hnone.
      destruct (find_broker t id); [discriminate | reflexivity].
    + now apply groups_add_keys.
    + intros g Hg.
      exact (@groups_add_collected t (b_replication_group b) groups Hcol g Hg).
    + exists groups'. rewrite Hrun, marked_step. split; [reflexivity |].
      split; [exact Hnd' |]. split; [| split].
      * intros g Hg. apply Hin in Hg.
        destruct Hg as [Hg | (Hg & id & b' & Hid & Hb' & Heq)].
        -- apply groups_add_spec in Hg.
           destruct Hg as [Hg | [Hg Heq]]; [now left |].
           right. split; [exact Hg |]. exists i, b. repeat split; auto. now left.
        -- right. split; [exact Hg |].
           apply find_broker_mark_some in Hb'. destruct Hb' as (b0 & Hb0 & Hgrp).
           exists id, b0. repeat split; [now right | exact Hb0 | congruence].
      * intros g Hg. apply Hkeep. now apply groups_add_keeps.
      * intros id b0 g [<- | Hid] Hb0 Hg.
        -- rewrite Ei in Hb0. injection Hb0 as <-.
           apply Hkeep. now apply groups_add_adds.
        -- apply (Hall id (if b_id b0 =? i
                           then mkBroker (b_id b0) (b_replication_group b0)
                                  (b_inactive b0) true (b_partitions b0)
                           else b0) g Hid).
           ++ rewrite Hfind, Hb0. reflexivity.
           ++ destruct (b_id b0 =? i); exact Hg.
Qed.

(** X5: when every id names a broker, decommission_brokers first marks
    all the named brokers, and only them, and then runs the decommission
    of a group over a list of groups, one by one, on the marked topology.
    The list holds the group of every named broker, holds only groups of
    the topology that are the group of a named broker, and holds none
    twice. *)
Theorem decommission_brokers_marks_first
  (rg_rebalance_brokers : ReplicationGroup -> M unit)
  (acquire_partition : ReplicationGroup -> pname -> broker_id -> M unit)
  (broker_ids : list broker_id) (t : ClusterTopology) :
  (forall id, In id broker_ids -> find_broker t id <> None) ->
  exists groups,
    decommission_brokers rg_rebalance_brokers acquire_partition broker_ids t
    = for_each groups
        (_decommission_brokers_in_group rg_rebalance_brokers acquire_partition)
        (marked broker_ids t) /\
    NoDup (map rg_ident groups) /\
    (forall g, In g groups ->
       In g (rgs t) /\
       exists id b, In id broker_ids /\ find_broker t id = Some b /\
                    rg_ident g = b_replication_group b) /\
    (forall id b g, In id broker_ids -> find_broker t id = Some b ->
                    find_rg t (b_replication_group b) = Some g ->
                    In g groups).
Proof.
  intros Hknown.
  destruct (@mark_brokers_known broker_ids [] t Hknown)
    as (groups & Hrun & Hnd & Hin & _ & Hall);
    [constructor | intros g [] |].
  exists groups. split; [| split; [exact Hnd | split; [| exact Hall]]].
  - unfold decommission_brokers. erewrite bind_returned by exact Hrun.
    cbn [app]. now destruct (for_each groups _ _).
  - intros g Hg. apply Hin in Hg. destruct Hg as [[] | Hg]. exact Hg.
Qed.

Lemma decommission_brokers_marks_first_witness :
  exists groups,
    decommission_brokers idle_group idle_acquire [1; 3] cluster_two_groups
    = for_each groups (_decommission_brokers_in_group idle_group idle_acquire)
        (marked [1; 3] cluster_two_groups) /\
    NoDup (map rg_ident groups) /\
    In (mkRG "rg1" [1; 2]) groups /\ In (mkRG "rg2" [3; 4]) groups.
Proof.
  destruct (@decommission_brokers_marks_first idle_group idle_acquire [1; 3]
              cluster_two_groups) as (groups & Hrun & Hnd & _ & Hall).
  - intros id [<- | [<- | []]]; discriminate.
  - exists groups. split; [exact Hrun | split; [exact Hnd |]]. split.
    + apply (Hall 1 (mkBroker 1 "rg1" false false [("t", 0)]));
        [now left | reflexivity | reflexivity].
    + apply (Hall 3 (mkBroker 3 "rg2" false false [("t", 0); ("u", 0)]));
        [right; now left | reflexivity | reflexivity].
Defined.

(** *** Errors of the forced decommission *)

Lemma attempt_raises (m : M unit) e t e' :
  out (attempt m e t) = Raise e' -> e' <> e /\ out (m t) = Raise e'.
Proof.
  unfold attempt. destruct (out (m t)) as [a | e0 | c]; cbn [out].
  - discriminate.
  - destruct (error_eq_dec e e0) as [-> | Hne]; cbn [out]; [discriminate |].
    intros H. injection H as <-. split; [congruence | reflexivity].
  - discriminate.
Qed.

Lemma for_each_raises {A} (body : A -> M unit) l e :
  forall t, out (for_each l body t) = Raise e ->
            exists x t', In x l /\ out (body x t') = Raise e.
Proof.
  induction l as [| x l IH]; intros t H; [discriminate H |].
  cbn [for_each] in H. apply bind_raises in H.
  destruct H as [H | (u & _ & H)].
  - exists x, t. split; [now left | exact H].
  - apply IH in H. destruct H as (y & t' & Hy & Hr).
    exists y, t'. split; [now right | exact Hr].
Qed.

Section Forced.
Variable acquire_partition : ReplicationGroup -> pname -> broker_id -> M unit.

Lemma try_groups_raises groups partition broker e :
  forall t,
    out (try_groups acquire_partition groups partition broker t) = Raise e ->
    e <> NotEligibleGroupError /\
    exists g t', In g groups /\
                 out (acquire_partition g partition broker t') = Raise e.
Proof.
  induction groups as [| g rest IH]; intros t H; [discriminate H |].
  cbn [try_groups] in H. apply bind_raises in H.
  destruct H as [H | (acquired & _ & H)].
  - apply attempt_raises in H. destruct H as [Hne H].
    split; [exact Hne |]. exists g, t. split; [now left | exact H].
  - destruct acquired; [discriminate H |].
    apply IH in H. destruct H as (Hne & g' & t' & Hg & Hr).
    split; [exact Hne |]. exists g', t'. split; [now right | exact Hr].
Qed.

Lemma force_broker_decommission_raises broker e t :
  out (_force_broker_decommission acquire_partition broker t) = Raise e ->
  e <> NotEligibleGroupError /\
  exists g p t', In g (rgs t) /\
                 out (acquire_partition g p (b_id broker) t') = Raise e.
Proof.
  unfold _force_broker_decommission. rewrite bind_get. intros H.
  apply for_each_raises in H. destruct H as (p & t1 & _ & H).
  rewrite bind_get in H. apply try_groups_raises in H.
  destruct H as (Hne & g & t' & Hg & Hr). split; [exact Hne |].
  exists g, p, t'. split; [| exact Hr].
  apply in_sorted, filter_In in Hg. tauto.
Qed.

(** X6: _force_broker_decommission never lets NotEligibleGroupError out,
    whatever acquire_partition does; an error it raises was raised by
    acquire_partition for a group of the topology and the broker at
    hand. *)
Theorem force_broker_decommission_errors (broker : Broker) (t : ClusterTopology)
  (e : error) :
  out (_force_broker_decommission acquire_partition broker t)
    <> Raise NotEligibleGroupError /\
  (out (_force_broker_decommission acquire_partition broker t) = Raise e ->
   exists g p t', In g (rgs t) /\ rg_ident g <> b_replication_group broker /\
                  out (acquire_partition g p (b_id broker) t') = Raise e).
Proof.
  split.
  - intros H. apply force_broker_decommission_raises in H.
    destruct H as [Hne _]. congruence.
  - unfold _force_broker_decommission. rewrite bind_get. intros H.
    apply for_each_raises in H. destruct H as (p & t1 & _ & H).
    rewrite bind_get in H. apply try_groups_raises in H.
    destruct H as (_ & g & t' & Hg & Hr).
    apply in_sorted, filter_In in Hg. destruct Hg as [Hg Hother].
    exists g, p, t'. repeat split; [exact Hg | | exact Hr].
    intros Heq. rewrite Heq, String.eqb_refl in Hother. discriminate.
Qed.
End Forced.

Lemma bind_raises_final {A B} (m : M A) (f : A -> M B) t e :
  out (bind m f t) = Raise e ->
  (out (m t) = Raise e /\ final (bind m f t) = final (m t)) \/
  exists a, out (m t) = Return a /\
            out (f a (final (m t))) = Raise e /\
            final (bind m f t) = final (f a (final (m t))).
Proof.
  unfold bind. destruct (out (m t)) as [a | e' | c] eqn:E; cbn; intros H.
  - right. exists a. auto.
  - left. injection H as ->. auto.
  - discriminate H.
Qed.

Lemma for_each_raises_final {A} (body : A -> M unit) l e :
  forall t, out (for_each l body t) = Raise e ->
            exists x t', In x l /\ out (body x t') = Raise e /\
                         final (for_each l body t) = final (body x t').
Proof.
  induction l as [| x l IH]; intros t H; [discriminate H |].
  cbn [for_each] in *. apply bind_raises_final in H.
  destruct H as [[H Hf] | (u & _ & H & Hf)].
  - exists x, t. split; [now left | split; [exact H | exact Hf]].
  - apply IH in H. destruct H as (y & t' & Hy & Hr & Hf').
    exists y, t'. split; [now right | split; [exact Hr | congruence]].
Qed.

(** X7: when neither the group's own rebalance nor acquire_partition
    raises BrokerDecommissionError themselves, _decommission_brokers_in_group
    raises it only with a broker of the group that still holds partitions
    in the topology it leaves behind. *)
Theorem decommission_in_group_error
  (rg_rebalance_brokers : ReplicationGroup -> M unit)
  (acquire_partition : ReplicationGroup -> pname -> broker_id -> M unit)
  (group : ReplicationGroup) (t : ClusterTopology) :
  (forall g u, out (rg_rebalance_brokers g u) <> Raise BrokerDecommissionError) ->
  (forall g p b u,
      out (acquire_partition g p b u) <> Raise BrokerDecommissionError) ->
  out (_decommission_brokers_in_group rg_rebalance_brokers acquire_partition
         group t) = Raise BrokerDecommissionError ->
  exists id,
    In id (rg_brokers group) /\
    broker_empty
      (final (_decommission_brokers_in_group rg_rebalance_brokers
                acquire_partition group t)) id = false.
Proof.
  intros Hrb Hacq H. unfold _decommission_brokers_in_group in *.
  apply bind_raises_final in H. destruct H as [[H _] | (u & _ & H & Hf)].
  { apply attempt_raises in H. destruct H as [_ H]. now apply Hrb in H. }
  rewrite Hf. clear Hf. apply for_each_raises_final in H.
  destruct H as (id & t1 & Hid & H & Hf). rewrite Hf. clear Hf.
  exists id. split; [exact Hid |]. rewrite bind_get in *.
  destruct (find_broker t1 id) as [broker |]; [| discriminate H].
  destruct (b_decommissioned broker && negb (broker_empty t1 id));
    [| discriminate H].
  apply bind_raises_final in H. destruct H as [[H _] | (v & _ & H & Hf)].
  { apply force_broker_decommission_raises in H.
    destruct H as (_ & g & p & t' & _ & H). now apply Hacq in H. }
  rewrite Hf. rewrite bind_get in *.
  set (tf := final (_force_broker_decommission acquire_partition broker t1)) in *.
  destruct (broker_empty tf id) eqn:E; cbn in *; [discriminate H | exact E].
Qed.

Lemma decommission_in_group_error_witness :
  exists id,
    In id (rg_brokers (mkRG "rg1" [1])) /\
    broker_empty
      (final (_decommission_brokers_in_group idle_group idle_acquire
                (mkRG "rg1" [1]) cluster_stuck)) id = false.
Proof.
  apply decommission_in_group_error.
  - intros g u. discriminate.
  - intros g p b u. discriminate.
  - reflexivity.
Defined.

(** *** rebalance with inactive brokers *)

(** X8: with max_movement_size unset and the replication-group pass asked
    for, rebalance raises RebalanceError as soon as one broker is inactive:
    no pass runs, neither the broker pass nor the leader pass that were
    asked for as well, and the topology is as it was. *)
Theorem rebalance_refuses_inactive_brokers
  (rg_rebalance_brokers : ReplicationGroup -> M unit)
  (rebalance_replicas : M unit) (edge : Type)
  (request_leadership :
     broker_id -> Z -> list broker_id -> list pname -> ClusterTopology ->
     list broker_id * list pname * ClusterTopology)
  (donate_leadership :
     broker_id -> Z -> list broker_id -> list edge -> ClusterTopology ->
     list broker_id * list edge * ClusterTopology)
  (args : Args) (t : ClusterTopology) :
  truthy_opt (max_movement_size args) = false ->
  replication_groups args = true ->
  (exists b, In b (brokers t) /\ b_inactive b = true) ->
  rebalance rg_rebalance_brokers rebalance_replicas request_leadership
            donate_leadership args t
  = mkResult [] t (Raise RebalanceError).
Proof.
  intros Hsize Hgroups Hinactive. unfold rebalance. rewrite Hsize, Hgroups.
  apply bind_raise. unfold rebalance_replication_groups. rewrite bind_get.
  assert (H : existsb b_inactive (brokers t) = true)
    by (apply existsb_exists; exact Hinactive).
  now rewrite H.
Qed.

Lemma rebalance_refuses_inactive_brokers_witness :
  rebalance idle_group idle_pass idle_request idle_donate args_all_passes
            cluster_stuck
  = mkResult [] cluster_stuck (Raise RebalanceError).
Proof.
  apply rebalance_refuses_inactive_brokers; try reflexivity.
  exists (mkBroker 3 "rg2" true false []). split; [cbn; auto | reflexivity].
Defined.

(** *** remove_replica as a whole *)

Lemma remove_replica_rounds_total n osr0 count :
  forall t st,
    well_formed t n ->
    round_invariant t n osr0 st ->
    (count < List.length (replicas_of t n))%nat ->
    exists t' st',
      remove_replica_rounds n count st t = mkResult [] t' (Return st') /\
      well_formed t' n /\
      (List.length (replicas_of t' n) + count = List.length (replicas_of t n))%nat /\
      incl (replicas_of t' n) (replicas_of t n).
Proof.
  induction count as [| k IH]; intros t st Hwf Hinv Hlen.
  - exists t, st.
    split; [reflexivity | split; [exact Hwf | split; [lia | apply incl_refl]]].
  - assert (Hrep : replicas_of t n <> []).
    { intros E. rewrite E in Hlen. cbn in Hlen. lia. }
    destruct (remove_replica_round_spec Hwf Hinv Hrep)
      as (b & st1 & Hrun & Hb & Hinv1).
    pose proof (@length_remove_id b (replicas_of t n)
                  (wf_replicas_distinct Hwf) Hb) as Hlen1.
    rewrite <- replicas_of_drop in Hlen1.
    destruct (IH (drop_replica b n t) st1)
      as (t' & st' & Hrun' & Hwf' & Hlen' & Hincl').
    + now apply well_formed_drop.
    + exact Hinv1.
    + unfold broker_id in *. lia.
    + exists t', st'.
      split; [| split; [exact Hwf' | split]].
      * cbn [remove_replica_rounds]. erewrite bind_returned by exact Hrun.
        rewrite Hrun'. reflexivity.
      * unfold broker_id in *. lia.
      * intros x Hx. apply Hincl' in Hx. rewrite replicas_of_drop in Hx.
        apply in_remove_iff in Hx. tauto.
Qed.

Lemma replicas_of_swap_leader n b t :
  replicas_of t n <> [] ->
  replicas_of (swap_leader n b t) n = b :: remove Z.eq_dec b (replicas_of t n).
Proof.
  unfold swap_leader, replicas_of. rewrite find_partition_update by reflexivity.
  destruct (find_partition t n) as [p |] eqn:E; [| congruence].
  intros _. cbn [option_map]. apply find_partition_name in E.
  assert (H : pname_eqb (p_name p) n = true) by now apply pname_eqb_eq.
  now rewrite H.
Qed.

Lemma min_some {A} (key : A -> Z) l : l <> [] -> exists x, Py.min key l = Some x.
Proof.
  destruct l as [| a l]; [congruence |]. intros _. cbn [Py.min]. eauto.
Qed.

(** X9: on a well-formed topology, with out-of-sync ids that name replicas
    of the partition and count below the replication factor,
    remove_replica returns; the replication factor has gone down by exactly
    count, the remaining replicas are distinct brokers that were replicas
    before, and the new first replica is the one that led the fewest
    partitions when the removals were over. *)
Theorem remove_replica_removes_count (t : ClusterTopology)
  (partition_name : pname) (osr_broker_ids : list broker_id) (count : nat) :
  well_formed t partition_name ->
  (forall id, In id osr_broker_ids -> In id (replicas_of t partition_name)) ->
  Z.of_nat count < replication_factor t partition_name ->
  exists removed new_leader,
    remove_replica partition_name osr_broker_ids count t
    = mkResult [] (swap_leader partition_name new_leader removed) (Return tt) /\
    replication_factor (swap_leader partition_name new_leader removed)
                       partition_name
    = replication_factor t partition_name - Z.of_nat count /\
    NoDup (replicas_of (swap_leader partition_name new_leader removed)
                       partition_name) /\
    incl (replicas_of (swap_leader partition_name new_leader removed)
                      partition_name)
         (replicas_of t partition_name) /\
    hd_error (replicas_of (swap_leader partition_name new_leader removed)
                          partition_name) = Some new_leader /\
    In new_leader (replicas_of removed partition_name) /\
    (forall b, In b (replicas_of removed partition_name) ->
               count_preferred_replica removed new_leader
               <= count_preferred_replica removed b).
Proof.
  intros Hwf Hosr Hcount.
  assert (Hlen : (count < List.length (replicas_of t partition_name))%nat).
  { unfold replication_factor, Py.len in Hcount. lia. }
  destruct (@remove_replica_rounds_total partition_name osr_broker_ids count t
              (removal_init t partition_name osr_broker_ids))
    as (t' & st & Hrun & Hwf' & Hlen' & Hincl); try assumption.
  { now apply removal_init_invariant. }
  assert (Hne : replicas_of t' partition_name <> []).
  { intros E. rewrite E in Hlen'. cbn in Hlen'. unfold broker_id in *. lia. }
  destruct (min_some (count_preferred_replica t') Hne) as [leader Hmin].
  pose proof (min_in _ _ Hmin) as Hin.
  exists t', leader.
  unfold replication_factor.
  rewrite !(@replicas_of_swap_leader partition_name leader t' Hne).
  split; [| split; [| split; [| split; [| split; [| split]]]]].
  - unfold remove_replica. rewrite bind_get.
    unfold replicas_of in Hlen, Hcount. unfold replication_factor, replicas_of in Hcount.
    destruct (find_partition t partition_name) as [p |] eqn:Ep;
      [| cbn in Hlen; lia].
    assert (Hrf : (Py.len (p_replicas p) <=? Z.of_nat count) = false)
      by (apply Z.leb_gt; exact Hcount).
    rewrite Hrf.
    rewrite (@collect_osr_replicas t partition_name osr_broker_ids Hwf Hosr).
    erewrite bind_returned by exact Hrun. rewrite bind_get, Hmin.
    reflexivity.
  - pose proof (@length_remove_id leader (replicas_of t' partition_name)
                  (wf_replicas_distinct Hwf') Hin) as Hl.
    unfold Py.len. cbn [List.length]. unfold broker_id in *. lia.
  - constructor.
    + intros H. apply in_remove_iff in H. tauto.
    + apply NoDup_remove_id, (wf_replicas_distinct Hwf').
  - intros x [<- | Hx]; [now apply Hincl |].
    apply in_remove_iff in Hx. apply Hincl. tauto.
  - reflexivity.
  - exact Hin.
  - intros b Hb. now apply (min_least _ _ Hmin).
Qed.

Lemma remove_replica_removes_count_witness :
  exists removed new_leader,
    remove_replica ("t", 0) [3] 1 cluster_tie
    = mkResult [] (swap_leader ("t", 0) new_leader removed) (Return tt) /\
    replication_factor (swap_leader ("t", 0) new_leader removed) ("t", 0)
    = replication_factor cluster_tie ("t", 0) - Z.of_nat 1 /\
    NoDup (replicas_of (swap_leader ("t", 0) new_leader removed) ("t", 0)) /\
    incl (replicas_of (swap_leader ("t", 0) new_leader removed) ("t", 0))
         (replicas_of cluster_tie ("t", 0)) /\
    hd_error (replicas_of (swap_leader ("t", 0) new_leader removed) ("t", 0))
    = Some new_leader /\
    In new_leader (replicas_of removed ("t", 0)) /\
    (forall b, In b (replicas_of removed ("t", 0)) ->
               count_preferred_replica removed new_leader
               <= count_preferred_replica removed b).
Proof.
  apply remove_replica_removes_count.
  - exact cluster_tie_well_formed.
  - intros id [<- | []]. cbn. auto.
  - reflexivity.
Defined.

(** *** The sibling counts of the broker rebalance *)

Lemma sib_get_set_same info p b v : sib_get (sib_set info p b v) p b = Some v.
Proof.
  assert (Hk : pname_eqb p p && (b =? b) = true).
  { apply andb_true_iff. split; [now apply pname_eqb_eq | apply Z.eqb_refl]. }
  induction info as [| [[p' b'] v'] rest IH]; cbn [sib_set sib_get].
  - now rewrite Hk.
  - destruct (pname_eqb p' p && (b' =? b)) eqn:E; cbn [sib_get].
    + now rewrite Hk.
    + now rewrite E.
Qed.

Lemma sib_get_set_other info p b v q x :
  (q, x) <> (p, b) -> sib_get (sib_set info p b v) q x = sib_get info q x.
Proof.
  intros Hne.
  assert (Hk : pname_eqb p q && (b =? x) = false).
  { apply andb_false_iff.
    destruct (pname_eqb p q) eqn:E1; [| now left]. right.
    apply pname_eqb_eq in E1. apply Z.eqb_neq. congruence. }
  induction info as [| [[p' b'] v'] rest IH]; cbn [sib_set sib_get].
  - now rewrite Hk.
  - destruct (pname_eqb p' p && (b' =? b)) eqn:E; cbn [sib_get].
    + rewrite Hk. apply andb_true_iff in E. destruct E as [E1 E2].
      apply pname_eqb_eq in E1. apply Z.eqb_eq in E2. subst p' b'.
      now rewrite Hk.
    + destruct (pname_eqb p' q && (b' =? x)); [reflexivity | exact IH].
Qed.

Lemma pair_key_dec (q : pname) (x : broker_id) (p : pname) (b : broker_id) :
  {(q, x) = (p, b)} + {(q, x) <> (p, b)}.
Proof.
  destruct (pname_eq_dec q p) as [-> | Hp]; [| right; congruence].
  destruct (Z.eq_dec x b) as [-> | Hb]; [now left | right; congruence].
Qed.

(** X10: update_sibling_info adds one to the count of every partition of
    the moved partition's topic on the destination broker, taking a missing
    count for zero, once for each such partition however often the topic
    lists it; every other count is left as it was. *)
Theorem update_sibling_info_counts (t : ClusterTopology) (info : sibling_info)
  (broker : broker_id) (partition : pname) (q : pname) (x : broker_id) :
  sib_get (update_sibling_info t info (Some (broker, partition))) q x
  = if (x =? broker) && pname_in q (topic_partitions t (fst partition))
    then Some (match sib_get info q broker with
               | Some v => v + 1
               | None => 1
               end)
    else sib_get info q x.
Proof.
  cbn [update_sibling_info].
  assert (Hin : pname_in q (topic_partitions t (fst partition))
                = pname_in q (nodup pname_eq_dec
                                (topic_partitions t (fst partition)))).
  { apply eq_true_iff_eq. rewrite !pname_in_In. symmetry. apply nodup_In. }
  rewrite Hin. clear Hin.
  pose proof (NoDup_nodup pname_eq_dec (topic_partitions t (fst partition)))
    as Hnd.
  revert info Hnd.
  induction (nodup pname_eq_dec (topic_partitions t (fst partition)))
    as [| s rest IH]; intros info Hnd.
  - cbn. now rewrite andb_false_r.
  - inversion Hnd as [| ? ? Hnotin Hnd']; subst. cbn [fold_left].
    rewrite IH by exact Hnd'. clear IH.
    set (info' := match sib_get info s broker with
                  | Some v => sib_set info s broker (v + 1)
                  | None => sib_set info s broker 1
                  end).
    assert (Hsame : sib_get info' s broker
                    = Some (match sib_get info s broker with
                            | Some v => v + 1
                            | None => 1
                            end)).
    { unfold info'. destruct (sib_get info s broker); apply sib_get_set_same. }
    assert (Hother : forall q' x', (q', x') <> (s, broker) ->
                                   sib_get info' q' x' = sib_get info q' x').
    { intros q' x' Hne. unfold info'.
      destruct (sib_get info s broker); now apply sib_get_set_other. }
    cbn [pname_in existsb]. fold (pname_in q rest).
    destruct (x =? broker) eqn:Ex; cbn [andb].
    + apply Z.eqb_eq in Ex. subst x.
      destruct (pname_in q rest) eqn:Er.
      * rewrite orb_true_r. rewrite Hother; [reflexivity |].
        intros Heq. injection Heq as ->. apply pname_in_In in Er. contradiction.
      * rewrite orb_false_r. destruct (pname_eqb q s) eqn:Es.
        -- apply pname_eqb_eq in Es. subst q. exact Hsame.
        -- apply Hother. intros Heq. injection Heq as ->.
           assert (pname_eqb s s = true) by now apply pname_eqb_eq. congruence.
    + apply Hother. intros Heq. injection Heq as _ ->.
      rewrite Z.eqb_refl in Ex. discriminate.
Qed.

Lemma fold_left_flat_map {A B C} (g : A -> C -> A) (h : B -> list C) l :
  forall a,
    fold_left g (flat_map h l) a
    = fold_left (fun a x => fold_left g (h x) a) l a.
Proof.
  induction l as [| x l IH]; intros a; [reflexivity |].
  cbn [flat_map fold_left]. now rewrite fold_left_app, IH.
Qed.

Lemma fold_left_map {A B C} (g : A -> C -> A) (h : B -> C) l :
  forall a, fold_left g (map h l) a = fold_left (fun a x => g a (h x)) l a.
Proof.
  induction l as [| x l IH]; intros a; [reflexivity |].
  cbn [map fold_left]. now rewrite IH.
Qed.

Lemma fold_left_same {A B} (g g' : A -> B -> A) l :
  (forall a x, g a x = g' a x) ->
  forall a, fold_left g l a = fold_left g' l a.
Proof.
  intros H. induction l as [| x l IH]; intros a; [reflexivity |].
  cbn [fold_left]. now rewrite H, IH.
Qed.

(** Storing a value computed from the key, for a list of keys. *)
Lemma sib_get_fold_set (f : pname -> broker_id -> Z) keys :
  forall info q x,
    sib_get (fold_left (fun i k => sib_set i (fst k) (snd k) (f (fst k) (snd k)))
                       keys info) q x
    = if existsb (fun k => pname_eqb (fst k) q && (snd k =? x)) keys
      then Some (f q x) else sib_get info q x.
Proof.
  induction keys as [| [p b] keys IH]; intros info q x; [reflexivity |].
  cbn [fold_left existsb fst snd]. rewrite IH.
  destruct (existsb (fun k => pname_eqb (fst k) q && (snd k =? x)) keys);
    [now rewrite orb_true_r |].
  rewrite orb_false_r.
  destruct (pname_eqb p q && (b =? x)) eqn:E.
  - apply andb_true_iff in E. destruct E as [E1 E2].
    apply pname_eqb_eq in E1. apply Z.eqb_eq in E2. subst p b.
    apply sib_get_set_same.
  - apply sib_get_set_other. intros Heq. injection Heq as -> ->.
    assert (H : pname_eqb p p && (b =? b) = true).
    { apply andb_true_iff. split; [now apply pname_eqb_eq | apply Z.eqb_refl]. }
    congruence.
Qed.

(** X11: partitions_sib_info holds a count for a partition and a broker
    exactly when the partition is on one of the over-loaded brokers and the
    broker is one of the under-loaded brokers; the count is the number of
    partitions of the same topic on that broker. *)
Theorem partitions_sib_info_lookup (t : ClusterTopology)
  (over_loaded_brokers under_loaded_brokers : list broker_id)
  (p : pname) (d : broker_id) :
  sib_get (partitions_sib_info t over_loaded_brokers under_loaded_brokers) p d
  = if existsb (fun s => pname_in p (partitions_of t s)) over_loaded_brokers
       && id_in d under_loaded_brokers
    then Some (count_siblings p (partitions_of t d))
    else None.
Proof.
  set (f := fun (q : pname) (x : broker_id) =>
              count_siblings q (partitions_of t x)).
  set (keys := flat_map
                 (fun s => flat_map
                             (fun q => map (fun x => (q, x)) under_loaded_brokers)
                             (partitions_of t s))
                 over_loaded_brokers).
  assert (Hflat : partitions_sib_info t over_loaded_brokers under_loaded_brokers
                  = fold_left (fun i k => sib_set i (fst k) (snd k)
                                            (f (fst k) (snd k))) keys []).
  { unfold partitions_sib_info, keys. rewrite fold_left_flat_map.
    apply fold_left_same. intros info s. rewrite fold_left_flat_map.
    apply fold_left_same. intros info' q. now rewrite fold_left_map. }
  rewrite Hflat, sib_get_fold_set. cbn [sib_get]. unfold f.
  assert (Hkeys : existsb (fun k => pname_eqb (fst k) p && (snd k =? d)) keys
                  = existsb (fun s => pname_in p (partitions_of t s))
                            over_loaded_brokers
                    && id_in d under_loaded_brokers).
  { apply eq_true_iff_eq.
    rewrite andb_true_iff, !existsb_exists, id_in_In. unfold keys. split.
    - intros ([q x] & Hin & Hk). cbn [fst snd] in Hk.
      apply andb_true_iff in Hk. destruct Hk as [Hq Hx].
      apply pname_eqb_eq in Hq. apply Z.eqb_eq in Hx. subst q x.
      apply in_flat_map in Hin. destruct Hin as (s & Hs & Hin).
      apply in_flat_map in Hin. destruct Hin as (q & Hq & Hin).
      apply in_map_iff in Hin. destruct Hin as (x & Heq & Hx).
      injection Heq as -> ->. split; [| exact Hx].
      exists s. split; [exact Hs | now apply pname_in_In].
    - intros [(s & Hs & Hp) Hd]. apply pname_in_In in Hp.
      exists (p, d). split.
      + apply in_flat_map. exists s. split; [exact Hs |].
        apply in_flat_map. exists p. split; [exact Hp |].
        apply in_map_iff. now exists d.
      + cbn [fst snd]. apply andb_true_iff.
        split; [now apply pname_eqb_eq | apply Z.eqb_refl]. }
  now rewrite Hkeys.
Qed.

(** *** _get_target_brokers and rebalance_brokers *)

Section TargetBrokers.
Variable get_preferred_partition :
  ClusterTopology -> broker_id -> broker_id -> sibling_info -> option pname.
Variable t : ClusterTopology.
Variable info : sibling_info.
Variables sources dests : list broker_id.

(** What holds of the target found so far. *)
Let found (s : search) : Prop :=
  match target s with
  | None => True
  | Some (source, dest, partition) =>
      In source sources /\ In dest dests /\
      (1 < Py.len (partitions_of t source) - Py.len (partitions_of t dest)
       \/ is_decommissioned t source = true) /\
      get_preferred_partition t source dest info = Some partition /\
      exists c, sib_get info partition dest = Some c /\ 0 <= c
  end.

Lemma scan_dests_found source ds :
  In source sources -> incl ds dests ->
  forall s s',
    found s ->
    scan_dests get_preferred_partition t info source ds s = inr s' ->
    found s'.
Proof.
  intros Hsource. induction ds as [| d rest IH]; intros Hds s s' Hs H.
  - cbn in H. injection H as <-. exact Hs.
  - assert (Hrest : incl rest dests) by (intros y Hy; apply Hds; now right).
    cbn [scan_dests] in H.
    destruct ((1 <? _) || is_decommissioned t source) eqn:G.
    2:{ injection H as <-. exact Hs. }
    destruct (get_preferred_partition t source d info) as [p |] eqn:Ep;
      [| apply (IH Hrest s s'); assumption].
    destruct (sib_get info p d) as [c |] eqn:Ec; [| discriminate H].
    destruct (c <? 0) eqn:Eneg; [discriminate H |].
    assert (Hnew : found (mkSearch (Some (source, d, p)) c)).
    { unfold found. cbn [target]. repeat split.
      - exact Hsource.
      - apply Hds. now left.
      - apply orb_true_iff in G. destruct G as [G | G];
          [left; now apply Z.ltb_lt | right; exact G].
      - exact Ep.
      - exists c. split; [exact Ec | now apply Z.ltb_ge]. }
    destruct ((c <? min_sibling_partition_cnt s)
              || (min_sibling_partition_cnt s =? -1));
      [| apply (IH Hrest s s'); assumption].
    destruct (c =? 0).
    + injection H as <-. exact Hnew.
    + apply (IH Hrest (mkSearch (Some (source, d, p)) c) s'); assumption.
Qed.

Lemma scan_sources_found ss :
  incl ss sources ->
  forall s s',
    found s ->
    scan_sources get_preferred_partition t info ss dests s = inr s' ->
    found s'.
Proof.
  induction ss as [| so rest IH]; intros Hss s s' Hs H.
  - cbn in H. injection H as <-. exact Hs.
  - cbn [scan_sources] in H.
    destruct (scan_dests get_preferred_partition t info so dests s)
      as [e | s1] eqn:E; [discriminate H |].
    apply (IH (fun y Hy => Hss y (or_intror Hy)) s1 s'); [| exact H].
    apply (@scan_dests_found so dests) with (s := s); auto.
    + apply Hss. now left.
    + apply incl_refl.
Qed.
End TargetBrokers.

Lemma get_target_brokers_in
  (get_preferred_partition :
     ClusterTopology -> broker_id -> broker_id -> sibling_info -> option pname)
  t over under info s d p info' :
  _get_target_brokers get_preferred_partition t over under info
  = inr (Some (s, d, p), info') ->
  In s over /\ In d under /\
  (1 < Py.len (partitions_of t s) - Py.len (partitions_of t d)
   \/ is_decommissioned t s = true).
Proof.
  unfold _get_target_brokers.
  destruct (scan_sources _ _ _ _ _ _) as [e | st] eqn:E; [discriminate |].
  intros H. injection H as Ht _.
  apply scan_sources_found
    with (sources := Py.sorted_reverse (fun b => Py.len (partitions_of t b)) over)
    in E; [| apply incl_refl | exact I].
  rewrite Ht in E. destruct E as (Hs & Hd & Hg & _).
  apply in_sorted_reverse in Hs. apply in_sorted in Hd. auto.
Qed.

(** X12: when _get_target_brokers returns a target, its source is one of
    the over-loaded brokers and its destination one of the under-loaded
    brokers, the source has more than one partition more than the
    destination or is decommissioned, the partition is the one
    get_preferred_partition chose for the pair, with a non-negative count
    in the cache; the sibling cache is updated for that destination and
    partition.  Without a target the cache is returned as it was. *)
Theorem get_target_brokers_target
  (get_preferred_partition :
     ClusterTopology -> broker_id -> broker_id -> sibling_info -> option pname)
  (t : ClusterTopology) (over_loaded_brokers under_loaded_brokers : list broker_id)
  (info : sibling_info)
  (found : option (broker_id * broker_id * pname)) (info' : sibling_info) :
  _get_target_brokers get_preferred_partition t over_loaded_brokers
                      under_loaded_brokers info = inr (found, info') ->
  match found with
  | None => info' = info
  | Some (source, dest, partition) =>
      In source over_loaded_brokers /\ In dest under_loaded_brokers /\
      (1 < Py.len (partitions_of t source) - Py.len (partitions_of t dest)
       \/ is_decommissioned t source = true) /\
      get_preferred_partition t source dest info = Some partition /\
      (exists c, sib_get info partition dest = Some c /\ 0 <= c) /\
      info' = update_sibling_info t info (Some (dest, partition))
  end.
Proof.
  unfold _get_target_brokers.
  destruct (scan_sources _ _ _ _ _ _) as [e | s] eqn:E; [discriminate |].
  intros H. injection H as <- <-.
  apply scan_sources_found
    with (sources := Py.sorted_reverse (fun b => Py.len (partitions_of t b))
                                       over_loaded_brokers) in E;
    [| apply incl_refl | exact I].
  destruct (target s) as [[[source dest] partition] |]; [| reflexivity].
  destruct E as (Hs & Hd & Hg & Hp & Hc).
  apply in_sorted_reverse in Hs. apply in_sorted in Hd.
  cbn [option_map fst snd]. auto 10.
Qed.

Lemma get_target_brokers_target_witness :
  In 1 [1] /\ In 2 [2] /\
  (1 < Py.len (partitions_of cluster_one_group 1)
       - Py.len (partitions_of cluster_one_group 2)
   \/ is_decommissioned cluster_one_group 1 = true) /\
  preferred_partition cluster_one_group 1 2
    (partitions_sib_info cluster_one_group [1] [2]) = Some ("t", 0) /\
  (exists c, sib_get (partitions_sib_info cluster_one_group [1] [2]) ("t", 0) 2
             = Some c /\ 0 <= c) /\
  update_sibling_info cluster_one_group
    (partitions_sib_info cluster_one_group [1] [2]) (Some (2, ("t", 0)))
  = update_sibling_info cluster_one_group
      (partitions_sib_info cluster_one_group [1] [2]) (Some (2, ("t", 0))).
Proof.
  apply (@get_target_brokers_target preferred_partition cluster_one_group
           [1] [2] (partitions_sib_info cluster_one_group [1] [2])
           (Some (1, 2, ("t", 0)))).
  reflexivity.
Defined.

Section BrokerMoves.
Variable get_preferred_partition :
  ClusterTopology -> broker_id -> broker_id -> sibling_info -> option pname.
Variable g : ReplicationGroup.
Variable t0 : ClusterTopology.
Variables active_brokers blacklist : list broker_id.
Variable total_partitions : Z.
Hypothesis active_in_group : incl active_brokers (rg_brokers g).
Hypothesis active_not_decommissioned :
  forall b, In b active_brokers -> is_decommissioned t0 b = false.
Hypothesis blacklist_in_group : incl blacklist (rg_brokers g).

Lemma split_brokers_incl t over under :
  split_brokers t active_brokers blacklist total_partitions = Some (over, under) ->
  incl over (rg_brokers g) /\ incl under active_brokers.
Proof.
  unfold split_brokers.
  destruct (separate_groups _ _ _) as [[o u] |] eqn:E; [| discriminate].
  intros H. injection H as <- <-.
  apply separate_groups_incl in E. destruct E as [Ho Hu].
  split; [| exact Hu]. intros x Hx. apply in_app_or in Hx.
  destruct Hx as [Hx | Hx].
  - apply active_in_group, Ho, Hx.
  - apply filter_In in Hx. apply blacklist_in_group. tauto.
Qed.

Lemma rebalance_brokers_loop_within fuel :
  forall over under info t,
    incl over (rg_brokers g) -> incl under active_brokers ->
    Forall (within_group g t0)
      (trace (rebalance_brokers_loop get_preferred_partition fuel g
                active_brokers blacklist total_partitions over under info t)).
Proof.
  induction fuel as [| fuel IH]; intros over under info t Hover Hunder.
  - constructor.
  - cbn [rebalance_brokers_loop].
    destruct (Py.truthy under && Py.truthy over); [| constructor].
    rewrite bind_get.
    destruct (_get_target_brokers get_preferred_partition t over under info)
      as [e | [[[[s d] p] |] info']] eqn:E;
      [apply Forall_nil | | apply Forall_nil].
    apply get_target_brokers_in in E. destruct E as (Hs & Hd & Hg).
    rewrite bind_emit. cbn [trace]. constructor.
    + cbn [within_group]. repeat split; auto.
    + rewrite bind_put, bind_get.
      destruct (split_brokers _ _ _ _) as [[over' under'] |] eqn:Es;
        [| constructor].
      apply split_brokers_incl in Es. destruct Es as [Ho Hu].
      now apply IH.
Qed.
End BrokerMoves.

(** X13: every move of ReplicationGroup.rebalance_brokers stays inside the
    group: source and destination are brokers of the group, the
    destination was not decommissioned when the rebalance began, and at
    the move the source had more than one partition more than the
    destination or was decommissioned.  This holds however many rounds the
    loop makes and whatever get_preferred_partition chooses. *)
Theorem rebalance_brokers_moves_within_group
  (get_preferred_partition :
     ClusterTopology -> broker_id -> broker_id -> sibling_info -> option pname)
  (fuel : nat) (g : ReplicationGroup) (t : ClusterTopology) :
  Forall (within_group g t)
         (trace (rg_rebalance_brokers_run get_preferred_partition fuel g t)).
Proof.
  unfold rg_rebalance_brokers_run. rewrite bind_get.
  set (blacklist := _extract_decommissioned t g).
  set (active := filter (fun b => negb (id_in b blacklist)) (rg_brokers g)).
  assert (Hactive : incl active (rg_brokers g)) by apply incl_filter.
  assert (Hblack : incl blacklist (rg_brokers g)).
  { intros b Hb. unfold blacklist, _extract_decommissioned in Hb.
    apply nodup_In, filter_In in Hb. tauto. }
  assert (Hflag : forall b, In b active -> is_decommissioned t b = false).
  { intros b Hb. apply filter_In in Hb. destruct Hb as [Hb Hnot].
    destruct (is_decommissioned t b) eqn:E; [| reflexivity].
    assert (Hin : id_in b blacklist = true).
    { apply id_in_In. unfold blacklist, _extract_decommissioned.
      apply nodup_In, filter_In. auto. }
    rewrite Hin in Hnot. discriminate. }
  destruct (split_brokers t active blacklist _) as [[over under] |] eqn:Es;
    [| constructor].
  destruct (negb (Py.truthy over) && negb (Py.truthy under)); [constructor |].
  destruct (@split_brokers_incl get_preferred_partition g t active blacklist _
              Hactive Hblack t over under Es) as [Ho Hu].
  now apply rebalance_brokers_loop_within.
Qed.

(** The rebalance of [cluster_one_group]: two moves from broker 1 to broker
    2, after which both hold two partitions and the loop is left. *)
Lemma rebalance_brokers_one_group :
  out (rg_rebalance_brokers_run preferred_partition 3 (mkRG "rg1" [1; 2])
         cluster_one_group) = Return Finished /\
  List.length (trace (rg_rebalance_brokers_run preferred_partition 3
                        (mkRG "rg1" [1; 2]) cluster_one_group)) = 2%nat /\
  map (fun b => Py.len (b_partitions b))
      (brokers (final (rg_rebalance_brokers_run preferred_partition 3
                         (mkRG "rg1" [1; 2]) cluster_one_group)))
  = [2; 2].
Proof. repeat split; reflexivity. Qed.

(** *** count_replica counts the brokers that hold the partition *)

(** X14: when the partitions of every broker of a group are a set,
    count_replica is the number of brokers of the group that hold the
    partition. *)
Theorem count_replica_counts_holders (t : ClusterTopology) (g : ReplicationGroup)
  (partition : pname) :
  (forall b, In b (rg_brokers g) -> NoDup (partitions_of t b)) ->
  count_replica t g partition = Py.len (holders t g partition).
Proof.
  unfold count_replica, rg_partitions, holders, Py.len. intros Hset. f_equal.
  induction (rg_brokers g) as [| b l IH]; [reflexivity |].
  cbn [flat_map filter]. rewrite count_occ_app.
  rewrite IH by (intros x Hx; apply Hset; now right).
  assert (Hb : NoDup (partitions_of t b)) by (apply Hset; now left).
  destruct (pname_in partition (partitions_of t b)) eqn:E.
  - apply pname_in_In in E. cbn [List.length].
    rewrite (NoDup_count_occ' pname_eq_dec) in Hb. now rewrite (Hb _ E).
  - assert (Hnot : ~ In partition (partitions_of t b)).
    { intros H. apply pname_in_In in H. congruence. }
    apply (count_occ_not_In pname_eq_dec) in Hnot. now rewrite Hnot.
Qed.

Lemma count_replica_counts_holders_witness :
  count_replica cluster_full_destination (mkRG "rg1" [1; 2]) ("t", 0)
  = Py.len (holders cluster_full_destination (mkRG "rg1" [1; 2]) ("t", 0)).
Proof.
  apply count_replica_counts_holders.
  intros b [<- | [<- | []]]; cbn; repeat constructor; cbn; intuition discriminate.
Defined.

(** *** dict_merge *)

Section DictMerge.
Variables K V : Type.
Variable K_eq_dec : forall a b : K, {a = b} + {a <> b}.

Lemma dict_get_set (d : list (K * V)) k v k' :
  dict_get K_eq_dec (dict_set K_eq_dec d k v) k'
  = if K_eq_dec k k' then Some v else dict_get K_eq_dec d k'.
Proof.
  induction d as [| [k0 v0] rest IH]; cbn [dict_set dict_get].
  - reflexivity.
  - destruct (K_eq_dec k0 k) as [-> | Hne]; cbn [dict_get].
    + destruct (K_eq_dec k k'); reflexivity.
    + rewrite IH. destruct (K_eq_dec k0 k') as [-> | Hne'];
        [| reflexivity].
      destruct (K_eq_dec k k'); [congruence | reflexivity].
Qed.

Lemma dict_get_app (d1 d2 : list (K * V)) k :
  dict_get K_eq_dec (d1 ++ d2) k = match dict_get K_eq_dec d1 k with
                     | Some v => Some v
                     | None => dict_get K_eq_dec d2 k
                     end.
Proof.
  induction d1 as [| [k0 v0] rest IH]; cbn [app dict_get]; [reflexivity |].
  destruct (K_eq_dec k0 k); [reflexivity | exact IH].
Qed.

(** The pairs stored one after the other: the last pair of a key wins. *)
Lemma dict_get_fold (pairs : list (K * V)) :
  forall d k,
    dict_get K_eq_dec (fold_left (fun d kv => dict_set K_eq_dec d (fst kv) (snd kv)) pairs d) k
    = match dict_get K_eq_dec (rev pairs) k with
      | Some v => Some v
      | None => dict_get K_eq_dec d k
      end.
Proof.
  induction pairs as [| [k0 v0] rest IH]; intros d k; [reflexivity |].
  cbn [fold_left rev fst snd]. rewrite IH, dict_get_app, dict_get_set.
  cbn [dict_get]. destruct (dict_get K_eq_dec (rev rest) k); [reflexivity |].
  destruct (K_eq_dec k0 k); reflexivity.
Qed.

Lemma dict_get_in (d : list (K * V)) k v :
  NoDup (map fst d) -> (dict_get K_eq_dec d k = Some v <-> In (k, v) d).
Proof.
  induction d as [| [k0 v0] rest IH]; intros Hnd; cbn [dict_get].
  - split; [discriminate | intros []].
  - cbn [map fst] in Hnd. inversion Hnd as [| ? ? Hnotin Hnd']; subst.
    destruct (K_eq_dec k0 k) as [-> | Hne].
    + split.
      * intros H. injection H as ->. now left.
      * intros [H | H]; [now injection H as -> |].
        exfalso. apply Hnotin. apply in_map_iff. now exists (k, v).
    + rewrite (IH Hnd'). split; [now right |].
      intros [H | H]; [injection H as -> ->; congruence | exact H].
Qed.

Lemma dict_get_rev (d : list (K * V)) k :
  NoDup (map fst d) -> dict_get K_eq_dec (rev d) k = dict_get K_eq_dec d k.
Proof.
  intros Hnd.
  assert (Hrev : NoDup (map fst (rev d))) by (rewrite map_rev; now apply NoDup_rev).
  destruct (dict_get K_eq_dec d k) as [v |] eqn:E.
  - apply (@dict_get_in (rev d) k v Hrev). apply in_rev. rewrite rev_involutive.
    now apply (@dict_get_in d k v Hnd).
  - destruct (dict_get K_eq_dec (rev d) k) as [v |] eqn:E'; [| reflexivity].
    apply (@dict_get_in (rev d) k v Hrev) in E'. apply in_rev in E'.
    apply (@dict_get_in d k v Hnd) in E'. congruence.
Qed.

(** X15: dict_merge of two dicts maps a key to its value in the second
    dict when the second has the key, and to its value in the first
    otherwise. *)
Theorem dict_merge_lookup (set1 set2 : list (K * V)) (k : K) :
  NoDup (map fst set1) -> NoDup (map fst set2) ->
  dict_get K_eq_dec (dict_merge K_eq_dec set1 set2) k
  = match dict_get K_eq_dec set2 k with
    | Some v => Some v
    | None => dict_get K_eq_dec set1 k
    end.
Proof.
  intros H1 H2. unfold dict_merge, dict_of_pairs.
  rewrite dict_get_fold, rev_app_distr, dict_get_app.
  rewrite (@dict_get_rev set1 k H1), (@dict_get_rev set2 k H2). cbn [dict_get].
  destruct (dict_get K_eq_dec set2 k); [reflexivity |]. now destruct (dict_get K_eq_dec set1 k).
Qed.
End DictMerge.

Lemma dict_merge_lookup_witness :
  dict_get Z.eq_dec (dict_merge Z.eq_dec [(1, 10); (2, 20)] [(2, 21); (3, 30)]) 2
  = match dict_get Z.eq_dec [(2, 21); (3, 30)] 2 with
    | Some v => Some v
    | None => dict_get Z.eq_dec [(1, 10); (2, 20)] 2
    end.
Proof.
  apply dict_merge_lookup; cbn;
    repeat (apply NoDup_cons; [cbn; intuition discriminate |]); apply NoDup_nil.
Defined.

(** *** groupsortby *)

Section GroupSortBy.
Variable A : Type.
Variable key : A -> Z.

(** Python's sort is stable: the items of one key keep their order. *)
Lemma insert_asc_stable k x l :
  filter (with_key key k) (Py.insert_asc key x l) = filter (with_key key k) (x :: l).
Proof.
  induction l as [| y l IH]; [reflexivity |].
  cbn [Py.insert_asc]. destruct (key x <=? key y) eqn:E; [reflexivity |].
  apply Z.leb_gt in E. cbn [filter] in *. rewrite IH. unfold with_key.
  destruct (Z.eqb_spec (key y) k), (Z.eqb_spec (key x) k); try reflexivity; lia.
Qed.

Lemma sorted_stable k l :
  filter (with_key key k) (Py.sorted key l) = filter (with_key key k) l.
Proof.
  induction l as [| x l IH]; [reflexivity |].
  cbn [Py.sorted fold_right]. rewrite insert_asc_stable. cbn [filter].
  fold (Py.sorted key l). now rewrite IH.
Qed.

Lemma filter_none k l :
  (forall y, In y l -> key y <> k) -> filter (with_key key k) l = [].
Proof.
  induction l as [| y l IH]; intros H; [reflexivity |].
  cbn [filter]. unfold with_key at 1.
  destruct (Z.eqb_spec (key y) k) as [E | _].
  - now apply H in E; [| left].
  - apply IH. intros z Hz. apply H. now right.
Qed.

Lemma groupby_of_sorted l :
  StronglySorted (fun a b => key a <= key b) l -> groups_of key l (groupby key l).
Proof.
  induction l as [| x l IH]; intros Hs.
  - split; [constructor | split; [intros k items [] | intros x []]].
  - apply StronglySorted_inv in Hs. destruct Hs as [Hs Hx].
    rewrite Forall_forall in Hx.
    destruct (IH Hs) as [Hkeys [Hitems Hall]]. clear IH.
    cbn [groupby]. destruct (groupby key l) as [| [k g] rest] eqn:G.
    + assert (l = []) as ->
        by (destruct l as [| y l]; [reflexivity | destruct (Hall y); now left]).
      split; [repeat constructor |]. split.
      * intros k items [H | []]. injection H as <- <-.
        split; [discriminate |]. cbn [filter]. unfold with_key.
        now rewrite Z.eqb_refl.
      * intros y [<- | []]. now left.
    + cbn [map fst] in Hkeys, Hall.
      apply StronglySorted_inv in Hkeys. destruct Hkeys as [Hrest Hk].
      rewrite Forall_forall in Hk.
      assert (Hleast : forall y, In y l -> k <= key y).
      { intros y Hy. destruct (Hall y Hy) as [<- | Hin]; [lia |].
        apply Hk in Hin. lia. }
      destruct (Z.eqb_spec (key x) k) as [E | E].
      * split; [now constructor; [| apply Forall_forall] |]. split.
        -- intros k' items [H | H].
           ++ injection H as <- <-. split; [discriminate |].
              cbn [filter]. unfold with_key at 1. rewrite E, Z.eqb_refl.
              f_equal. apply (Hitems k g). now left.
           ++ destruct (Hitems k' items) as [Hne Heq]; [now right |].
              split; [exact Hne |]. cbn [filter]. unfold with_key at 1.
              assert (k < k')
                by (apply Hk; apply in_map_iff; now exists (k', items)).
              destruct (Z.eqb_spec (key x) k'); [lia | exact Heq].
        -- intros y [<- | Hy]; [left; now symmetry | now apply Hall].
      * assert (Hlt : key x < k).
        { destruct (Hitems k g) as [Hne Heq]; [now left |].
          destruct g as [| y g']; [congruence |].
          assert (Hy : In y (filter (with_key key k) l))
            by (rewrite <- Heq; now left).
          apply filter_In in Hy. destruct Hy as [Hy Hky].
          unfold with_key in Hky. apply Z.eqb_eq in Hky.
          specialize (Hx y Hy). cbn beta in Hx. lia. }
        split.
        { constructor; [now constructor; [| apply Forall_forall] |].
          constructor; [exact Hlt |]. apply Forall_forall. intros k' Hk'.
          apply Hk in Hk'. cbn [fst]. lia. }
        split.
        -- intros k' items [H | H].
           ++ injection H as <- <-. split; [discriminate |].
              cbn [filter]. unfold with_key at 1. rewrite Z.eqb_refl.
              f_equal. symmetry. apply filter_none.
              intros y Hy. specialize (Hleast y Hy). lia.
           ++ destruct (Hitems k' items H) as [Hne Heq].
              split; [exact Hne |]. cbn [filter]. unfold with_key at 1.
              assert (k <= k').
              { destruct H as [H | H]; [injection H as <- _; lia |].
                assert (k < k'); [| lia].
                apply Hk. apply in_map_iff. now exists (k', items). }
              destruct (Z.eqb_spec (key x) k'); [lia | exact Heq].
        -- intros y [<- | Hy]; [now left | right; now apply Hall].
Qed.

(** X16: groupsortby yields one group for each key that occurs in the
    data, in strictly increasing order of the keys; the group of a key
    lists the items of the data that have this key, in the order of the
    data. *)
Theorem groupsortby_groups (data : list A) :
  let groups := groupsortby data key in
  StronglySorted Z.lt (map fst groups)
  /\ (forall k, In k (map fst groups) <-> exists x, In x data /\ key x = k)
  /\ (forall k items, In (k, items) groups ->
        items = filter (fun x => key x =? k) data).
Proof.
  cbn zeta. unfold groupsortby.
  destruct (groupby_of_sorted (sorted_is_sorted key data))
    as [Hkeys [Hitems Hall]].
  split; [exact Hkeys |]. split.
  - intros k. split.
    + intros Hin. apply in_map_iff in Hin. destruct Hin as [[k' items] [<- Hin]].
      destruct (Hitems _ _ Hin) as [Hne Heq]. cbn [fst].
      destruct items as [| x items']; [congruence |].
      assert (Hx : In x (filter (with_key key k') (Py.sorted key data)))
        by (rewrite <- Heq; now left).
      apply filter_In in Hx. destruct Hx as [Hx Hk].
      exists x. split.
      * eapply Permutation_in; [apply Permutation_sym, sorted_perm | exact Hx].
      * now apply Z.eqb_eq in Hk.
    + intros [x [Hx <-]]. apply Hall.
      eapply Permutation_in; [apply sorted_perm | exact Hx].
  - intros k items Hin. destruct (Hitems _ _ Hin) as [_ ->].
    apply sorted_stable.
Qed.
End GroupSortBy.
